(** * Quantum-Safe Cryptography Platform: a shallow embedding of the backend

    The development follows the Python sources file by file:
    - [models.py]: the rows of the three tables that the routes touch;
    - [crypto_implementations.py]: the six [CryptoBase] classes;
    - [routes/algorithms.py]: the catalog queries, the test harness, the
      comparison and the seeding;
    - [routes/tests.py]: one test by its id, deletion and bulk deletion;
    - [routes/reports.py]: the security report, and one report by its id;
    - the two POST routes above once more, on the body of the request;
    - [init_db.py]: the start-up seeding.

    Conventions.  A Python [str] is represented by the byte string of its
    UTF-8 encoding, so [s.encode("utf-8")] and [b.decode("utf-8")] are the
    two conversions between [string] and [list byte].  Python exceptions are
    the [Raise] results of the [exc] type, carrying [str(e)].  Randomness and
    the wall clock are read from an explicit [world].  The third-party
    libraries (json, RSA-OAEP, AES-CBC, elliptic curves) are interfaces with
    the laws their documentation states; base64, PKCS#7 padding and SHA-256
    are defined in full. *)

From Stdlib Require Import ZArith NArith QArith Lia List Bool Ascii String.
From Stdlib.Strings Require Import Byte.
From Stdlib Require Import DecimalString Qround.
Import ListNotations.

Local Open Scope string_scope.
Local Open Scope Z_scope.

Set Implicit Arguments.
Set Warnings "-register-all".
Set Warnings "-notation-overridden".

(* ===================================================================== *)
(** * Python values *)
(* ===================================================================== *)

(** The values that cross the JSON boundary (request bodies, responses,
    [json.loads] results).  A [dict] keeps its insertion order; lookups take
    the first binding of a key. *)
Inductive pyval : Type :=
| PNone
| PBool (b : bool)
| PInt (z : Z)
| PFloat (q : Q)
| PStr (s : string)
| PList (items : list pyval)
| PDict (fields : list (string * pyval)).

Fixpoint dict_get (k : string) (d : list (string * pyval)) : option pyval :=
  match d with
  | [] => None
  | (k', v) :: d' => if String.eqb k k' then Some v else dict_get k d'
  end.

(** [d.get(k, default)] *)
Definition dict_get_default (k : string) (dflt : pyval) (d : list (string * pyval)) : pyval :=
  match dict_get k d with Some v => v | None => dflt end.

(** [str(n)] for an integer. *)
Definition str_of_Z (z : Z) : string := NilZero.string_of_int (Z.to_int z).

Definition str_of_nat (n : nat) : string := str_of_Z (Z.of_nat n).

(** [len(s)] of a text made of ASCII characters. *)
Definition len (s : string) : Z := Z.of_nat (String.length s).

(** [sep.join(parts)] *)
Fixpoint join (sep : string) (parts : list string) : string :=
  match parts with
  | [] => ""
  | [p] => p
  | p :: rest => p ++ sep ++ join sep rest
  end.

(* ===================================================================== *)
(** * Exceptions and state *)
(* ===================================================================== *)

Inductive exc (A : Type) : Type :=
| Ok (a : A)
| Raise (msg : string).
Arguments Ok {A} a.
Arguments Raise {A} msg.

(** A computation over a mutable state [S] that may raise; the state
    survives a raise, as the attributes of a Python object do. *)
Definition M (S A : Type) : Type := S -> exc A * S.

Definition ret {S A} (a : A) : M S A := fun s => (Ok a, s).

Definition bind {S A B} (m : M S A) (k : A -> M S B) : M S B :=
  fun s => match m s with
           | (Ok a, s') => k a s'
           | (Raise e, s') => (Raise e, s')
           end.

Definition raise {S A} (msg : string) : M S A := fun s => (Raise msg, s).

Definition get {S} : M S S := fun s => (Ok s, s).
Definition put {S} (s : S) : M S unit := fun _ => (Ok tt, s).
Definition modify {S} (f : S -> S) : M S unit := fun s => (Ok tt, f s).

(** [try: body  except Exception as e: raise Exception(prefix + str(e))] *)
Definition reraise {S A} (prefix : string) (body : M S A) : M S A :=
  fun s => match body s with
           | (Ok a, s') => (Ok a, s')
           | (Raise e, s') => (Raise (prefix ++ e), s')
           end.

(** A library call that returns or raises without touching the state. *)
Definition lift {S A} (r : exc A) : M S A := fun s => (r, s).

Declare Scope monad_scope.
Delimit Scope monad_scope with monad.
Notation "x <- m ;; k" := (bind m (fun x => k))
  (at level 61, m at next level, right associativity) : monad_scope.
Notation "m ;;; k" := (bind m (fun _ => k))
  (at level 61, right associativity) : monad_scope.
Local Open Scope monad_scope.

(** [a == b] on two [str] values. *)
Notation "a == b" := (String.eqb a b) (at level 70, no associativity).

(* ===================================================================== *)
(** * models.py *)
(* ===================================================================== *)

Module Algorithm.
Record t : Type := mk {
  id : Z;
  name : string;
  type : string;            (* 'classical' or 'post-quantum' *)
  category : string;        (* 'RSA', 'ECC', 'AES', 'Kyber', 'Dilithium', 'Falcon' *)
  key_size : Z;
  description : string;
  quantum_safe : bool;
  implementation_status : string
}.
End Algorithm.

Module Test.
Record t : Type := mk {
  id : Z;
  user_id : Z;
  algorithm_id : Z;
  test_type : string;
  input_data : string;
  output_data : option string;
  execution_time : Q;       (* in milliseconds *)
  success : bool;
  error_message : option string;
  test_metadata : list (string * pyval)
}.
End Test.

Module Report.
Record t : Type := mk {
  id : Z;
  user_id : Z;
  title : string;
  report_type : string;
  content : pyval;
  algorithms_tested : list Z;
  summary : string;
  recommendations : string
}.
End Report.

(** The store: one list of rows per table, in insertion order.  The
    [created_at] columns (filled by the server clock) are left out. *)
Record db : Type := mkdb {
  algorithms : list Algorithm.t;
  tests : list Test.t;
  reports : list Report.t
}.

Definition empty_db : db := mkdb [] [] [].

(** The integer primary key given to a new row. *)
Definition next_id (ids : list Z) : Z := fold_right Z.max 0 ids + 1.

(** [Algorithm.query.get(algorithm_id)] *)
Definition Algorithm_get (d : db) (algorithm_id : Z) : option Algorithm.t :=
  find (fun a => Algorithm.id a =? algorithm_id) (algorithms d).

(** Primary keys are unique in every table. *)
Record db_wf (d : db) : Prop := {
  wf_algorithms : NoDup (map Algorithm.id (algorithms d));
  wf_tests : NoDup (map Test.id (tests d));
  wf_reports : NoDup (map Report.id (reports d))
}.

(** The same, as a test that computes. *)
Fixpoint distinct (ids : list Z) : bool :=
  match ids with
  | [] => true
  | i :: rest => negb (existsb (Z.eqb i) rest) && distinct rest
  end.

Definition db_wfb (d : db) : bool :=
  distinct (map Algorithm.id (algorithms d))
  && distinct (map Test.id (tests d))
  && distinct (map Report.id (reports d)).

(** An HTTP response: the status code and the [jsonify]-ed body. *)
Record response : Type := mkresp {
  status : Z;
  body : list (string * pyval)
}.

(* ===================================================================== *)
(** * routes/algorithms.py: seeding the catalog *)
(* ===================================================================== *)

(** One literal of the seed lists, the keyword arguments of
    the [Algorithm] constructor. *)
Record algo_data : Type := mk_algo_data {
  ad_name : string;
  ad_type : string;
  ad_category : string;
  ad_key_size : Z;
  ad_description : string;
  ad_quantum_safe : bool
}.

Definition classical_algorithms : list algo_data :=
  [ mk_algo_data "RSA-2048" "classical" "RSA" 2048
      "RSA encryption with 2048-bit key" false;
    mk_algo_data "RSA-4096" "classical" "RSA" 4096
      "RSA encryption with 4096-bit key" false;
    mk_algo_data "ECC-P256" "classical" "ECC" 256
      "Elliptic Curve Cryptography with P-256 curve" false;
    mk_algo_data "ECC-P384" "classical" "ECC" 384
      "Elliptic Curve Cryptography with P-384 curve" false;
    mk_algo_data "AES-128" "classical" "AES" 128
      "Advanced Encryption Standard with 128-bit key" false;
    mk_algo_data "AES-256" "classical" "AES" 256
      "Advanced Encryption Standard with 256-bit key" false ].

Definition post_quantum_algorithms : list algo_data :=
  [ mk_algo_data "Kyber-512" "post-quantum" "Kyber" 512
      "CRYSTALS-Kyber with security level 1" true;
    mk_algo_data "Kyber-768" "post-quantum" "Kyber" 768
      "CRYSTALS-Kyber with security level 3" true;
    mk_algo_data "Kyber-1024" "post-quantum" "Kyber" 1024
      "CRYSTALS-Kyber with security level 5" true;
    mk_algo_data "Dilithium-2" "post-quantum" "Dilithium" 2
      "CRYSTALS-Dilithium with security level 2" true;
    mk_algo_data "Dilithium-3" "post-quantum" "Dilithium" 3
      "CRYSTALS-Dilithium with security level 3" true;
    mk_algo_data "Falcon-512" "post-quantum" "Falcon" 512
      "Falcon signature scheme with 512-bit security" true;
    mk_algo_data "Falcon-1024" "post-quantum" "Falcon" 1024
      "Falcon signature scheme with 1024-bit security" true ].

Definition all_algorithms : list algo_data :=
  List.app classical_algorithms post_quantum_algorithms.

(** [db.session.add(algorithm)] for the row built from [algo_data]: it gets the next primary
    key and the column default ['active']. *)
Definition add_algorithm (d : db) (a : algo_data) : db :=
  let row := Algorithm.mk (next_id (map Algorithm.id (algorithms d)))
               (ad_name a) (ad_type a) (ad_category a) (ad_key_size a)
               (ad_description a) (ad_quantum_safe a) "active" in
  mkdb (List.app (algorithms d) [row]) (tests d) (reports d).

(** [Algorithm.query.count()] *)
Definition Algorithm_count (d : db) : Z := Z.of_nat (List.length (algorithms d)).

Definition seed_algorithms (d : db) : response * db :=
  if Algorithm_count d >? 0 then
    (mkresp 200 [("message", PStr "Algorithms already seeded")], d)
  else
    let d' := fold_left add_algorithm all_algorithms d in
    (mkresp 201
       [("message", PStr ("Successfully seeded "
                          ++ str_of_nat (List.length all_algorithms) ++ " algorithms"));
        ("classical", PInt (Z.of_nat (List.length classical_algorithms)));
        ("post_quantum", PInt (Z.of_nat (List.length post_quantum_algorithms)))],
     d').

(* ===================================================================== *)
(** * init_db.py *)
(* ===================================================================== *)

(** [init_database] carries its own copy of the two seed lists; the copy is
    literally the one of [seed_algorithms].  The result is the list of the
    printed lines and the store. *)
Definition init_database (d : db) : list string * db :=
  let out := ["Database tables created successfully!"] in
  if Algorithm_count d >? 0 then
    (List.app out ["Algorithms already seeded in database."], d)
  else
    let d' := fold_left add_algorithm all_algorithms d in
    (List.app out ["Seeding algorithms...";
             "Successfully seeded " ++ str_of_nat (List.length all_algorithms)
               ++ " algorithms!";
             "- Classical algorithms: "
               ++ str_of_nat (List.length classical_algorithms);
             "- Post-quantum algorithms: "
               ++ str_of_nat (List.length post_quantum_algorithms)],
     d').

(* ===================================================================== *)
(** * routes/tests.py: bulk deletion *)
(* ===================================================================== *)

(** [x in xs] for a list of integers. *)
Definition Z_in (x : Z) (xs : list Z) : bool := existsb (Z.eqb x) xs.

(** [Test.query.filter(Test.id.in_(test_ids),
                       Test.user_id == current_user_id).all()] *)
Definition tests_in_owned (d : db) (test_ids : list Z) (current_user_id : Z)
  : list Test.t :=
  filter (fun t => Z_in (Test.id t) test_ids
                   && (Test.user_id t =? current_user_id)) (tests d).

(** [db.session.delete(test)] *)
Definition delete_test (d : db) (t : Test.t) : db :=
  mkdb (algorithms d)
       (filter (fun t' => negb (Test.id t' =? Test.id t)) (tests d))
       (reports d).

Definition bulk_delete_tests (current_user_id : Z) (test_ids : list Z) (d : db)
  : response * db :=
  match test_ids with
  | [] => (mkresp 400 [("error", PStr "No test IDs provided")], d)
  | _ :: _ =>
      let found := tests_in_owned d test_ids current_user_id in
      if negb (List.length found =? List.length test_ids)%nat then
        (mkresp 404 [("error", PStr "Some tests not found or access denied")], d)
      else
        let d' := fold_left delete_test found d in
        (mkresp 200
           [("message", PStr ("Successfully deleted "
                              ++ str_of_nat (List.length found) ++ " tests"));
            ("deleted_count", PInt (Z.of_nat (List.length found)))],
         d')
  end.

(* ===================================================================== *)
(** * The world: randomness and the clock *)
(* ===================================================================== *)

Definition bytes : Type := list byte.

(** [s.encode("utf-8")] and [b.decode("utf-8")] *)
Definition encode_utf8 (s : string) : bytes := list_byte_of_string s.
Definition decode_utf8 (b : bytes) : string := string_of_list_byte b.

(** What the operating system will answer: the stream of random bytes with
    the number already consumed, and the successive readings of the clock
    (in seconds) with the number already made. *)
Record world : Type := mkworld {
  entropy : nat -> byte;
  drawn : nat;
  clock : nat -> Q;
  reads : nat
}.

(** The next [k] bytes of the stream, and the world after they are taken. *)
Definition draw (k : nat) (w : world) : bytes :=
  map (entropy w) (seq (drawn w) k).

Definition advance (k : nat) (w : world) : world :=
  mkworld (entropy w) (drawn w + k) (clock w) (reads w).

(** [Crypto.Random.get_random_bytes(n)] and [os.urandom(n)] *)
Definition get_random_bytes (n : Z) : M world bytes :=
  fun w =>
    if n <? 0 then (Raise "negative argument not allowed", w)
    else (Ok (draw (Z.to_nat n) w), advance (Z.to_nat n) w).

(** [time.time()] *)
Definition time_time : M world Q :=
  fun w => (Ok (clock w (reads w)),
            mkworld (entropy w) (drawn w) (clock w) (S (reads w))).

(** A method runs on the pair of its object and the world. *)
Definition io {T A} (m : M world A) : M (T * world) A :=
  fun s => let '(r, w') := m (snd s) in (r, (fst s, w')).

Definition getself {T} : M (T * world) T := fun s => (Ok (fst s), s).

Definition setself {T} (f : T -> T) : M (T * world) unit :=
  fun s => (Ok tt, (f (fst s), snd s)).

(** Calling a method of another object [o] from inside a method. *)
Definition call {T T' A} (o : T') (m : M (T' * world) A) : M (T * world) (A * T') :=
  fun s => match m (o, snd s) with
           | (Ok a, (o', w')) => (Ok (a, o'), (fst s, w'))
           | (Raise e, (_, w')) => (Raise e, (fst s, w'))
           end.

(** Truth value of an attribute that is [None] or a byte string. *)
Definition truthy (k : option bytes) : bool :=
  match k with
  | Some (_ :: _) => true
  | _ => false
  end.

(* ===================================================================== *)
(** * Operations on Python values used by the envelopes *)
(* ===================================================================== *)

(** [data[k]] for a string key [k]. *)
Definition getitem (data : pyval) (k : string) : exc pyval :=
  match data with
  | PDict d => match dict_get k d with
               | Some v => Ok v
               | None => Raise ("'" ++ k ++ "'")
               end
  | PList _ => Raise "list indices must be integers or slices, not str"
  | PStr _ => Raise "string indices must be integers, not 'str'"
  | _ => Raise "object is not subscriptable"
  end.

Definition is_str (k : string) (v : pyval) : bool :=
  match v with
  | PStr s => String.eqb s k
  | _ => false
  end.

Definition is_substring (k s : string) : bool :=
  match String.index 0 k s with
  | Some _ => true
  | None => false
  end.

(** [k in data] for a string [k]: key membership in a dict, element
    membership in a list, substring test in a string; a [TypeError] on the
    values that are not containers. *)
Definition contains (k : string) (data : pyval) : exc bool :=
  match data with
  | PDict d => Ok (match dict_get k d with Some _ => true | None => false end)
  | PList items => Ok (existsb (is_str k) items)
  | PStr s => Ok (is_substring k s)
  | _ => Raise "argument of type is not iterable"
  end.

(** A dict literal whose values are all strings. *)
Definition str_dict (fields : list (string * string)) : pyval :=
  PDict (map (fun kv => (fst kv, PStr (snd kv))) fields).

(* ===================================================================== *)
(** * The third-party libraries *)
(* ===================================================================== *)

(** [base64] *)
Class Base64 : Type := {
  b64encode : bytes -> string;
  b64decode : string -> exc bytes
}.

(** [json] *)
Class Json : Type := {
  json_dumps : pyval -> string;
  json_loads : string -> exc pyval
}.

(** [cryptography.hazmat.primitives.hashes]: the digest function behind a
    [Hash(SHA256())] context. *)
Class Hashes : Type := {
  sha256 : bytes -> bytes
}.

(** [Crypto.Util.Padding] *)
Class Padding : Type := {
  pad : bytes -> Z -> bytes;
  unpad : bytes -> Z -> exc bytes
}.

(** AES in CBC mode, as [Crypto.Cipher.AES.new(key, MODE_CBC, iv)] and as
    [Cipher(algorithms.AES(key), modes.CBC(iv))]: arguments key, iv, data. *)
Class AesCbc : Type := {
  aes_cbc_encrypt : bytes -> bytes -> bytes -> exc bytes;
  aes_cbc_decrypt : bytes -> bytes -> bytes -> exc bytes
}.

(** [cryptography.hazmat.primitives.asymmetric.rsa] with OAEP (MGF1 and
    digest SHA-256, no label) and the PEM serialisation. *)
Class Rsa : Type := {
  rsa_private_key : Type;
  rsa_public_key : Type;
  rsa_generate_private_key : Z -> Z -> M world rsa_private_key;
  rsa_public : rsa_private_key -> rsa_public_key;
  rsa_private_bytes : rsa_private_key -> bytes;
  rsa_public_bytes : rsa_public_key -> bytes;
  rsa_oaep_encrypt : rsa_public_key -> bytes -> M world bytes;
  rsa_oaep_decrypt : rsa_private_key -> bytes -> exc bytes;
  (** the longest plaintext OAEP accepts under a key *)
  rsa_oaep_max : rsa_public_key -> nat
}.

Inductive curve : Type := SECP256R1 | SECP384R1 | SECP521R1.

Definition curve_name (c : curve) : string :=
  match c with
  | SECP256R1 => "secp256r1"
  | SECP384R1 => "secp384r1"
  | SECP521R1 => "secp521r1"
  end.

(** [cryptography.hazmat.primitives.asymmetric.ec]: key generation, ECDH,
    ECDSA over SHA-256, and the PEM serialisation. *)
Class Ec : Type := {
  ec_private_key : Type;
  ec_public_key : Type;
  ec_generate_private_key : curve -> M world ec_private_key;
  ec_public : ec_private_key -> ec_public_key;
  ec_key_curve : ec_private_key -> curve;
  ec_private_bytes : ec_private_key -> bytes;
  ec_public_bytes : ec_public_key -> bytes;
  load_pem_public_key : bytes -> exc ec_public_key;
  ec_exchange : ec_private_key -> ec_public_key -> exc bytes;
  ecdsa_sign : ec_private_key -> bytes -> M world bytes;
  ecdsa_verify : ec_public_key -> bytes -> bytes -> exc unit
}.

(** The [repr] of a float, used by [str()] on a value that holds one. *)
Class Builtins : Type := {
  float_repr : Q -> string
}.

(** A [hashes.Hash] context: the bytes fed so far. *)
Module Hash.
Definition t : Type := bytes.
Definition new : t := [].
Definition update (h : t) (data : bytes) : t := List.app h data.
Definition finalize `{Hashes} (h : t) : bytes := sha256 h.
End Hash.

(** [b64decode(v)] on a value taken out of a parsed document. *)
Definition b64decode_value `{Base64} (v : pyval) : exc bytes :=
  match v with
  | PStr s => b64decode s
  | _ => Raise "argument should be a bytes-like object or ASCII string"
  end.

(* ===================================================================== *)
(** * crypto_implementations.py *)
(* ===================================================================== *)

Module RSACrypto.
Section WithLibs.
Context `{Base64} `{Rsa}.

Record t : Type := mk {
  key_size : Z;
  public_key : option rsa_public_key;
  private_key : option rsa_private_key
}.

Definition init (key_size : Z) : t := mk key_size None None.

Definition generate_keys : M (t * world) (list (string * pyval)) :=
  reraise "RSA key generation failed: "
    (self <- getself ;;
     sk <- io (rsa_generate_private_key 65537 (key_size self)) ;;
     setself (fun o => mk (key_size o) (public_key o) (Some sk)) ;;;
     setself (fun o => mk (key_size o) (Some (rsa_public sk)) (private_key o)) ;;;
     let private_pem := rsa_private_bytes sk in
     let public_pem := rsa_public_bytes (rsa_public sk) in
     ret [("public_key", PStr (b64encode public_pem));
          ("private_key", PStr (b64encode private_pem));
          ("key_size", PInt (key_size self))]).

Definition encrypt (plaintext : string) : M (t * world) string :=
  reraise "RSA encryption failed: "
    (self <- getself ;;
     match public_key self with
     | None => _ <- generate_keys ;; ret tt
     | Some _ => ret tt
     end ;;;
     let plaintext := encode_utf8 plaintext in
     self <- getself ;;
     match public_key self with
     | None => raise "'NoneType' object has no attribute 'encrypt'"
     | Some pk =>
         ciphertext <- io (rsa_oaep_encrypt pk plaintext) ;;
         ret (b64encode ciphertext)
     end).

Definition decrypt (ciphertext : string) : M (t * world) string :=
  reraise "RSA decryption failed: "
    (self <- getself ;;
     match private_key self with
     | None => raise "Private key not available for decryption"
     | Some sk =>
         ciphertext_bytes <- lift (b64decode ciphertext) ;;
         plaintext <- lift (rsa_oaep_decrypt sk ciphertext_bytes) ;;
         ret (decode_utf8 plaintext)
     end).
End WithLibs.
End RSACrypto.

(** [b" " * n] *)
Definition spaces (n : Z) : bytes := repeat x20%byte (Z.to_nat n).

(** [b.rstrip(b" ")] *)
Fixpoint rstrip_space (b : bytes) : bytes :=
  match b with
  | [] => []
  | c :: rest =>
      match rstrip_space rest with
      | [] => if Byte.eqb c x20 then [] else [c]
      | rest' => c :: rest'
      end
  end.

Module ECCCrypto.
Section WithLibs.
Context `{Base64} `{Json} `{Hashes} `{AesCbc} `{Ec}.

Record t : Type := mk {
  key_size : Z;
  curve_ : curve;
  public_key : option ec_public_key;
  private_key : option ec_private_key
}.

(** [self.curve_map.get(key_size, ec.SECP256R1())] *)
Definition curve_map_get (key_size : Z) : curve :=
  if key_size =? 256 then SECP256R1
  else if key_size =? 384 then SECP384R1
  else if key_size =? 521 then SECP521R1
  else SECP256R1.

Definition init (key_size : Z) : t :=
  mk key_size (curve_map_get key_size) None None.

Definition generate_keys : M (t * world) (list (string * pyval)) :=
  reraise "ECC key generation failed: "
    (self <- getself ;;
     sk <- io (ec_generate_private_key (curve_ self)) ;;
     setself (fun o => mk (key_size o) (curve_ o) (public_key o) (Some sk)) ;;;
     setself (fun o => mk (key_size o) (curve_ o) (Some (ec_public sk)) (private_key o)) ;;;
     let private_pem := ec_private_bytes sk in
     let public_pem := ec_public_bytes (ec_public sk) in
     ret [("public_key", PStr (b64encode public_pem));
          ("private_key", PStr (b64encode private_pem));
          ("curve", PStr (curve_name (curve_ self)));
          ("key_size", PInt (key_size self))]).

Definition sign (message : string) : M (t * world) string :=
  reraise "ECC signing failed: "
    (self <- getself ;;
     match private_key self with
     | None => _ <- generate_keys ;; ret tt
     | Some _ => ret tt
     end ;;;
     let message := encode_utf8 message in
     self <- getself ;;
     match private_key self with
     | None => raise "'NoneType' object has no attribute 'sign'"
     | Some sk =>
         signature <- io (ecdsa_sign sk message) ;;
         ret (b64encode signature)
     end).

Definition verify (message signature : string) : M (t * world) bool :=
  reraise "ECC verification failed: "
    (self <- getself ;;
     match public_key self with
     | None => raise "Public key not available for verification"
     | Some pk =>
         let message := encode_utf8 message in
         signature_bytes <- lift (b64decode signature) ;;
         match ecdsa_verify pk signature_bytes message with
         | Ok _ => ret true
         | Raise _ => ret false
         end
     end).

Definition encrypt (plaintext : string) : M (t * world) string :=
  reraise "ECC encryption failed: "
    (self <- getself ;;
     match public_key self with
     | None => _ <- generate_keys ;; ret tt
     | Some _ => ret tt
     end ;;;
     self <- getself ;;
     ephemeral_private_key <- io (ec_generate_private_key (curve_ self)) ;;
     let ephemeral_public_key := ec_public ephemeral_private_key in
     match public_key self with
     | None => raise "Unsupported EC exchange peer key"
     | Some pk =>
         shared_key <- lift (ec_exchange ephemeral_private_key pk) ;;
         let digest := Hash.update Hash.new shared_key in
         let aes_key := firstn 32 (Hash.finalize digest) in
         let plaintext := encode_utf8 plaintext in
         iv <- io (get_random_bytes 16) ;;
         let padded_plaintext :=
           List.app plaintext
             (spaces (16 - Z.of_nat (List.length plaintext) mod 16)) in
         ciphertext <- lift (aes_cbc_encrypt aes_key iv padded_plaintext) ;;
         let ephemeral_public_pem := ec_public_bytes ephemeral_public_key in
         let result :=
           [("ciphertext", b64encode ciphertext);
            ("iv", b64encode iv);
            ("ephemeral_public_key", b64encode ephemeral_public_pem)] in
         ret (json_dumps (str_dict result))
     end).

Definition decrypt (encrypted_data : string) : M (t * world) string :=
  reraise "ECC decryption failed: "
    (self <- getself ;;
     match private_key self with
     | None => raise "Private key not available for decryption"
     | Some sk =>
         data <- lift (json_loads encrypted_data) ;;
         v <- lift (getitem data "ciphertext") ;;
         ciphertext <- lift (b64decode_value v) ;;
         v <- lift (getitem data "iv") ;;
         iv <- lift (b64decode_value v) ;;
         v <- lift (getitem data "ephemeral_public_key") ;;
         ephemeral_public_pem <- lift (b64decode_value v) ;;
         ephemeral_public_key <- lift (load_pem_public_key ephemeral_public_pem) ;;
         shared_key <- lift (ec_exchange sk ephemeral_public_key) ;;
         let digest := Hash.update Hash.new shared_key in
         let aes_key := firstn 32 (Hash.finalize digest) in
         padded_plaintext <- lift (aes_cbc_decrypt aes_key iv ciphertext) ;;
         let plaintext := rstrip_space padded_plaintext in
         ret (decode_utf8 plaintext)
     end).
End WithLibs.
End ECCCrypto.

Module AESCrypto.
Section WithLibs.
Context `{Base64} `{Json} `{Padding} `{AesCbc}.

(** [key] is [None] while the object has no attribute [key]. *)
Record t : Type := mk {
  key_size : Z;
  key : option bytes
}.

Definition init (key_size : Z) : t := mk key_size None.

Definition block_size : Z := 16.

Definition generate_keys : M (t * world) (list (string * pyval)) :=
  reraise "AES key generation failed: "
    (self <- getself ;;
     k <- io (get_random_bytes (key_size self / 8)) ;;
     setself (fun o => mk (key_size o) (Some k)) ;;;
     ret [("key", PStr (b64encode k));
          ("key_size", PInt (key_size self))]).

Definition encrypt (plaintext : string) : M (t * world) string :=
  reraise "AES encryption failed: "
    (self <- getself ;;
     match key self with
     | None => _ <- generate_keys ;; ret tt
     | Some _ => ret tt
     end ;;;
     let plaintext := encode_utf8 plaintext in
     iv <- io (get_random_bytes 16) ;;
     self <- getself ;;
     match key self with
     | None => raise "'AESCrypto' object has no attribute 'key'"
     | Some k =>
         let padded_plaintext := pad plaintext block_size in
         ciphertext <- lift (aes_cbc_encrypt k iv padded_plaintext) ;;
         let result :=
           [("ciphertext", b64encode ciphertext);
            ("iv", b64encode iv)] in
         ret (json_dumps (str_dict result))
     end).

Definition decrypt (encrypted_data : string) : M (t * world) string :=
  reraise "AES decryption failed: "
    (self <- getself ;;
     match key self with
     | None => raise "AES key not available for decryption"
     | Some k =>
         data <- lift (json_loads encrypted_data) ;;
         v <- lift (getitem data "ciphertext") ;;
         ciphertext <- lift (b64decode_value v) ;;
         v <- lift (getitem data "iv") ;;
         iv <- lift (b64decode_value v) ;;
         padded_plaintext <- lift (aes_cbc_decrypt k iv ciphertext) ;;
         plaintext <- lift (unpad padded_plaintext block_size) ;;
         ret (decode_utf8 plaintext)
     end).
End WithLibs.
End AESCrypto.

(** [table.get(k, default)] for a small literal table keyed by integers. *)
Fixpoint table_get {A} (table : list (Z * A)) (k : Z) (dflt : A) : A :=
  match table with
  | [] => dflt
  | (k', v) :: rest => if k =? k' then v else table_get rest k dflt
  end.

Module KyberCrypto.
Section WithLibs.
Context `{Base64} `{Json} `{Padding} `{AesCbc}.

Record t : Type := mk {
  key_size : Z;
  public_key : option bytes;
  private_key : option bytes
}.

Definition init (key_size : Z) : t := mk key_size None None.

Definition generate_keys : M (t * world) (list (string * pyval)) :=
  reraise "Kyber key generation failed: "
    (self <- getself ;;
     let public_key_size :=
       table_get [(512, 800); (768, 1184); (1024, 1568)] (key_size self) 800 in
     let private_key_size :=
       table_get [(512, 1632); (768, 2400); (1024, 3168)] (key_size self) 1632 in
     pk <- io (get_random_bytes public_key_size) ;;
     setself (fun o => mk (key_size o) (Some pk) (private_key o)) ;;;
     sk <- io (get_random_bytes private_key_size) ;;
     setself (fun o => mk (key_size o) (public_key o) (Some sk)) ;;;
     ret [("public_key", PStr (b64encode pk));
          ("private_key", PStr (b64encode sk));
          ("algorithm", PStr "Kyber");
          ("security_level", PInt (key_size self));
          ("public_key_size", PInt (Z.of_nat (List.length pk)));
          ("private_key_size", PInt (Z.of_nat (List.length sk)))]).

Definition encrypt (plaintext : string) : M (t * world) string :=
  reraise "Kyber encryption failed: "
    (self <- getself ;;
     (if truthy (public_key self) then ret tt
      else _ <- generate_keys ;; ret tt) ;;;
     shared_secret <- io (get_random_bytes 32) ;;
     let aes_crypto := AESCrypto.mk 256 (Some shared_secret) in
     r <- call aes_crypto (AESCrypto.encrypt plaintext) ;;
     let encrypted_message := fst r in
     encapsulated_secret <- io (get_random_bytes 64) ;;
     let result :=
       [("encapsulated_secret", b64encode encapsulated_secret);
        ("encrypted_message", encrypted_message);
        ("algorithm", "Kyber")] in
     ret (json_dumps (str_dict result))).

Definition decrypt (encrypted_data : string) : M (t * world) string :=
  reraise "Kyber decryption failed: "
    (self <- getself ;;
     if negb (truthy (private_key self)) then
       raise "Private key not available for decryption"
     else
       data <- lift (json_loads encrypted_data) ;;
       v <- lift (getitem data "encapsulated_secret") ;;
       encapsulated_secret <- lift (b64decode_value v) ;;
       encrypted_message <- lift (getitem data "encrypted_message") ;;
       shared_secret <- io (get_random_bytes 32) ;;
       let aes_crypto := AESCrypto.mk 256 (Some shared_secret) in
       match encrypted_message with
       | PStr encrypted_message =>
           r <- call aes_crypto (AESCrypto.decrypt encrypted_message) ;;
           ret (fst r)
       | _ =>
           raise ("AES decryption failed: the JSON object must be str, "
                  ++ "bytes or bytearray")
       end).
End WithLibs.
End KyberCrypto.

Module DilithiumCrypto.
Section WithLibs.
Context `{Base64} `{Json} `{Hashes}.

Record t : Type := mk {
  key_size : Z;
  public_key : option bytes;
  private_key : option bytes
}.

Definition init (key_size : Z) : t := mk key_size None None.

(** The (public, private) sizes per security level. *)
Definition key_sizes : list (Z * (Z * Z)) :=
  [(2, (1312, 2528)); (3, (1952, 4000)); (5, (2592, 4864))].

Definition generate_keys : M (t * world) (list (string * pyval)) :=
  reraise "Dilithium key generation failed: "
    (self <- getself ;;
     let sizes := table_get key_sizes (key_size self) (1312, 2528) in
     pk <- io (get_random_bytes (fst sizes)) ;;
     setself (fun o => mk (key_size o) (Some pk) (private_key o)) ;;;
     sk <- io (get_random_bytes (snd sizes)) ;;
     setself (fun o => mk (key_size o) (public_key o) (Some sk)) ;;;
     ret [("public_key", PStr (b64encode pk));
          ("private_key", PStr (b64encode sk));
          ("algorithm", PStr "Dilithium");
          ("security_level", PInt (key_size self));
          ("public_key_size", PInt (Z.of_nat (List.length pk)));
          ("private_key_size", PInt (Z.of_nat (List.length sk)))]).

Definition signature_size (key_size : Z) : Z :=
  table_get [(2, 2420); (3, 3293); (5, 4595)] key_size 2420.

Definition sign (message : string) : M (t * world) string :=
  reraise "Dilithium signing failed: "
    (self <- getself ;;
     (if truthy (private_key self) then ret tt
      else _ <- generate_keys ;; ret tt) ;;;
     let message := encode_utf8 message in
     signature <- io (get_random_bytes (signature_size (key_size self))) ;;
     let result :=
       [("signature", b64encode signature);
        ("message_hash", b64encode (Hash.finalize Hash.new));
        ("algorithm", "Dilithium")] in
     ret (json_dumps (str_dict result))).

Definition verify (message signature_data : string) : M (t * world) bool :=
  reraise "Dilithium verification failed: "
    (self <- getself ;;
     if negb (truthy (public_key self)) then
       raise "Public key not available for verification"
     else
       data <- lift (json_loads signature_data) ;;
       has_signature <- lift (contains "signature" data) ;;
       if has_signature then lift (contains "algorithm" data)
       else ret false).

Definition encrypt (plaintext : string) : M (t * world) string :=
  raise ("Dilithium is a signature algorithm, not for encryption. "
         ++ "Use sign() method instead.").

Definition decrypt (ciphertext : string) : M (t * world) string :=
  raise ("Dilithium is a signature algorithm, not for decryption. "
         ++ "Use verify() method instead.").
End WithLibs.
End DilithiumCrypto.

Module FalconCrypto.
Section WithLibs.
Context `{Base64} `{Json} `{Hashes}.

Record t : Type := mk {
  key_size : Z;
  public_key : option bytes;
  private_key : option bytes
}.

Definition init (key_size : Z) : t := mk key_size None None.

Definition key_sizes : list (Z * (Z * Z)) :=
  [(512, (897, 1281)); (1024, (1793, 2305))].

Definition generate_keys : M (t * world) (list (string * pyval)) :=
  reraise "Falcon key generation failed: "
    (self <- getself ;;
     let sizes := table_get key_sizes (key_size self) (897, 1281) in
     pk <- io (get_random_bytes (fst sizes)) ;;
     setself (fun o => mk (key_size o) (Some pk) (private_key o)) ;;;
     sk <- io (get_random_bytes (snd sizes)) ;;
     setself (fun o => mk (key_size o) (public_key o) (Some sk)) ;;;
     ret [("public_key", PStr (b64encode pk));
          ("private_key", PStr (b64encode sk));
          ("algorithm", PStr "Falcon");
          ("security_level", PInt (key_size self));
          ("public_key_size", PInt (Z.of_nat (List.length pk)));
          ("private_key_size", PInt (Z.of_nat (List.length sk)))]).

Definition signature_size (key_size : Z) : Z :=
  table_get [(512, 690); (1024, 1330)] key_size 690.

Definition sign (message : string) : M (t * world) string :=
  reraise "Falcon signing failed: "
    (self <- getself ;;
     (if truthy (private_key self) then ret tt
      else _ <- generate_keys ;; ret tt) ;;;
     let message := encode_utf8 message in
     signature <- io (get_random_bytes (signature_size (key_size self))) ;;
     let result :=
       [("signature", b64encode signature);
        ("message_hash", b64encode (Hash.finalize Hash.new));
        ("algorithm", "Falcon")] in
     ret (json_dumps (str_dict result))).

Definition verify (message signature_data : string) : M (t * world) bool :=
  reraise "Falcon verification failed: "
    (self <- getself ;;
     if negb (truthy (public_key self)) then
       raise "Public key not available for verification"
     else
       data <- lift (json_loads signature_data) ;;
       has_signature <- lift (contains "signature" data) ;;
       if has_signature then lift (contains "algorithm" data)
       else ret false).

Definition encrypt (plaintext : string) : M (t * world) string :=
  raise ("Falcon is a signature algorithm, not for encryption. "
         ++ "Use sign() method instead.").

Definition decrypt (ciphertext : string) : M (t * world) string :=
  raise ("Falcon is a signature algorithm, not for decryption. "
         ++ "Use verify() method instead.").
End WithLibs.
End FalconCrypto.

(* ===================================================================== *)
(** * [str()] of the values stored as test output *)
(* ===================================================================== *)

(** [repr(v)]; a string is quoted without escapes, which is exact for the
    texts that reach it (dict keys and base64 alphabets). *)
Fixpoint py_repr `{Builtins} (v : pyval) : string :=
  match v with
  | PNone => "None"
  | PBool true => "True"
  | PBool false => "False"
  | PInt z => str_of_Z z
  | PFloat q => float_repr q
  | PStr s => "'" ++ s ++ "'"
  | PList items => "[" ++ join ", " (map py_repr items) ++ "]"
  | PDict fields =>
      "{" ++ join ", "
               (map (fun kv => let '(k, x) := kv in
                               "'" ++ k ++ "': " ++ py_repr x) fields)
          ++ "}"
  end.

(** [str(v)] *)
Definition py_str `{Builtins} (v : pyval) : string :=
  match v with
  | PStr s => s
  | _ => py_repr v
  end.

Definition option_str (o : option string) : pyval :=
  match o with
  | Some s => PStr s
  | None => PNone
  end.

(** [Algorithm.to_dict()] and [Test.to_dict()], without [created_at]. *)
Definition Algorithm_to_dict (a : Algorithm.t) : pyval :=
  PDict [("id", PInt (Algorithm.id a));
         ("name", PStr (Algorithm.name a));
         ("type", PStr (Algorithm.type a));
         ("category", PStr (Algorithm.category a));
         ("key_size", PInt (Algorithm.key_size a));
         ("description", PStr (Algorithm.description a));
         ("quantum_safe", PBool (Algorithm.quantum_safe a));
         ("implementation_status", PStr (Algorithm.implementation_status a))].

Definition Test_to_dict (t : Test.t) : pyval :=
  PDict [("id", PInt (Test.id t));
         ("user_id", PInt (Test.user_id t));
         ("algorithm_id", PInt (Test.algorithm_id t));
         ("test_type", PStr (Test.test_type t));
         ("input_data", PStr (Test.input_data t));
         ("output_data", option_str (Test.output_data t));
         ("execution_time", PFloat (Test.execution_time t));
         ("success", PBool (Test.success t));
         ("error_message", option_str (Test.error_message t));
         ("test_metadata", PDict (Test.test_metadata t))].

(* ===================================================================== *)
(** * routes/algorithms.py: the implementations behind a category *)
(* ===================================================================== *)

Section Routes.
Context `{Base64} `{Json} `{Hashes} `{Padding} `{AesCbc} `{Rsa} `{Ec}
        `{Builtins}.

(** An instance of one of the six classes. *)
Inductive crypto_impl : Type :=
| OfRSA (o : RSACrypto.t)
| OfECC (o : ECCCrypto.t)
| OfAES (o : AESCrypto.t)
| OfKyber (o : KyberCrypto.t)
| OfDilithium (o : DilithiumCrypto.t)
| OfFalcon (o : FalconCrypto.t).

(** [ALGORITHM_IMPLEMENTATIONS.get(category)], already applied to
    [key_size=...] *)
Definition ALGORITHM_IMPLEMENTATIONS (category : string)
  : option (Z -> crypto_impl) :=
  if category == "RSA" then Some (fun k => OfRSA (RSACrypto.init k))
  else if category == "ECC" then Some (fun k => OfECC (ECCCrypto.init k))
  else if category == "AES" then Some (fun k => OfAES (AESCrypto.init k))
  else if category == "Kyber" then Some (fun k => OfKyber (KyberCrypto.init k))
  else if category == "Dilithium" then
    Some (fun k => OfDilithium (DilithiumCrypto.init k))
  else if category == "Falcon" then Some (fun k => OfFalcon (FalconCrypto.init k))
  else None.

(** Run a method of the class of [o] and store the object back. *)
Definition method {T A} (wrap : T -> crypto_impl) (o : T) (m : M (T * world) A)
  : M (crypto_impl * world) A :=
  fun s => let '(r, (o', w')) := m (o, snd s) in (r, (wrap o', w')).

Definition impl_encrypt (plaintext : string) : M (crypto_impl * world) string :=
  fun s => match fst s with
           | OfRSA o => method OfRSA o (RSACrypto.encrypt plaintext) s
           | OfECC o => method OfECC o (ECCCrypto.encrypt plaintext) s
           | OfAES o => method OfAES o (AESCrypto.encrypt plaintext) s
           | OfKyber o => method OfKyber o (KyberCrypto.encrypt plaintext) s
           | OfDilithium o => method OfDilithium o (DilithiumCrypto.encrypt plaintext) s
           | OfFalcon o => method OfFalcon o (FalconCrypto.encrypt plaintext) s
           end.

Definition impl_decrypt (ciphertext : string) : M (crypto_impl * world) string :=
  fun s => match fst s with
           | OfRSA o => method OfRSA o (RSACrypto.decrypt ciphertext) s
           | OfECC o => method OfECC o (ECCCrypto.decrypt ciphertext) s
           | OfAES o => method OfAES o (AESCrypto.decrypt ciphertext) s
           | OfKyber o => method OfKyber o (KyberCrypto.decrypt ciphertext) s
           | OfDilithium o => method OfDilithium o (DilithiumCrypto.decrypt ciphertext) s
           | OfFalcon o => method OfFalcon o (FalconCrypto.decrypt ciphertext) s
           end.

Definition impl_generate_keys : M (crypto_impl * world) (list (string * pyval)) :=
  fun s => match fst s with
           | OfRSA o => method OfRSA o RSACrypto.generate_keys s
           | OfECC o => method OfECC o ECCCrypto.generate_keys s
           | OfAES o => method OfAES o AESCrypto.generate_keys s
           | OfKyber o => method OfKyber o KyberCrypto.generate_keys s
           | OfDilithium o => method OfDilithium o DilithiumCrypto.generate_keys s
           | OfFalcon o => method OfFalcon o FalconCrypto.generate_keys s
           end.

(** [hasattr(crypto_impl, "sign")]; the same three classes define
    [verify]. *)
Definition has_sign (c : crypto_impl) : bool :=
  match c with
  | OfECC _ | OfDilithium _ | OfFalcon _ => true
  | _ => false
  end.

Definition has_verify (c : crypto_impl) : bool := has_sign c.

Definition impl_sign (message : string) : M (crypto_impl * world) string :=
  fun s => match fst s with
           | OfECC o => method OfECC o (ECCCrypto.sign message) s
           | OfDilithium o => method OfDilithium o (DilithiumCrypto.sign message) s
           | OfFalcon o => method OfFalcon o (FalconCrypto.sign message) s
           | _ => (Raise "object has no attribute 'sign'", s)
           end.

Definition impl_verify (message signature : string) : M (crypto_impl * world) bool :=
  fun s => match fst s with
           | OfECC o => method OfECC o (ECCCrypto.verify message signature) s
           | OfDilithium o =>
               method OfDilithium o (DilithiumCrypto.verify message signature) s
           | OfFalcon o => method OfFalcon o (FalconCrypto.verify message signature) s
           | _ => (Raise "object has no attribute 'verify'", s)
           end.

(* =================================================================== *)
(** * routes/algorithms.py: the test harness *)
(* =================================================================== *)

(** What a request works on: the store and the world. *)
Record app : Type := mkapp {
  database : db;
  env : world
}.

Definition clock_io {A} (m : M world A) : M app A :=
  fun s => let '(r, w') := m (env s) in (r, mkapp (database s) w').

(** Run a method on the local object [c]; the object after the call comes
    back with the result. *)
Definition on_impl {A} (c : crypto_impl) (m : M (crypto_impl * world) A)
  : M app (A * crypto_impl) :=
  fun s => match m (c, env s) with
           | (Ok a, (c', w')) => (Ok (a, c'), mkapp (database s) w')
           | (Raise e, (_, w')) => (Raise e, mkapp (database s) w')
           end.

(** [try: body  except Exception as e: handler(str(e))] *)
Definition try_except {S A} (body : M S A) (handler : string -> M S A) : M S A :=
  fun s => match body s with
           | (Ok a, s') => (Ok a, s')
           | (Raise e, s') => handler e s'
           end.

(** [db.session.add(test_record); db.session.commit()]: the row as stored,
    with its primary key. *)
Definition add_test (user_id algorithm_id : Z) (test_type input_data : string)
    (output_data : option string) (execution_time : Q) (success : bool)
    (error_message : option string) (test_metadata : list (string * pyval))
  : M app Test.t :=
  fun s =>
    let d := database s in
    let row := Test.mk (next_id (map Test.id (tests d))) user_id algorithm_id
                 test_type input_data output_data execution_time success
                 error_message test_metadata in
    (Ok row, mkapp (mkdb (algorithms d) (List.app (tests d) [row]) (reports d))
                   (env s)).

(** The two fields that [test_algorithm] reads from a body that is an
    object; [None] is an absent key, and a key that is present holds a text.
    A field of another JSON type reaches the classes and the database driver
    as it is; what these do with it is not part of the sources, and such
    bodies are left out. *)
Record test_request : Type := mk_test_request {
  req_test_type : option string;
  req_input_data : option string
}.

Definition or_default (o : option string) (dflt : string) : string :=
  match o with
  | Some s => s
  | None => dflt
  end.

(** The [if/elif] chain of the inner [try]: the output of the operation,
    or [None] when the chain falls to its [else] branch. *)
Definition perform (crypto_impl : crypto_impl) (test_type input_data : string)
  : M app (option pyval) :=
  if test_type == "encryption" then
    r <- on_impl crypto_impl (impl_encrypt input_data) ;;
    ret (Some (PStr (fst r)))
  else if test_type == "decryption" then
    r <- on_impl crypto_impl (impl_encrypt input_data) ;;
    let '(encrypted, crypto_impl) := r in
    r <- on_impl crypto_impl (impl_decrypt encrypted) ;;
    ret (Some (PStr (fst r)))
  else if test_type == "key_generation" then
    r <- on_impl crypto_impl impl_generate_keys ;;
    let result := fst r in
    ret (Some (PDict
      [("public_key_size",
        PInt (len (py_str (dict_get_default "public_key" (PStr "") result))));
       ("private_key_size",
        PInt (len (py_str (dict_get_default "private_key" (PStr "") result))));
       ("generated", PBool true)]))
  else if (test_type == "signing") && has_sign crypto_impl then
    r <- on_impl crypto_impl (impl_sign input_data) ;;
    ret (Some (PStr (fst r)))
  else if (test_type == "verification") && has_verify crypto_impl then
    r <- on_impl crypto_impl (impl_sign input_data) ;;
    let '(signature, crypto_impl) := r in
    r <- on_impl crypto_impl (impl_verify input_data signature) ;;
    ret (Some (PDict [("verified", PBool (fst r))]))
  else ret None.

Definition is_signature_category (category : string) : bool :=
  (category == "Dilithium") || (category == "Falcon").

(** The route on the fields of an object body; [Endpoint.test_algorithm]
    below is the route on any body, where the outer handler is reached. *)
Definition test_algorithm (current_user_id algorithm_id : Z) (data : test_request)
  : M app response :=
  try_except
    (s <- get ;;
     match Algorithm_get (database s) algorithm_id with
     | None => ret (mkresp 404 [("error", PStr "Algorithm not found")])
     | Some algorithm =>
         let test_type := or_default (req_test_type data) "encryption" in
         let input_data := or_default (req_input_data data) "Hello, Quantum World!" in
         let test_type :=
           if is_signature_category (Algorithm.category algorithm)
              && (test_type == "encryption")
           then "signing" else test_type in
         match ALGORITHM_IMPLEMENTATIONS (Algorithm.category algorithm) with
         | None =>
             ret (mkresp 400
                    [("error", PStr ("Implementation not available for "
                                     ++ Algorithm.category algorithm))])
         | Some implementation_class =>
             let crypto_impl := implementation_class (Algorithm.key_size algorithm) in
             let test_metadata :=
               [("key_size", PInt (Algorithm.key_size algorithm));
                ("algorithm_type", PStr (Algorithm.type algorithm))] in
             start_time <- clock_io time_time ;;
             try_except
               (output <- perform crypto_impl test_type input_data ;;
                match output with
                | None =>
                    ret (mkresp 400
                           [("error", PStr ("Unsupported test type: " ++ test_type))])
                | Some output_data =>
                    now <- clock_io time_time ;;
                    let execution_time := ((now - start_time) * 1000)%Q in
                    test_record <-
                      add_test current_user_id algorithm_id test_type input_data
                        (Some (py_str output_data)) execution_time true None
                        test_metadata ;;
                    ret (mkresp 200
                           [("message", PStr "Test completed successfully");
                            ("test", Test_to_dict test_record);
                            ("result", output_data)])
                end)
               (fun crypto_error =>
                  now <- clock_io time_time ;;
                  let execution_time := ((now - start_time) * 1000)%Q in
                  test_record <-
                    add_test current_user_id algorithm_id test_type input_data
                      None execution_time false (Some crypto_error)
                      test_metadata ;;
                  ret (mkresp 400
                         [("message", PStr "Test failed");
                          ("test", Test_to_dict test_record);
                          ("error", PStr crypto_error)]))
         end
     end)
    (fun e =>
       ret (mkresp 500 [("error", PStr "Failed to test algorithm");
                        ("details", PStr e)])).

(* =================================================================== *)
(** * routes/algorithms.py: the comparison *)
(* =================================================================== *)

Record compare_request : Type := mk_compare_request {
  req_algorithm_ids : list Z;
  req_test_data : option string
}.

(** The body of the [for] loop for one [algo_id]: the row appended to
    [comparison_results], or [None] after a [continue]. *)
Definition compare_one (test_data : string) (algo_id : Z) : M app (option pyval) :=
  s <- get ;;
  match Algorithm_get (database s) algo_id with
  | None => ret None
  | Some algorithm =>
      match ALGORITHM_IMPLEMENTATIONS (Algorithm.category algorithm) with
      | None => ret None
      | Some implementation_class =>
          try_except
            (let crypto_impl := implementation_class (Algorithm.key_size algorithm) in
             start_time <- clock_io time_time ;;
             r <- on_impl crypto_impl (impl_encrypt test_data) ;;
             let '(encrypted, crypto_impl) := r in
             now <- clock_io time_time ;;
             let encryption_time := ((now - start_time) * 1000)%Q in
             start_time <- clock_io time_time ;;
             r <- on_impl crypto_impl (impl_decrypt encrypted) ;;
             let '(decrypted, crypto_impl) := r in
             now <- clock_io time_time ;;
             let decryption_time := ((now - start_time) * 1000)%Q in
             start_time <- clock_io time_time ;;
             r <- on_impl crypto_impl impl_generate_keys ;;
             now <- clock_io time_time ;;
             let key_gen_time := ((now - start_time) * 1000)%Q in
             ret (Some (PDict
               [("algorithm", Algorithm_to_dict algorithm);
                ("performance", PDict
                   [("encryption_time_ms", PFloat encryption_time);
                    ("decryption_time_ms", PFloat decryption_time);
                    ("key_generation_time_ms", PFloat key_gen_time);
                    ("total_time_ms",
                     PFloat (encryption_time + decryption_time + key_gen_time)%Q)]);
                ("success", PBool (decrypted == test_data))])))
            (fun e =>
               ret (Some (PDict
                 [("algorithm", Algorithm_to_dict algorithm);
                  ("performance", PNone);
                  ("success", PBool false);
                  ("error", PStr e)])))
      end
  end.

Fixpoint compare_loop (test_data : string) (algorithm_ids : list Z)
    (comparison_results : list pyval) : M app (list pyval) :=
  match algorithm_ids with
  | [] => ret comparison_results
  | algo_id :: rest =>
      row <- compare_one test_data algo_id ;;
      match row with
      | None => compare_loop test_data rest comparison_results
      | Some r => compare_loop test_data rest (List.app comparison_results [r])
      end
  end.

Definition compare_algorithms (current_user_id : Z) (data : compare_request)
  : M app response :=
  try_except
    (let algorithm_ids := req_algorithm_ids data in
     let test_data := or_default (req_test_data data) "Hello, Quantum World!" in
     if (List.length algorithm_ids <? 2)%nat then
       ret (mkresp 400
              [("error", PStr "At least 2 algorithms required for comparison")])
     else
       comparison_results <- compare_loop test_data algorithm_ids [] ;;
       now <- clock_io time_time ;;
       ret (mkresp 200
              [("comparison", PList comparison_results);
               ("test_data", PStr test_data);
               ("timestamp", PFloat now)]))
    (fun e =>
       ret (mkresp 500 [("error", PStr "Failed to compare algorithms");
                        ("details", PStr e)])).
End Routes.

(* ===================================================================== *)
(** * routes/reports.py: the security report *)
(* ===================================================================== *)

Section Reports.
Context `{Builtins}.

(** A Python number is [PInt] or [PFloat]; floats are exact rationals
    here, where Python computes with binary floats.  A comparison sitting
    within a rounding error of its threshold is decided by the exact value,
    and a quotient whose exact value lies halfway between two hundredths is
    rounded from that value, where Python rounds the float next to it (for
    23 of 160 the code shows 14.37 and [round2] gives 14.38). *)
Definition num_value (x : pyval) : Q :=
  match x with
  | PInt z => inject_Z z
  | PFloat q => q
  | _ => 0%Q
  end.

Definition num_ge (x : pyval) (k : Z) : bool :=
  match (num_value x ?= inject_Z k)%Q with
  | Lt => false
  | _ => true
  end.

Definition num_lt (x : pyval) (k : Z) : bool := negb (num_ge x k).

Definition round_half_even (q : Q) : Z :=
  let f := Qfloor q in
  match ((q - inject_Z f) ?= (1 # 2))%Q with
  | Lt => f
  | Gt => f + 1
  | Eq => if Z.even f then f else f + 1
  end.

(** [round(x, 2)]: an [int] stays an [int]. *)
Definition round2 (x : pyval) : pyval :=
  match x with
  | PFloat q => PFloat (inject_Z (round_half_even (q * 100)) / 100)%Q
  | _ => x
  end.

(** [(part / total * 100) if total > 0 else 0] *)
Definition percentage (part total : Z) : pyval :=
  if total >? 0 then PFloat (inject_Z part / inject_Z total * 100)%Q
  else PInt 0.

(** [Test.query.filter_by(user_id=..., algorithm_id=...).count()] and the
    same with [success=True]. *)
Definition count_tests (d : db) (user_id algorithm_id : Z) : Z :=
  Z.of_nat (List.length
    (filter (fun t => (Test.user_id t =? user_id)
                      && (Test.algorithm_id t =? algorithm_id)) (tests d))).

Definition count_successful_tests (d : db) (user_id algorithm_id : Z) : Z :=
  Z.of_nat (List.length
    (filter (fun t => (Test.user_id t =? user_id)
                      && (Test.algorithm_id t =? algorithm_id)
                      && Test.success t) (tests d))).

(** [Test.query.join(Algorithm).filter(Test.user_id == ...,
    Algorithm.quantum_safe == flag).count()] *)
Definition count_joined (d : db) (user_id : Z) (flag : bool) : Z :=
  Z.of_nat (List.length
    (filter (fun t =>
               (Test.user_id t =? user_id)
               && match Algorithm_get d (Test.algorithm_id t) with
                  | Some a => Bool.eqb (Algorithm.quantum_safe a) flag
                  | None => false
                  end) (tests d))).

(** The tier and its note, by [quantum_safe] and the success rate. *)
Definition security_tier (quantum_safe : bool) (success_rate : pyval)
  : string * string :=
  if quantum_safe then
    if num_ge success_rate 95 then
      ("high", "Quantum-safe with excellent reliability")
    else if num_ge success_rate 80 then
      ("medium-high", "Quantum-safe with good reliability")
    else ("medium", "Quantum-safe but implementation issues detected")
  else
    if num_ge success_rate 95 then
      ("medium", "Classical algorithm - vulnerable to quantum attacks")
    else if num_ge success_rate 80 then
      ("medium-low", "Classical algorithm with reliability concerns")
    else ("low", "Classical algorithm with significant implementation issues").

(** The key size assessment appended to the notes. *)
Definition key_size_notes (algorithm : Algorithm.t) : list string :=
  if Algorithm.category algorithm == "RSA" then
    if Algorithm.key_size algorithm >=? 4096 then
      ["Strong key size for current threats"]
    else if Algorithm.key_size algorithm >=? 2048 then
      ["Adequate key size but consider upgrading"]
    else ["Weak key size - upgrade recommended"]
  else if Algorithm.category algorithm == "AES" then
    if Algorithm.key_size algorithm >=? 256 then ["Strong symmetric key size"]
    else ["Consider upgrading to AES-256"]
  else [].

(** One pass of the loop over the catalog: the entry appended to
    [algorithm_security_analysis]. *)
Definition analyse (d : db) (current_user_id : Z) (algorithm : Algorithm.t)
  : pyval :=
  let total_tests := count_tests d current_user_id (Algorithm.id algorithm) in
  let successful_tests :=
    count_successful_tests d current_user_id (Algorithm.id algorithm) in
  let success_rate := percentage successful_tests total_tests in
  let '(security_level, note) :=
    security_tier (Algorithm.quantum_safe algorithm) success_rate in
  let security_notes := List.app [note] (key_size_notes algorithm) in
  PDict
    [("algorithm", Algorithm_to_dict algorithm);
     ("test_results", PDict
        [("total_tests", PInt total_tests);
         ("successful_tests", PInt successful_tests);
         ("success_rate", round2 success_rate)]);
     ("security_assessment", PDict
        [("level", PStr security_level);
         ("notes", PList (map PStr security_notes));
         ("quantum_safe", PBool (Algorithm.quantum_safe algorithm))])].

(** [alg["security_assessment"]["level"]] *)
Definition level_of (alg : pyval) : string :=
  match alg with
  | PDict fields =>
      match dict_get "security_assessment" fields with
      | Some (PDict assessment) =>
          match dict_get "level" assessment with
          | Some (PStr level) => level
          | _ => ""
          end
      | _ => ""
      end
  | _ => ""
  end.

(** [alg["algorithm"]["name"]] *)
Definition name_of (alg : pyval) : string :=
  match alg with
  | PDict fields =>
      match dict_get "algorithm" fields with
      | Some (PDict a) =>
          match dict_get "name" a with
          | Some (PStr n) => n
          | _ => ""
          end
      | _ => ""
      end
  | _ => ""
  end.

Definition count_level (analysis : list pyval) (level : string) : Z :=
  Z.of_nat (List.length (filter (fun alg => level_of alg == level) analysis)).

(** The quantum readiness: the share of the caller's tests that ran a
    quantum-safe algorithm, as a percentage. *)
Definition pq_adoption_rate (d : db) (current_user_id : Z) : pyval :=
  let user_pq_tests := count_joined d current_user_id true in
  let user_classical_tests := count_joined d current_user_id false in
  percentage user_pq_tests (user_pq_tests + user_classical_tests).

Definition adoption_recommendation (rate : pyval) : string :=
  if num_lt rate 25 then
    "Low post-quantum cryptography adoption detected. "
    ++ "Start evaluating and migrating to quantum-safe algorithms."
  else if num_lt rate 50 then
    "Moderate post-quantum cryptography adoption. "
    ++ "Accelerate migration to quantum-safe algorithms."
  else
    "Good post-quantum cryptography adoption. "
    ++ "Continue expanding quantum-safe algorithm usage.".

Definition Report_to_dict (r : Report.t) : pyval :=
  PDict [("id", PInt (Report.id r));
         ("user_id", PInt (Report.user_id r));
         ("title", PStr (Report.title r));
         ("report_type", PStr (Report.report_type r));
         ("content", Report.content r);
         ("algorithms_tested", PList (map PInt (Report.algorithms_tested r)));
         ("summary", PStr (Report.summary r));
         ("recommendations", PStr (Report.recommendations r))].

(** [db.session.add(report); db.session.commit()] *)
Definition add_report (user_id : Z) (title report_type : string) (content : pyval)
    (algorithms_tested : list Z) (summary recommendations : string)
  : M db Report.t :=
  fun d =>
    let row := Report.mk (next_id (map Report.id (reports d))) user_id title
                 report_type content algorithms_tested summary recommendations in
    (Ok row, mkdb (algorithms d) (tests d) (List.app (reports d) [row])).

(** The route on an object body whose title is a text or is absent;
    [today] is [datetime.utcnow().strftime("%Y-%m-%d")].
    [Endpoint.generate_security_report] below is the route on any body,
    where the handler is reached. *)
Definition generate_security_report (current_user_id : Z) (title : option string)
    (today : string) : M db response :=
  try_except
    (d <- get ;;
     let title := or_default title ("Security Analysis Report - " ++ today) in
     let algorithms := algorithms d in
     let classical_algorithms :=
       filter (fun alg => Algorithm.type alg == "classical") algorithms in
     let post_quantum_algorithms :=
       filter (fun alg => Algorithm.type alg == "post-quantum") algorithms in
     let algorithm_security_analysis := map (analyse d current_user_id) algorithms in
     let pq_adoption_rate := pq_adoption_rate d current_user_id in
     let recommendations := [adoption_recommendation pq_adoption_rate] in
     let weak_algorithms :=
       filter (fun alg => (level_of alg == "low") || (level_of alg == "medium-low"))
              algorithm_security_analysis in
     let recommendations :=
       match weak_algorithms with
       | [] => recommendations
       | _ :: _ =>
           List.app recommendations
             ["Review " ++ str_of_nat (List.length weak_algorithms)
              ++ " algorithms with security concerns: "
              ++ join ", " (map name_of weak_algorithms)]
       end in
     let report_content :=
       PDict
         [("security_overview", PDict
             [("total_algorithms_analyzed", PInt (Z.of_nat (List.length algorithms)));
              ("classical_algorithms",
               PInt (Z.of_nat (List.length classical_algorithms)));
              ("post_quantum_algorithms",
               PInt (Z.of_nat (List.length post_quantum_algorithms)));
              ("quantum_readiness_score", round2 pq_adoption_rate)]);
          ("algorithm_analysis", PList algorithm_security_analysis);
          ("security_distribution", PDict
             [("high", PInt (count_level algorithm_security_analysis "high"));
              ("medium-high",
               PInt (count_level algorithm_security_analysis "medium-high"));
              ("medium", PInt (count_level algorithm_security_analysis "medium"));
              ("medium-low",
               PInt (count_level algorithm_security_analysis "medium-low"));
              ("low", PInt (count_level algorithm_security_analysis "low"));
              ("unknown", PInt (count_level algorithm_security_analysis "unknown"))])]
     in
     let summary :=
       "Security analysis of " ++ str_of_nat (List.length algorithms)
       ++ " cryptographic algorithms. "
       ++ "Quantum readiness score: " ++ py_str (round2 pq_adoption_rate) ++ "%. "
       ++ "Post-quantum algorithms available: "
       ++ str_of_nat (List.length post_quantum_algorithms) ++ ". "
       ++ "High security algorithms: "
       ++ str_of_Z (count_level algorithm_security_analysis "high") ++ "." in
     report <- add_report current_user_id title "security" report_content
                 (map Algorithm.id algorithms) summary
                 (join ". " recommendations) ;;
     ret (mkresp 201
            [("message", PStr "Security report generated successfully");
             ("report", Report_to_dict report)]))
    (fun e =>
       ret (mkresp 500 [("error", PStr "Failed to generate security report");
                        ("details", PStr e)])).
End Reports.

(* ===================================================================== *)
(** * routes/algorithms.py: the catalog queries *)
(* ===================================================================== *)

Definition get_algorithms (d : db) : response :=
  mkresp 200 [("algorithms", PList (map Algorithm_to_dict (algorithms d)))].

Definition get_algorithm (algorithm_id : Z) (d : db) : response :=
  match Algorithm_get d algorithm_id with
  | None => mkresp 404 [("error", PStr "Algorithm not found")]
  | Some algorithm => mkresp 200 [("algorithm", Algorithm_to_dict algorithm)]
  end.

(** [Algorithm.query.filter_by(type=...).count()] *)
Definition count_type (d : db) (type : string) : Z :=
  Z.of_nat (List.length (filter (fun a => Algorithm.type a == type) (algorithms d))).

(** One more row for the group of [k]. *)
Fixpoint bump (k : string) (groups : list (string * Z)) : list (string * Z) :=
  match groups with
  | [] => [(k, 1)]
  | (k', n) :: rest =>
      if k == k' then (k', n + 1) :: rest else (k', n) :: bump k rest
  end.

(** [query(Algorithm.category, count(Algorithm.id))
       .group_by(Algorithm.category).all()]: one pair per category.  SQL
    leaves the order of the groups open; they are listed here in the order
    in which the categories first occur in the table. *)
Definition category_counts (d : db) : list (string * Z) :=
  fold_left (fun groups a => bump (Algorithm.category a) groups) (algorithms d) [].

Definition get_algorithm_categories (d : db) : response :=
  let classical_count := count_type d "classical" in
  let post_quantum_count := count_type d "post-quantum" in
  let categories := category_counts d in
  mkresp 200
    [("summary", PDict
        [("classical", PInt classical_count);
         ("post_quantum", PInt post_quantum_count);
         ("total", PInt (classical_count + post_quantum_count))]);
     ("categories", PList
        (map (fun cat => PDict [("name", PStr (fst cat)); ("count", PInt (snd cat))])
             categories))].

(* ===================================================================== *)
(** * routes/tests.py and routes/reports.py: one row by its id *)
(* ===================================================================== *)

(** [data[k] = v] on a dict: the binding of [k] is replaced where it
    stands, a new key goes to the end. *)
Fixpoint dict_setitem (k : string) (v : pyval) (d : list (string * pyval))
  : list (string * pyval) :=
  match d with
  | [] => [(k, v)]
  | (k', v') :: d' =>
      if k == k' then (k, v) :: d' else (k', v') :: dict_setitem k v d'
  end.

Definition setitem (data : pyval) (k : string) (v : pyval) : pyval :=
  match data with
  | PDict d => PDict (dict_setitem k v d)
  | _ => data
  end.

Module tests_bp.

(** [Test.query.filter_by(id=test_id, user_id=current_user_id).first()] *)
Definition first_owned (d : db) (test_id current_user_id : Z) : option Test.t :=
  find (fun t => (Test.id t =? test_id) && (Test.user_id t =? current_user_id))
       (tests d).

Definition get_test (current_user_id test_id : Z) (d : db) : response :=
  match first_owned d test_id current_user_id with
  | None => mkresp 404 [("error", PStr "Test not found")]
  | Some test =>
      let algorithm := Algorithm_get d (Test.algorithm_id test) in
      let test_data := Test_to_dict test in
      let test_data :=
        setitem test_data "algorithm"
          (match algorithm with
           | Some a => Algorithm_to_dict a
           | None => PNone
           end) in
      mkresp 200 [("test", test_data)]
  end.

(** The route [DELETE /<test_id>]; the row goes with [db.session.delete]. *)
Definition delete_test (current_user_id test_id : Z) (d : db) : response * db :=
  match first_owned d test_id current_user_id with
  | None => (mkresp 404 [("error", PStr "Test not found")], d)
  | Some test =>
      (mkresp 200 [("message", PStr "Test deleted successfully")],
       delete_test d test)
  end.

End tests_bp.

Module reports_bp.

(** [Report.query.filter_by(id=report_id, user_id=current_user_id).first()] *)
Definition first_owned (d : db) (report_id current_user_id : Z) : option Report.t :=
  find (fun r => (Report.id r =? report_id) && (Report.user_id r =? current_user_id))
       (reports d).

Definition get_report (current_user_id report_id : Z) (d : db) : response :=
  match first_owned d report_id current_user_id with
  | None => mkresp 404 [("error", PStr "Report not found")]
  | Some report => mkresp 200 [("report", Report_to_dict report)]
  end.

(** [db.session.delete(report)] *)
Definition session_delete (d : db) (r : Report.t) : db :=
  mkdb (algorithms d) (tests d)
       (filter (fun r' => negb (Report.id r' =? Report.id r)) (reports d)).

Definition delete_report (current_user_id report_id : Z) (d : db) : response * db :=
  match first_owned d report_id current_user_id with
  | None => (mkresp 404 [("error", PStr "Report not found")], d)
  | Some report =>
      (mkresp 200 [("message", PStr "Report deleted successfully")],
       session_delete d report)
  end.

End reports_bp.

(* ===================================================================== *)
(** * The POST routes on the body of the request *)
(* ===================================================================== *)

(** A JSON value that is not an object. *)
Inductive json_other : Type :=
| JNull
| JBool (b : bool)
| JInt (z : Z)
| JFloat (q : Q)
| JStr (s : string)
| JList (items : list pyval).

(** [type(v).__name__] *)
Definition type_name (v : json_other) : string :=
  match v with
  | JNull => "NoneType"
  | JBool _ => "bool"
  | JInt _ => "int"
  | JFloat _ => "float"
  | JStr _ => "str"
  | JList _ => "list"
  end.

(** [bool(v)] *)
Definition json_truthy (v : json_other) : bool :=
  match v with
  | JNull => false
  | JBool b => b
  | JInt z => negb (z =? 0)
  | JFloat q => negb (Qeq_bool q 0)
  | JStr s => negb (s == "")
  | JList items => match items with [] => false | _ :: _ => true end
  end.

(** The text of the [AttributeError] for [v.name]. *)
Definition no_attribute (v : json_other) (name : string) : string :=
  "'" ++ type_name v ++ "' object has no attribute '" ++ name ++ "'".

(** What [request.get_json()] does in a route: it raises [e] (the request
    does not announce JSON, or its body does not parse), it returns a value
    that is not an object, or it returns an object, given by the fields that
    the route reads from it. *)
Inductive json_body (A : Type) : Type :=
| BodyError (e : string)
| BodyOther (v : json_other)
| BodyObject (fields : A).

Arguments BodyError {A} e.
Arguments BodyOther {A} v.
Arguments BodyObject {A} fields.

(** A field of the body that the route stores in a text column: the key is
    absent, or its value is [null] or a text.  A value of another JSON type
    is handed to the database driver as it is; what the driver does with it
    is not part of the sources, and such bodies are left out. *)
Inductive json_text : Type :=
| Absent
| Null
| Text (s : string).

Module Endpoint.

(** [data = request.get_json() or {}], then the two [data.get] of
    [test_algorithm]: a falsy body is read as the empty object, and [get] on
    another value that is not an object raises. *)
Definition read_test_request (body : json_body test_request) : exc test_request :=
  match body with
  | BodyError e => Raise e
  | BodyOther v =>
      if json_truthy v then Raise (no_attribute v "get")
      else Ok (mk_test_request None None)
  | BodyObject data => Ok data
  end.

(** [data = request.get_json()], then [data.get("title", ...)] of
    [generate_security_report]. *)
Definition read_title (body : json_body json_text) : exc json_text :=
  match body with
  | BodyError e => Raise e
  | BodyOther v => Raise (no_attribute v "get")
  | BodyObject title => Ok title
  end.

Section WithLibs.
Context `{Base64} `{Json} `{Hashes} `{Padding} `{AesCbc} `{Rsa} `{Ec}
        `{Builtins}.

(** [test_algorithm] as Flask calls it.  The body is read after the lookup
    of the algorithm, inside the outer [try]. *)
Definition test_algorithm (current_user_id algorithm_id : Z)
    (body : json_body test_request) : M app response :=
  try_except
    (s <- get ;;
     match Algorithm_get (database s) algorithm_id with
     | None => ret (mkresp 404 [("error", PStr "Algorithm not found")])
     | Some algorithm =>
         data <- lift (read_test_request body) ;;
         let test_type := or_default (req_test_type data) "encryption" in
         let input_data := or_default (req_input_data data) "Hello, Quantum World!" in
         let test_type :=
           if is_signature_category (Algorithm.category algorithm)
              && (test_type == "encryption")
           then "signing" else test_type in
         match ALGORITHM_IMPLEMENTATIONS (Algorithm.category algorithm) with
         | None =>
             ret (mkresp 400
                    [("error", PStr ("Implementation not available for "
                                     ++ Algorithm.category algorithm))])
         | Some implementation_class =>
             let crypto_impl := implementation_class (Algorithm.key_size algorithm) in
             let test_metadata :=
               [("key_size", PInt (Algorithm.key_size algorithm));
                ("algorithm_type", PStr (Algorithm.type algorithm))] in
             start_time <- clock_io time_time ;;
             try_except
               (output <- perform crypto_impl test_type input_data ;;
                match output with
                | None =>
                    ret (mkresp 400
                           [("error", PStr ("Unsupported test type: " ++ test_type))])
                | Some output_data =>
                    now <- clock_io time_time ;;
                    let execution_time := ((now - start_time) * 1000)%Q in
                    test_record <-
                      add_test current_user_id algorithm_id test_type input_data
                        (Some (py_str output_data)) execution_time true None
                        test_metadata ;;
                    ret (mkresp 200
                           [("message", PStr "Test completed successfully");
                            ("test", Test_to_dict test_record);
                            ("result", output_data)])
                end)
               (fun crypto_error =>
                  now <- clock_io time_time ;;
                  let execution_time := ((now - start_time) * 1000)%Q in
                  test_record <-
                    add_test current_user_id algorithm_id test_type input_data
                      None execution_time false (Some crypto_error)
                      test_metadata ;;
                  ret (mkresp 400
                         [("message", PStr "Test failed");
                          ("test", Test_to_dict test_record);
                          ("error", PStr crypto_error)]))
         end
     end)
    (fun e =>
       ret (mkresp 500 [("error", PStr "Failed to test algorithm");
                        ("details", PStr e)])).

(** [generate_security_report] as Flask calls it.  The column
    [reports.title] is declared [nullable=False]: a row built with the title
    [None] makes the commit raise, with the text [integrity_error] of the
    driver.  Once the title is read, the route no longer looks at the
    request: what follows is [generate_security_report] above. *)
Definition generate_security_report (current_user_id : Z)
    (body : json_body json_text) (today integrity_error : string)
  : M db response :=
  try_except
    (title <- lift (read_title body) ;;
     match title with
     | Absent => generate_security_report current_user_id None today
     | Text title => generate_security_report current_user_id (Some title) today
     | Null => raise integrity_error
     end)
    (fun e =>
       ret (mkresp 500 [("error", PStr "Failed to generate security report");
                        ("details", PStr e)])).

End WithLibs.
End Endpoint.

(* ===================================================================== *)
(** * Reference implementations of the libraries *)
(* ===================================================================== *)

(** The standard algorithms for base64, PKCS#7 and SHA-256, a codec for the
    JSON objects that the envelopes are, and stand-ins with the argument
    checks of the real ones for the ciphers. *)
Module Reference.

Definition byte_of_N (n : N) : byte :=
  match Byte.of_N (n mod 256) with
  | Some b => b
  | None => x00
  end.

(** ** base64 (RFC 4648, with padding) *)

Definition alphabet : list ascii :=
  list_ascii_of_string
    "ABCDEFGHIJKLMNOPQRSTUVWXYZabcdefghijklmnopqrstuvwxyz0123456789+/".

Definition char_of_sextet (n : N) : ascii :=
  nth (N.to_nat n) alphabet "="%char.

Fixpoint index_of (c : ascii) (l : list ascii) (i : N) : option N :=
  match l with
  | [] => None
  | c' :: l' => if Ascii.eqb c c' then Some i else index_of c l' (i + 1)
  end.

Definition sextet_of_char (c : ascii) : option N := index_of c alphabet 0.

Fixpoint b64encode (data : bytes) : string :=
  match data with
  | [] => ""
  | [a] =>
      let a := Byte.to_N a in
      String (char_of_sextet (a / 4))
        (String (char_of_sextet (a mod 4 * 16)) "==")
  | [a; b] =>
      let a := Byte.to_N a in
      let b := Byte.to_N b in
      String (char_of_sextet (a / 4))
        (String (char_of_sextet (a mod 4 * 16 + b / 16))
           (String (char_of_sextet (b mod 16 * 4)) "="))
  | a :: b :: c :: rest =>
      let a := Byte.to_N a in
      let b := Byte.to_N b in
      let c := Byte.to_N c in
      String (char_of_sextet (a / 4))
        (String (char_of_sextet (a mod 4 * 16 + b / 16))
           (String (char_of_sextet (b mod 16 * 4 + c / 64))
              (String (char_of_sextet (c mod 64)) (b64encode rest))))
  end%N.

Definition is_pad (c : ascii) : bool := Ascii.eqb c "="%char.

(** The decoder of the canonical texts; any other text is rejected. *)
Fixpoint decode (s : string) : option bytes :=
  match s with
  | "" => Some []
  | String c1 (String c2 (String c3 (String c4 rest))) =>
      match sextet_of_char c1, sextet_of_char c2 with
      | Some s1, Some s2 =>
          let b1 := byte_of_N (s1 * 4 + s2 / 16) in
          if is_pad c3 then
            if is_pad c4 && (rest == "") && (s2 mod 16 =? 0)%N then Some [b1]
            else None
          else
            match sextet_of_char c3 with
            | Some s3 =>
                let b2 := byte_of_N (s2 mod 16 * 16 + s3 / 4) in
                if is_pad c4 then
                  if (rest == "") && (s3 mod 4 =? 0)%N then Some [b1; b2]
                  else None
                else
                  match sextet_of_char c4, decode rest with
                  | Some s4, Some tail =>
                      Some (b1 :: b2 :: byte_of_N (s3 mod 4 * 64 + s4) :: tail)
                  | _, _ => None
                  end
            | None => None
            end
      | _, _ => None
      end
  | _ => None
  end%N.

Definition b64decode (s : string) : exc bytes :=
  match decode s with
  | Some b => Ok b
  | None => Raise "Incorrect padding"
  end.

(** ** PKCS#7 padding, as [Crypto.Util.Padding] with its default style *)

Definition pad (data_to_pad : bytes) (block_size : Z) : bytes :=
  let padding_len := block_size - Z.of_nat (List.length data_to_pad) mod block_size in
  List.app data_to_pad
    (repeat (byte_of_N (Z.to_N padding_len)) (Z.to_nat padding_len)).

Definition unpad (padded_data : bytes) (block_size : Z) : exc bytes :=
  let pdata_len := Z.of_nat (List.length padded_data) in
  if pdata_len =? 0 then Raise "Zero-length input cannot be unpadded"
  else if negb (pdata_len mod block_size =? 0) then Raise "Input data is not padded"
  else
    let padding_len := Z.of_N (Byte.to_N (last padded_data x00)) in
    if (padding_len <? 1) || (padding_len >? Z.min block_size pdata_len) then
      Raise "Padding is incorrect."
    else
      let n := Z.to_nat padding_len in
      let k := (List.length padded_data - n)%nat in
      if forallb (Byte.eqb (last padded_data x00)) (skipn k padded_data) then
        Ok (firstn k padded_data)
      else Raise "PKCS#7 padding is incorrect.".

(** ** SHA-256 (FIPS 180-4) on 32-bit words held in [N] *)

Definition w32 (x : N) : N := (x mod 4294967296)%N.
Definition add32 (x y : N) : N := w32 (x + y).
Definition rotr (n x : N) : N :=
  N.lor (N.shiftr x n) (w32 (N.shiftl x (32 - n))).
Definition not32 (x : N) : N := N.lxor x 4294967295.

Definition Ch (x y z : N) : N := N.lxor (N.land x y) (N.land (not32 x) z).
Definition Maj (x y z : N) : N :=
  N.lxor (N.land x y) (N.lxor (N.land x z) (N.land y z)).
Definition Sigma0 (x : N) : N := N.lxor (rotr 2 x) (N.lxor (rotr 13 x) (rotr 22 x)).
Definition Sigma1 (x : N) : N := N.lxor (rotr 6 x) (N.lxor (rotr 11 x) (rotr 25 x)).
Definition sigma0 (x : N) : N := N.lxor (rotr 7 x) (N.lxor (rotr 18 x) (N.shiftr x 3)).
Definition sigma1 (x : N) : N := N.lxor (rotr 17 x) (N.lxor (rotr 19 x) (N.shiftr x 10)).

(** The round constants are the first thirty-two bits of the fractional
    parts of the cube roots of the first sixty-four primes, and the initial
    hash value those of the square roots of the first eight; both tables
    are computed from that description. *)
Definition is_prime (n : N) : bool :=
  (1 <? n)%N
  && forallb (fun d => negb (n mod N.of_nat d =? 0)%N) (seq 2 (N.to_nat n - 2)).

Definition primes : list N :=
  filter is_prime (List.map N.of_nat (seq 2 310)).

(** The largest [r] below [2 ^ bits] whose cube is at most [n]. *)
Fixpoint cube_root (bits : nat) (n r : N) : N :=
  match bits with
  | O => r
  | S i =>
      let r' := (r + 2 ^ N.of_nat i)%N in
      cube_root i n (if (r' * r' * r' <=? n)%N then r' else r)
  end.

Definition frac_cube_root (p : N) : N := w32 (cube_root 36 (p * 2 ^ 96) 0).
Definition frac_square_root (p : N) : N := w32 (N.sqrt (p * 2 ^ 64)).

Definition K : list N := Eval vm_compute in List.map frac_cube_root primes.

(** The eight working variables. *)
Record state : Type := mkstate {
  ha : N; hb : N; hc : N; hd : N; he : N; hf : N; hg : N; hh : N
}.

Definition H0 : state :=
  Eval vm_compute in
  match List.map frac_square_root (firstn 8 primes) with
  | [a; b; c; d; e; f; g; h] => mkstate a b c d e f g h
  | _ => mkstate 0 0 0 0 0 0 0 0
  end.

(** Big-endian bytes of a word, and words of a byte string. *)
Definition be32 (x : N) : bytes :=
  [byte_of_N (x / 16777216); byte_of_N (x / 65536);
   byte_of_N (x / 256); byte_of_N x]%N.

Fixpoint words (b : bytes) : list N :=
  match b with
  | b0 :: b1 :: b2 :: b3 :: rest =>
      (Byte.to_N b0 * 16777216 + Byte.to_N b1 * 65536
       + Byte.to_N b2 * 256 + Byte.to_N b3)%N :: words rest
  | _ => []
  end.

(** The message followed by 0x80, zeros up to 56 modulo 64, and the bit
    length on eight bytes. *)
Definition padding (message : bytes) : bytes :=
  let l := List.length message in
  let zeros := ((64 - (l + 9) mod 64) mod 64)%nat in
  let bits := (N.of_nat l * 8)%N in
  List.app message
    (x80 :: List.app (repeat x00 zeros)
              (List.app (be32 (bits / 4294967296)) (be32 bits))).

(** The message schedule: [w] holds the words so far, latest first. *)
Fixpoint schedule (n : nat) (w : list N) : list N :=
  match n with
  | O => w
  | S n' =>
      let x := add32 (add32 (sigma1 (nth 1 w 0%N)) (nth 6 w 0%N))
                     (add32 (sigma0 (nth 14 w 0%N)) (nth 15 w 0%N)) in
      schedule n' (x :: w)
  end.

Definition round (s : state) (kw : N * N) : state :=
  let t1 := add32 (add32 (add32 (hh s) (Sigma1 (he s)))
                         (add32 (Ch (he s) (hf s) (hg s)) (fst kw))) (snd kw) in
  let t2 := add32 (Sigma0 (ha s)) (Maj (ha s) (hb s) (hc s)) in
  mkstate (add32 t1 t2) (ha s) (hb s) (hc s) (add32 (hd s) t1) (he s) (hf s) (hg s).

Definition compress (s : state) (block : list N) : state :=
  let w := rev (schedule 48 (rev block)) in
  let s' := fold_left round (combine K w) s in
  mkstate (add32 (ha s) (ha s')) (add32 (hb s) (hb s')) (add32 (hc s) (hc s'))
          (add32 (hd s) (hd s')) (add32 (he s) (he s')) (add32 (hf s) (hf s'))
          (add32 (hg s) (hg s')) (add32 (hh s) (hh s')).

(** The blocks of sixteen words; [n] bounds their number. *)
Fixpoint blocks (n : nat) (w : list N) : list (list N) :=
  match n, w with
  | S n', _ :: _ => firstn 16 w :: blocks n' (skipn 16 w)
  | _, _ => []
  end.

Definition sha256 (message : bytes) : bytes :=
  let w := words (padding message) in
  let s := fold_left compress (blocks (List.length w) w) H0 in
  List.app (be32 (ha s)) (List.app (be32 (hb s)) (List.app (be32 (hc s))
    (List.app (be32 (hd s)) (List.app (be32 (he s)) (List.app (be32 (hf s))
      (List.app (be32 (hg s)) (be32 (hh s)))))))).


(** ** A JSON codec for objects whose values are strings *)

Definition quote : ascii := "034"%char.
Definition backslash : ascii := "092"%char.

Fixpoint escape (s : string) : string :=
  match s with
  | "" => ""
  | String c rest =>
      if Ascii.eqb c quote || Ascii.eqb c backslash
      then String backslash (String c (escape rest))
      else String c (escape rest)
  end.

Definition print_string (s : string) : string :=
  String quote (escape s ++ String quote "").

Definition float_repr (q : Q) : string :=
  str_of_Z (Qnum q) ++ "/" ++ str_of_Z (Zpos (Qden q)).

(** [json.dumps] with the default separators. *)
Fixpoint dumps (v : pyval) : string :=
  match v with
  | PNone => "null"
  | PBool true => "true"
  | PBool false => "false"
  | PInt z => str_of_Z z
  | PFloat q => float_repr q
  | PStr s => print_string s
  | PList items => "[" ++ join ", " (map dumps items) ++ "]"
  | PDict fields =>
      "{" ++ join ", "
               (map (fun kv => let '(k, x) := kv in
                               print_string k ++ ": " ++ dumps x) fields)
          ++ "}"
  end.

(** One member of an object whose value is a string, as [dumps] writes
    it. *)
Definition member (kv : string * string) : string :=
  print_string (fst kv) ++ ": " ++ print_string (snd kv).

(** The text after an opening quote: the string up to the closing quote,
    and what follows it. *)
Fixpoint parse_string (s : string) : option (string * string) :=
  match s with
  | "" => None
  | String c rest =>
      if Ascii.eqb c quote then Some ("", rest)
      else if Ascii.eqb c backslash then
        match rest with
        | String c' rest' =>
            if Ascii.eqb c' quote || Ascii.eqb c' backslash then
              match parse_string rest' with
              | Some (x, r) => Some (String c' x, r)
              | None => None
              end
            else None
        | "" => None
        end
      else
        match parse_string rest with
        | Some (x, r) => Some (String c x, r)
        | None => None
        end
  end.

Fixpoint strip_prefix (p s : string) : option string :=
  match p with
  | "" => Some s
  | String c p' =>
      match s with
      | String c' s' => if Ascii.eqb c c' then strip_prefix p' s' else None
      | "" => None
      end
  end.

(** [d[k] = v] on a dict under construction. *)
Fixpoint dict_set (k : string) (v : pyval) (d : list (string * pyval))
  : list (string * pyval) :=
  match d with
  | [] => [(k, v)]
  | (k', v') :: d' =>
      if k == k' then (k, v) :: d' else (k', v') :: dict_set k v d'
  end.

(** The members of an object, from the first key to the closing brace;
    [acc] is the dict built so far. *)
Fixpoint parse_members (fuel : nat) (s : string) (acc : list (string * pyval))
  : option (list (string * pyval)) :=
  match fuel with
  | O => None
  | S fuel' =>
      match strip_prefix (String quote "") s with
      | None => None
      | Some s1 =>
          match parse_string s1 with
          | None => None
          | Some (k, s2) =>
              match strip_prefix (": " ++ String quote "") s2 with
              | None => None
              | Some s3 =>
                  match parse_string s3 with
                  | None => None
                  | Some (v, s4) =>
                      let acc' := dict_set k (PStr v) acc in
                      if s4 == "}" then Some acc'
                      else
                        match strip_prefix ", " s4 with
                        | Some s5 => parse_members fuel' s5 acc'
                        | None => None
                        end
                  end
              end
          end
      end
  end.

Definition loads (s : string) : exc pyval :=
  if s == "{}" then Ok (PDict [])
  else
    match strip_prefix "{" s with
    | Some rest =>
        match parse_members (String.length rest) rest [] with
        | Some d => Ok (PDict d)
        | None => Raise "Expecting property name enclosed in double quotes"
        end
    | None => Raise "Expecting value"
    end.

(** ** Stand-ins for the ciphers *)

Definition badd (d k : byte) : byte := byte_of_N (Byte.to_N d + Byte.to_N k).
Definition bsub (c k : byte) : byte := byte_of_N (Byte.to_N c + 256 - Byte.to_N k).

(** The key repeated up to [n] bytes. *)
Definition keystream (key : bytes) (n : nat) : bytes :=
  map (fun i => nth (i mod List.length key) key x00) (seq 0 n).

Definition add_stream (ks data : bytes) : bytes :=
  map (fun dk => badd (fst dk) (snd dk)) (combine data ks).

Definition sub_stream (ks data : bytes) : bytes :=
  map (fun dk => bsub (fst dk) (snd dk)) (combine data ks).

Definition cbc_check (key iv data : bytes) : option string :=
  let n := List.length key in
  if negb ((n =? 16) || (n =? 24) || (n =? 32))%nat then
    Some "Incorrect AES key length"
  else if negb (List.length iv =? 16)%nat then
    Some "Incorrect IV length (it must be 16 bytes long)"
  else if negb (List.length data mod 16 =? 0)%nat then
    Some "Data must be padded to 16 byte boundary in CBC mode"
  else None.

(** A byte-wise shift by the key, behind the argument checks of AES-CBC. *)
Definition cbc_encrypt (key iv data : bytes) : exc bytes :=
  match cbc_check key iv data with
  | Some e => Raise e
  | None => Ok (add_stream (keystream key (List.length data)) data)
  end.

Definition cbc_decrypt (key iv data : bytes) : exc bytes :=
  match cbc_check key iv data with
  | Some e => Raise e
  | None => Ok (sub_stream (keystream key (List.length data)) data)
  end.

(** A key pair is one random byte string, [key_size / 8] bytes long. *)
Definition rsa_generate (public_exponent key_size : Z) : M world bytes :=
  if key_size <? 1024 then raise "key_size must be at least 1024-bits."
  else get_random_bytes (key_size / 8).

Definition oaep_max (pk : bytes) : nat := (List.length pk - 66)%nat.

Definition oaep_encrypt (pk plaintext : bytes) : M world bytes :=
  if (oaep_max pk <? List.length plaintext)%nat then raise "Encryption failed"
  else ret (add_stream (keystream pk (List.length plaintext)) plaintext).

Definition oaep_decrypt (sk ciphertext : bytes) : exc bytes :=
  if (oaep_max sk <? List.length ciphertext)%nat then Raise "Decryption failed"
  else Ok (sub_stream (keystream sk (List.length ciphertext)) ciphertext).

Definition curve_tag (c : curve) : byte :=
  match c with
  | SECP256R1 => x01
  | SECP384R1 => x02
  | SECP521R1 => x03
  end.

Definition curve_eqb (c c' : curve) : bool :=
  Byte.eqb (curve_tag c) (curve_tag c').

Fixpoint bytes_eqb (a b : bytes) : bool :=
  match a, b with
  | [], [] => true
  | x :: a', y :: b' => Byte.eqb x y && bytes_eqb a' b'
  | _, _ => false
  end.

(** An elliptic-curve key is a curve and 32 random bytes; the public key
    is the same pair. *)
Definition ec_generate (c : curve) : M world (curve * bytes) :=
  k <- get_random_bytes 32 ;; ret (c, k).

Definition ec_bytes (k : curve * bytes) : bytes := curve_tag (fst k) :: snd k.

Definition load_pem (pem : bytes) : exc (curve * bytes) :=
  match pem with
  | t :: k =>
      if Byte.eqb t x01 then Ok (SECP256R1, k)
      else if Byte.eqb t x02 then Ok (SECP384R1, k)
      else if Byte.eqb t x03 then Ok (SECP521R1, k)
      else Raise "Unable to load PEM file."
  | [] => Raise "Unable to load PEM file."
  end.

Definition exchange (sk pk : curve * bytes) : exc bytes :=
  if curve_eqb (fst sk) (fst pk) then Ok (add_stream (snd pk) (snd sk))
  else Raise "peer_public_key and self are not on the same curve".

Definition ecdsa_sign (sk : curve * bytes) (message : bytes) : M world bytes :=
  ret (List.app (snd sk) message).

Definition ecdsa_verify (pk : curve * bytes) (signature message : bytes) : exc unit :=
  if bytes_eqb signature (List.app (snd pk) message) then Ok tt
  else Raise "InvalidSignature".

End Reference.

(** The reference libraries, packaged for the interfaces. *)
Definition ref_base64 : Base64 :=
  {| b64encode := Reference.b64encode; b64decode := Reference.b64decode |}.

Definition ref_json : Json :=
  {| json_dumps := Reference.dumps; json_loads := Reference.loads |}.

Definition ref_hashes : Hashes := {| sha256 := Reference.sha256 |}.

Definition ref_padding : Padding :=
  {| pad := Reference.pad; unpad := Reference.unpad |}.

Definition ref_aes : AesCbc :=
  {| aes_cbc_encrypt := Reference.cbc_encrypt;
     aes_cbc_decrypt := Reference.cbc_decrypt |}.

Definition ref_rsa : Rsa :=
  {| rsa_private_key := bytes;
     rsa_public_key := bytes;
     rsa_generate_private_key := Reference.rsa_generate;
     rsa_public := fun sk => sk;
     rsa_private_bytes := fun sk => sk;
     rsa_public_bytes := fun pk => pk;
     rsa_oaep_encrypt := Reference.oaep_encrypt;
     rsa_oaep_decrypt := Reference.oaep_decrypt;
     rsa_oaep_max := Reference.oaep_max |}.

Definition ref_ec : Ec :=
  {| ec_private_key := curve * bytes;
     ec_public_key := curve * bytes;
     ec_generate_private_key := Reference.ec_generate;
     ec_public := fun sk => sk;
     ec_key_curve := fst;
     ec_private_bytes := Reference.ec_bytes;
     ec_public_bytes := Reference.ec_bytes;
     load_pem_public_key := Reference.load_pem;
     ec_exchange := Reference.exchange;
     ecdsa_sign := Reference.ecdsa_sign;
     ecdsa_verify := Reference.ecdsa_verify |}.

Definition ref_builtins : Builtins := {| float_repr := Reference.float_repr |}.

(** A world for examples: a fixed byte stream and a clock that advances by
    one millisecond per reading. *)
Definition world0 : world :=
  mkworld (fun i => Reference.byte_of_N (N.of_nat i * 37 + 11)%N) 0
          (fun n => (Z.of_nat n # 1000)%Q) 0.

(* ===================================================================== *)
(** * Vocabulary of the statements *)
(* ===================================================================== *)

Definition count_category (c : string) (l : list Algorithm.t) : nat :=
  List.length (filter (fun a => Algorithm.category a == c) l).

(** The test id [i] resolves to a test owned by [user]. *)
Definition resolves (d : db) (user i : Z) : Prop :=
  exists t, In t (tests d) /\ Test.id t = i /\ Test.user_id t = user.

(** Bulk deletion of [test_ids] for [user] is all-or-nothing: an error and
    an untouched store when an id does not resolve or occurs twice, and
    otherwise exactly the requested tests gone and their number reported. *)
Definition all_or_nothing (user : Z) (test_ids : list Z) (d : db) : Prop :=
  let r := fst (bulk_delete_tests user test_ids d) in
  let d' := snd (bulk_delete_tests user test_ids d) in
  let resolvable :=
    NoDup test_ids /\ forall i, In i test_ids -> resolves d user i in
  (resolvable ->
     status r = 200
     /\ dict_get "deleted_count" (body r)
        = Some (PInt (Z.of_nat (List.length test_ids)))
     /\ tests d' = filter (fun t => negb (Z_in (Test.id t) test_ids)) (tests d)
     /\ algorithms d' = algorithms d
     /\ reports d' = reports d)
  /\ (~ resolvable -> 400 <= status r /\ d' = d).

(** [v[k1][k2]...] on nested dicts. *)
Fixpoint path (keys : list string) (v : pyval) : option pyval :=
  match keys with
  | [] => Some v
  | k :: ks =>
      match v with
      | PDict fields =>
          match dict_get k fields with
          | Some x => path ks x
          | None => None
          end
      | _ => None
      end
  end.

(** The tier of the rule table for a success rate below 80%. *)
Definition below_80_tier (quantum_safe : bool) : string :=
  if quantum_safe then "medium" else "low".

(** A store for examples: the seeded catalog and three tests, two of user 1
    and one of user 2. *)
Definition sample_test (id user_id algorithm_id : Z) (success : bool) : Test.t :=
  Test.mk id user_id algorithm_id "encryption" "Hello, Quantum World!"
          (if success then Some "..." else None) (3 # 2) success
          (if success then None else Some "failed") [].

Definition sample_db : db :=
  mkdb (algorithms (snd (seed_algorithms empty_db)))
       [sample_test 1 1 6 true; sample_test 2 1 10 false; sample_test 3 2 7 true]
       [].

Section HarnessVocabulary.
Context `{Base64} `{Json} `{Hashes} `{Padding} `{AesCbc} `{Rsa} `{Ec}
        `{Builtins}.

(** The operation kinds that the [if/elif] chain of the harness runs on an
    instance. *)
Definition supported (c : crypto_impl) (test_type : string) : bool :=
  (test_type == "encryption") || (test_type == "decryption")
  || (test_type == "key_generation")
  || ((test_type == "signing") && has_sign c)
  || ((test_type == "verification") && has_verify c).

(** The kind that is dispatched for a request on [algorithm]. *)
Definition executed_kind (algorithm : Algorithm.t) (data : test_request) : string :=
  let test_type := or_default (req_test_type data) "encryption" in
  if is_signature_category (Algorithm.category algorithm)
     && (test_type == "encryption")
  then "signing" else test_type.

(** A run of the harness ends with one more test record, which describes
    the run: the response is 200 with a successful record, or 400 with a
    failed record that carries the error text of the response. *)
Definition recorded (user algorithm_id : Z) (data : test_request) (s : app)
    (kind : string) : Prop :=
  exists r t s',
    test_algorithm user algorithm_id data s = (Ok r, s')
    /\ tests (database s') = List.app (tests (database s)) [t]
    /\ algorithms (database s') = algorithms (database s)
    /\ Test.user_id t = user
    /\ Test.algorithm_id t = algorithm_id
    /\ Test.test_type t = kind
    /\ Test.input_data t = or_default (req_input_data data) "Hello, Quantum World!"
    /\ dict_get "test" (body r) = Some (Test_to_dict t)
    /\ ((status r = 200 /\ Test.success t = true
         /\ Test.error_message t = None /\ Test.output_data t <> None)
        \/ (status r = 400 /\ Test.success t = false
            /\ Test.output_data t = None
            /\ exists e, Test.error_message t = Some e
                         /\ dict_get "error" (body r) = Some (PStr e))).





(** A computation of a request that leaves the store alone. *)
Definition keeps_db {A} (m : M app A) : Prop :=
  forall s, database (snd (m s)) = database s.

(** The rows of a comparison response. *)
Definition comparison_rows (r : response) : list pyval :=
  match dict_get "comparison" (body r) with
  | Some (PList rows) => rows
  | _ => []
  end.

(** An id for which the comparison loop reaches its [try]. *)
Definition comparable (d : db) (algo_id : Z) : bool :=
  match Algorithm_get d algo_id with
  | Some algorithm =>
      match ALGORITHM_IMPLEMENTATIONS (Algorithm.category algorithm) with
      | Some _ => true
      | None => false
      end
  | None => false
  end.

(** [row["algorithm"]["id"]] *)
Definition row_id (row : pyval) : option pyval := path ["algorithm"; "id"] row.

(** A row is either measured or failed: a failed row has
    [performance = None], [success = False] and an error text. *)
Definition row_failed (row : pyval) : Prop :=
  path ["performance"] row = Some PNone
  /\ path ["success"] row = Some (PBool false)
  /\ exists e, path ["error"] row = Some (PStr e).

Definition row_measured (row : pyval) : Prop :=
  (exists fields, path ["performance"] row = Some (PDict fields))
  /\ (exists b, path ["success"] row = Some (PBool b))
  /\ path ["error"] row = None.
End HarnessVocabulary.

(** What [sign] of the two signature stand-ins serialises, for the
    signature bytes [signature]. *)
Definition envelope `{Base64} `{Hashes} (algorithm : string) (signature : bytes)
  : pyval :=
  str_dict [("signature", b64encode signature);
            ("message_hash", b64encode (Hash.finalize Hash.new));
            ("algorithm", algorithm)].

Section ComparisonVocabulary.
Context `{Base64} `{Json} `{Hashes} `{Padding} `{AesCbc} `{Rsa} `{Ec}.

(** The row of an algorithm whose run raised [e]. *)
Definition failed_row (algorithm : Algorithm.t) (e : string) : pyval :=
  PDict [("algorithm", Algorithm_to_dict algorithm);
         ("performance", PNone);
         ("success", PBool false);
         ("error", PStr e)].

(** What [encrypt] of a signature-only class raises. *)
Definition encrypt_refusal (category : string) : string :=
  category ++ " is a signature algorithm, not for encryption. "
           ++ "Use sign() method instead.".

(** [row] is the row of the comparison for the requested id [algo_id]. *)
Definition row_of (d : db) (algo_id : Z) (row : pyval) : Prop :=
  exists algorithm,
    Algorithm_get d algo_id = Some algorithm
    /\ path ["algorithm"] row = Some (Algorithm_to_dict algorithm)
    /\ (row_failed row \/ row_measured row)
    /\ (is_signature_category (Algorithm.category algorithm) = true ->
        row = failed_row algorithm (encrypt_refusal (Algorithm.category algorithm))).
End ComparisonVocabulary.

(** The seeded store with its three tests, in the example world. *)
Definition sample_app : app := mkapp sample_db world0.

Section SignatureVocabulary.
Context `{Rsa} `{Ec}.

(** [k in fields] *)
Definition has_key (k : string) (fields : list (string * pyval)) : bool :=
  match dict_get k fields with
  | Some _ => true
  | None => false
  end.

(** An instance of one of the two signature stand-ins. *)
Definition signature_only (c : crypto_impl) : bool :=
  match c with
  | OfDilithium _ | OfFalcon _ => true
  | _ => false
  end.

(** The instance holds its (non-empty) public key. *)
Definition keys_present (c : crypto_impl) : bool :=
  match c with
  | OfDilithium o => truthy (DilithiumCrypto.public_key o)
  | OfFalcon o => truthy (FalconCrypto.public_key o)
  | _ => false
  end.

(** The name that [sign] writes in the envelope. *)
Definition algorithm_label (c : crypto_impl) : string :=
  match c with
  | OfDilithium _ => "Dilithium"
  | OfFalcon _ => "Falcon"
  | _ => ""
  end.

(** The key size of a signature instance. *)
Definition security_level (c : crypto_impl) : Z :=
  match c with
  | OfDilithium o => DilithiumCrypto.key_size o
  | OfFalcon o => FalconCrypto.key_size o
  | _ => 0
  end.

(** The signature length fixed by the security level. *)
Definition signature_length (c : crypto_impl) : Z :=
  match c with
  | OfDilithium o => DilithiumCrypto.signature_size (DilithiumCrypto.key_size o)
  | OfFalcon o => FalconCrypto.signature_size (FalconCrypto.key_size o)
  | _ => 0
  end.
End SignatureVocabulary.

(** A Dilithium instance that holds two (short) keys, and an envelope with
    a forged signature field. *)
Definition keyed_dilithium : DilithiumCrypto.t :=
  DilithiumCrypto.mk 2 (Some [x01; x02; x03]) (Some [x04; x05; x06]).

Definition forged_envelope : list (string * string) :=
  [("signature", "Zm9yZ2Vk");
   ("message_hash", "47DEQpj8HBSa+/TImW+5JCeuQeRkm5NMpJWZG3hSuFU=");
   ("algorithm", "Dilithium")].

Section RoundTripVocabulary.
Context `{Rsa} `{Ec}.

(** The two key attributes of an RSA object are both unset, or set to a
    key pair, as [__init__] and [generate_keys] leave them. *)
Definition rsa_paired (o : RSACrypto.t) : Prop :=
  match RSACrypto.public_key o, RSACrypto.private_key o with
  | Some pk, Some sk => pk = rsa_public sk
  | None, None => True
  | _, _ => False
  end.

(** The private key that [encrypt] works with from the world [w]: the one
    the object holds, or the one its lazy key generation draws. *)
Definition rsa_key_in_use (o : RSACrypto.t) (w : world) : exc rsa_private_key :=
  match RSACrypto.private_key o with
  | Some sk => Ok sk
  | None => fst (rsa_generate_private_key 65537 (RSACrypto.key_size o) w)
  end.

(** The length in bytes of the key an AES object holds or will draw. *)
Definition aes_key_length (o : AESCrypto.t) : Z :=
  match AESCrypto.key o with
  | Some k => Z.of_nat (List.length k)
  | None => AESCrypto.key_size o / 8
  end.

(** The same for an elliptic-curve object; a key pair lies on the curve
    of the object. *)
Definition ecc_paired (o : ECCCrypto.t) : Prop :=
  match ECCCrypto.public_key o, ECCCrypto.private_key o with
  | Some pk, Some sk => pk = ec_public sk /\ ec_key_curve sk = ECCCrypto.curve_ o
  | None, None => True
  | _, _ => False
  end.

(** What makes an RSA or AES instance fit to encrypt [m] from the world
    [w]: a usable key, and for RSA a message within the OAEP bound of the
    key. *)
Definition round_trip_ready (c : crypto_impl) (w : world) (m : string) : Prop :=
  match c with
  | OfRSA o =>
      rsa_paired o
      /\ exists sk, rsa_key_in_use o w = Ok sk
                    /\ (List.length (encode_utf8 m) <= rsa_oaep_max (rsa_public sk))%nat
  | OfAES o => In (aes_key_length o) [16; 24; 32]
  | _ => False
  end.
End RoundTripVocabulary.

(** [b.endswith(b" ")] *)
Definition ends_with_space (b : bytes) : bool := Byte.eqb (last b x00) x20.

Unset Implicit Arguments.

(* ===================================================================== *)
(** * Seeding (routes/algorithms.py, init_db.py) *)
(* ===================================================================== *)

Lemma seed_not_seventeen :
  List.length (algorithms (snd (seed_algorithms empty_db))) <> 17%nat.
Proof. vm_compute. discriminate. Qed.

(** C8 (amended).  Seeding an empty catalog inserts the fixed list of 13
    descriptors (two RSA, two ECC, two AES, three Kyber, two Dilithium, two
    Falcon), numbered 1 to 13, and answers 201 with the counts 6 and 7;
    seeding a catalog that already has an entry answers 200 "Algorithms
    already seeded" and leaves the store as it was.  [init_database] seeds
    the same way. *)
Theorem seed_algorithms_catalog (d : db) :
  let r := fst (seed_algorithms d) in
  let d' := snd (seed_algorithms d) in
  match algorithms d with
  | [] =>
      status r = 201
      /\ dict_get "classical" (body r) = Some (PInt 6)
      /\ dict_get "post_quantum" (body r) = Some (PInt 7)
      /\ List.length (algorithms d') = 13%nat
      /\ map Algorithm.name (algorithms d')
         = ["RSA-2048"; "RSA-4096"; "ECC-P256"; "ECC-P384"; "AES-128"; "AES-256";
            "Kyber-512"; "Kyber-768"; "Kyber-1024"; "Dilithium-2"; "Dilithium-3";
            "Falcon-512"; "Falcon-1024"]
      /\ map Algorithm.id (algorithms d') = [1; 2; 3; 4; 5; 6; 7; 8; 9; 10; 11; 12; 13]
      /\ map (fun c => count_category c (algorithms d'))
             ["RSA"; "ECC"; "AES"; "Kyber"; "Dilithium"; "Falcon"]
         = [2; 2; 2; 3; 2; 2]%nat
      /\ tests d' = tests d
      /\ reports d' = reports d
      /\ snd (init_database d) = d'
  | _ :: _ =>
      r = mkresp 200 [("message", PStr "Algorithms already seeded")]
      /\ d' = d
      /\ snd (init_database d) = d
  end.
Proof.
  destruct d as [algs ts rs]; destruct algs as [|a algs].
  - cbn -[all_algorithms]. repeat split; reflexivity.
  - assert (E : (Algorithm_count (mkdb (a :: algs) ts rs) >? 0) = true).
    { unfold Algorithm_count. cbn [algorithms List.length].
      rewrite Z.gtb_ltb. apply Z.ltb_lt. lia. }
    unfold seed_algorithms, init_database. rewrite E.
    cbn [algorithms fst snd]. repeat split; reflexivity.
Qed.

(* ===================================================================== *)
(** * Bulk deletion (routes/tests.py) *)
(* ===================================================================== *)

Section BulkDelete.

Lemma Z_in_In (x : Z) (xs : list Z) : Z_in x xs = true <-> In x xs.
Proof.
  unfold Z_in. rewrite existsb_exists. split.
  - intros (y & Hy & E). apply Z.eqb_eq in E. now subst.
  - intros Hx. exists x. split; [assumption | apply Z.eqb_refl].
Qed.

(** Selecting rows of a table keeps its keys distinct. *)
Lemma filter_keeps_keys_distinct {A B} (key : A -> B) (keep : A -> bool) :
  forall l : list A, NoDup (map key l) -> NoDup (map key (filter keep l)).
Proof.
  intros l. induction l as [|a l IH]; cbn; intros Hnd; [constructor|].
  inversion Hnd as [|? ? Hnotin Hnd']; subst.
  destruct (keep a); cbn; auto.
  constructor; auto.
  intros Hin. apply Hnotin.
  apply in_map_iff in Hin. destruct Hin as (x & Hx & Hin).
  apply filter_In in Hin. apply in_map_iff. exists x. tauto.
Qed.

(** Two rows of a table with the same primary key are the same row. *)
Lemma same_id_same_row {A} (f : A -> Z) (l : list A) (a b : A) :
  NoDup (map f l) -> In a l -> In b l -> f a = f b -> a = b.
Proof.
  induction l as [|x l IH]; cbn; [tauto|].
  intros Hnd Ha Hb E. inversion Hnd as [|? ? Hnotin Hnd']; subst.
  destruct Ha as [->|Ha], Hb as [->|Hb]; auto.
  - exfalso. apply Hnotin. rewrite E. now apply in_map.
  - exfalso. apply Hnotin. rewrite <- E. now apply in_map.
Qed.

(** The route on a request that names at least one id. *)
Lemma bulk_delete_unfold (user : Z) (test_ids : list Z) (d : db) :
  test_ids <> [] ->
  bulk_delete_tests user test_ids d
  = let found := tests_in_owned d test_ids user in
    if negb (List.length found =? List.length test_ids)%nat then
      (mkresp 404 [("error", PStr "Some tests not found or access denied")], d)
    else
      (mkresp 200
         [("message", PStr ("Successfully deleted "
                            ++ str_of_nat (List.length found) ++ " tests"));
          ("deleted_count", PInt (Z.of_nat (List.length found)))],
       fold_left delete_test found d).
Proof. destruct test_ids; [congruence | reflexivity]. Qed.

Variables (d : db) (user : Z) (test_ids : list Z).
Hypothesis Hwf : db_wf d.

Let found := tests_in_owned d test_ids user.

Lemma found_In (t : Test.t) :
  In t found <-> In t (tests d) /\ In (Test.id t) test_ids /\ Test.user_id t = user.
Proof.
  unfold found, tests_in_owned. rewrite filter_In, andb_true_iff, Z_in_In, Z.eqb_eq.
  tauto.
Qed.

Lemma found_ids_NoDup : NoDup (map Test.id found).
Proof. apply filter_keeps_keys_distinct, Hwf. Qed.

Lemma found_ids_incl : incl (map Test.id found) test_ids.
Proof.
  intros i Hi. apply in_map_iff in Hi. destruct Hi as (t & <- & Ht).
  now apply found_In in Ht.
Qed.

(** The length test of the route decides whether the request resolves. *)
Lemma length_found_iff :
  List.length found = List.length test_ids
  <-> NoDup test_ids /\ forall i, In i test_ids -> resolves d user i.
Proof.
  split.
  - intros Hlen.
    assert (Hle : (List.length test_ids <= List.length (map Test.id found))%nat)
      by (rewrite length_map; lia).
    split.
    + exact (NoDup_incl_NoDup found_ids_NoDup Hle found_ids_incl).
    + intros i Hi.
      pose proof (NoDup_length_incl found_ids_NoDup Hle found_ids_incl) as Hincl.
      apply Hincl in Hi. apply in_map_iff in Hi. destruct Hi as (t & <- & Ht).
      apply found_In in Ht. exists t. tauto.
  - intros [Hnd Hres].
    assert (Hincl : incl test_ids (map Test.id found)).
    { intros i Hi. destruct (Hres i Hi) as (t & Ht & <- & Hu).
      apply in_map, found_In. tauto. }
    pose proof (NoDup_incl_length Hnd Hincl) as H1.
    pose proof (NoDup_incl_length found_ids_NoDup found_ids_incl) as H2.
    rewrite length_map in H1, H2. lia.
Qed.

Lemma fold_delete_tests (l : list Test.t) (d0 : db) :
  fold_left delete_test l d0
  = mkdb (algorithms d0)
         (filter (fun t => negb (Z_in (Test.id t) (map Test.id l))) (tests d0))
         (reports d0).
Proof.
  revert d0. induction l as [|x l IH]; intros d0; cbn [fold_left map].
  - destruct d0 as [a ts r]. cbn. f_equal.
    induction ts as [|t ts IHts]; cbn; [reflexivity | now rewrite <- IHts].
  - rewrite IH. unfold delete_test. cbn [algorithms tests reports]. f_equal.
    induction (tests d0) as [|t ts IHts]; cbn [filter]; [reflexivity|].
    change (Z_in (Test.id t) (Test.id x :: map Test.id l))
      with ((Test.id t =? Test.id x) || Z_in (Test.id t) (map Test.id l)).
    destruct (Test.id t =? Test.id x); cbn [negb orb filter]; [assumption|].
    destruct (Z_in (Test.id t) (map Test.id l)); cbn [negb]; [assumption|].
    now rewrite IHts.
Qed.

Lemma found_ids_agree (t : Test.t) :
  (forall i, In i test_ids -> resolves d user i) ->
  In t (tests d) ->
  Z_in (Test.id t) (map Test.id found) = Z_in (Test.id t) test_ids.
Proof.
  intros Hres Ht. apply eq_true_iff_eq. rewrite !Z_in_In. split.
  - apply found_ids_incl.
  - intros Hi. destruct (Hres _ Hi) as (t' & Ht' & E & Hu).
    assert (t' = t) by (eapply same_id_same_row; eauto; apply Hwf). subst t'.
    apply in_map, found_In. tauto.
Qed.

Lemma bulk_delete_nonempty : test_ids <> [] -> all_or_nothing user test_ids d.
Proof.
  intros Hne. unfold all_or_nothing. rewrite (bulk_delete_unfold _ _ _ Hne).
  cbv zeta. fold found.
  destruct (List.length found =? List.length test_ids)%nat eqn:Elen; cbn [negb fst snd].
  - apply Nat.eqb_eq in Elen. pose proof (proj1 length_found_iff Elen) as [Hnd Hres].
    split; [intros _ | tauto].
    rewrite fold_delete_tests. cbn [status body algorithms tests reports].
    repeat split; try reflexivity.
    + cbn. now rewrite Elen.
    + apply filter_ext_in. intros t Ht. now rewrite found_ids_agree.
  - apply Nat.eqb_neq in Elen. split.
    + intros Hres. exfalso. apply Elen. now apply length_found_iff.
    + intros _. cbn. split; [lia | reflexivity].
Qed.

End BulkDelete.

Lemma bulk_delete_empty_request : ~ all_or_nothing 1 [] empty_db.
Proof.
  intros [H _]. cbn in H.
  destruct H as [H _]; [split; [constructor | intros i []] | discriminate H].
Qed.

Lemma distinct_NoDup (ids : list Z) : distinct ids = true -> NoDup ids.
Proof.
  induction ids as [|i ids IH]; cbn; intros Hd; constructor.
  - apply andb_true_iff in Hd. destruct Hd as [Hi _].
    intros Hin. apply negb_true_iff in Hi.
    assert (existsb (Z.eqb i) ids = true); [|congruence].
    apply existsb_exists. exists i. split; [assumption | apply Z.eqb_refl].
  - apply IH. apply andb_true_iff in Hd. tauto.
Qed.

Lemma db_wfb_wf (d : db) : db_wfb d = true -> db_wf d.
Proof.
  unfold db_wfb. rewrite !andb_true_iff. intros [[Ha Ht] Hr].
  split; now apply distinct_NoDup.
Qed.

Lemma sample_db_wf : db_wf sample_db.
Proof. apply db_wfb_wf. vm_compute. reflexivity. Qed.

(** C10 (amended).  On a store with unique primary keys, bulk deletion of a
    non-empty list of test ids is all-or-nothing: when an id does not resolve
    to a test of the caller, or occurs twice, the answer is an error and the
    store is untouched; otherwise exactly the requested tests are deleted and
    [deleted_count] is their number.  An empty list is refused with status
    400 and nothing is deleted. *)
Theorem bulk_delete_all_or_nothing (d : db) (user : Z) (test_ids : list Z) :
  db_wf d ->
  match test_ids with
  | [] =>
      bulk_delete_tests user test_ids d
      = (mkresp 400 [("error", PStr "No test IDs provided")], d)
  | _ :: _ => all_or_nothing user test_ids d
  end.
Proof.
  intros Hwf. destruct test_ids as [|i ids] eqn:E; [reflexivity|].
  apply bulk_delete_nonempty; [assumption | discriminate].
Qed.

Lemma bulk_delete_all_or_nothing_witness : all_or_nothing 1 [2; 1] sample_db.
Proof.
  apply (bulk_delete_all_or_nothing sample_db 1 [2; 1]).
  apply db_wfb_wf. vm_compute. reflexivity.
Defined.

(* ===================================================================== *)
(** * The security report (routes/reports.py) *)
(* ===================================================================== *)

Section SecurityReport.
Context `{Builtins}.

Lemma filter_none {A} (p : A -> bool) (l : list A) :
  (forall x, In x l -> p x = false) -> filter p l = [].
Proof.
  induction l as [|a l IH]; cbn; intros Hp; [reflexivity|].
  rewrite (Hp a) by now left. apply IH. intros x Hx. apply Hp. now right.
Qed.

Variables (d : db) (user : Z).
Hypothesis no_tests : forall t, In t (tests d) -> Test.user_id t <> user.

Lemma not_mine (t : Test.t) : In t (tests d) -> (Test.user_id t =? user) = false.
Proof. intros Ht. apply Z.eqb_neq. now apply no_tests. Qed.

Lemma count_tests_zero (algorithm_id : Z) : count_tests d user algorithm_id = 0.
Proof.
  unfold count_tests. rewrite filter_none; [reflexivity|].
  intros t Ht. now rewrite not_mine.
Qed.

Lemma count_successful_tests_zero (algorithm_id : Z) :
  count_successful_tests d user algorithm_id = 0.
Proof.
  unfold count_successful_tests. rewrite filter_none; [reflexivity|].
  intros t Ht. now rewrite not_mine.
Qed.

Lemma count_joined_zero (flag : bool) : count_joined d user flag = 0.
Proof.
  unfold count_joined. rewrite filter_none; [reflexivity|].
  intros t Ht. now rewrite not_mine.
Qed.

Lemma pq_adoption_rate_zero : pq_adoption_rate d user = PInt 0.
Proof. unfold pq_adoption_rate. now rewrite !count_joined_zero. Qed.

Lemma analyse_level (a : Algorithm.t) :
  level_of (analyse d user a) = below_80_tier (Algorithm.quantum_safe a).
Proof.
  unfold analyse. rewrite count_tests_zero, count_successful_tests_zero.
  destruct (Algorithm.quantum_safe a); reflexivity.
Qed.

Lemma security_report_zero (title : option string) (today : string) :
  exists r report,
    generate_security_report user title today d
    = (Ok r, mkdb (algorithms d) (tests d) (List.app (reports d) [report]))
    /\ status r = 201
    /\ dict_get "report" (body r) = Some (Report_to_dict report)
    /\ path ["security_overview"; "quantum_readiness_score"] (Report.content report)
       = Some (PInt 0)
    /\ path ["algorithm_analysis"] (Report.content report)
       = Some (PList (map (analyse d user) (algorithms d)))
    /\ forall a, In a (algorithms d) ->
         level_of (analyse d user a) = below_80_tier (Algorithm.quantum_safe a).
Proof.
  unfold generate_security_report, try_except, bind, get, add_report, ret.
  rewrite pq_adoption_rate_zero.
  eexists. eexists. split; [reflexivity|].
  repeat split; try reflexivity.
  intros a _. apply analyse_level.
Qed.

End SecurityReport.

(** C7.  When the caller owns no test record, generating a security report
    raises no error: it answers 201 and stores one report whose quantum
    readiness score is 0 and whose analysis gives every catalog algorithm the
    tier of the below-80% bucket of the rule table ("medium" when
    quantum-safe, "low" otherwise), hence never a tier outside "unknown" or
    that bucket. *)
Theorem security_report_without_tests `{Builtins} (d : db) (user : Z)
    (title : option string) (today : string) :
  (forall t, In t (tests d) -> Test.user_id t <> user) ->
  exists r report,
    generate_security_report user title today d
    = (Ok r, mkdb (algorithms d) (tests d) (List.app (reports d) [report]))
    /\ status r = 201
    /\ dict_get "report" (body r) = Some (Report_to_dict report)
    /\ path ["security_overview"; "quantum_readiness_score"] (Report.content report)
       = Some (PInt 0)
    /\ path ["algorithm_analysis"] (Report.content report)
       = Some (PList (map (analyse d user) (algorithms d)))
    /\ forall a, In a (algorithms d) ->
         level_of (analyse d user a) = "unknown"
         \/ level_of (analyse d user a) = below_80_tier (Algorithm.quantum_safe a).
Proof.
  intros Hnone.
  destruct (security_report_zero d user Hnone title today)
    as (r & report & E & Hs & Hb & Hq & Ha & Hl).
  exists r, report. repeat split; auto.
Qed.

Lemma security_report_without_tests_witness :
  exists r report,
    @generate_security_report ref_builtins 3 None "2026-01-01" sample_db
    = (Ok r, mkdb (algorithms sample_db) (tests sample_db)
                  (List.app (reports sample_db) [report]))
    /\ status r = 201
    /\ dict_get "report" (body r) = Some (Report_to_dict report)
    /\ path ["security_overview"; "quantum_readiness_score"] (Report.content report)
       = Some (PInt 0)
    /\ path ["algorithm_analysis"] (Report.content report)
       = Some (PList (map (analyse sample_db 3) (algorithms sample_db)))
    /\ forall a, In a (algorithms sample_db) ->
         level_of (analyse sample_db 3 a) = "unknown"
         \/ level_of (analyse sample_db 3 a) = below_80_tier (Algorithm.quantum_safe a).
Proof.
  apply (@security_report_without_tests ref_builtins sample_db 3 None "2026-01-01").
  intros t Ht. change (tests sample_db) with
    [sample_test 1 1 6 true; sample_test 2 1 10 false; sample_test 3 2 7 true] in Ht.
  destruct Ht as [<-|[<-|[<-|[]]]]; discriminate.
Defined.

(* ===================================================================== *)
(** * The world *)
(* ===================================================================== *)

Lemma get_random_bytes_ok (n : Z) (w : world) :
  0 <= n ->
  get_random_bytes n w = (Ok (draw (Z.to_nat n) w), advance (Z.to_nat n) w).
Proof.
  intros Hn. unfold get_random_bytes.
  destruct (n <? 0) eqn:E; [apply Z.ltb_lt in E; lia | reflexivity].
Qed.

Lemma length_draw (k : nat) (w : world) : List.length (draw k w) = k.
Proof. unfold draw. now rewrite length_map, length_seq. Qed.

Lemma truthy_draw (k : nat) (w : world) :
  (0 < k)%nat -> truthy (Some (draw k w)) = true.
Proof.
  intros Hk. pose proof (length_draw k w) as Hl.
  destruct (draw k w); cbn in *; [lia | reflexivity].
Qed.

(** Unfolding of the monad, one layer at a time. *)
Ltac step :=
  unfold bind, ret, raise, lift, io, getself, setself; cbn [fst snd].

(* ===================================================================== *)
(** * The signature stand-ins (crypto_implementations.py) *)
(* ===================================================================== *)

Section Signatures.
Context `{Base64} `{Json} `{Hashes}.

Lemma Dilithium_key_sizes_pos (k : Z) :
  0 < fst (table_get DilithiumCrypto.key_sizes k (1312, 2528))
  /\ 0 < snd (table_get DilithiumCrypto.key_sizes k (1312, 2528)).
Proof.
  unfold DilithiumCrypto.key_sizes. cbn [table_get].
  destruct (k =? 2); [cbn; lia|].
  destruct (k =? 3); [cbn; lia|].
  destruct (k =? 5); cbn; lia.
Qed.

Lemma Dilithium_signature_size_pos (k : Z) : 0 < DilithiumCrypto.signature_size k.
Proof.
  unfold DilithiumCrypto.signature_size. cbn [table_get].
  destruct (k =? 2); [lia|].
  destruct (k =? 3); [lia|].
  destruct (k =? 5); lia.
Qed.

Lemma Falcon_key_sizes_pos (k : Z) :
  0 < fst (table_get FalconCrypto.key_sizes k (897, 1281))
  /\ 0 < snd (table_get FalconCrypto.key_sizes k (897, 1281)).
Proof.
  unfold FalconCrypto.key_sizes. cbn [table_get].
  destruct (k =? 512); [cbn; lia|].
  destruct (k =? 1024); cbn; lia.
Qed.

Lemma Falcon_signature_size_pos (k : Z) : 0 < FalconCrypto.signature_size k.
Proof.
  unfold FalconCrypto.signature_size. cbn [table_get].
  destruct (k =? 512); [lia|].
  destruct (k =? 1024); lia.
Qed.

(** Key generation returns, and leaves both keys non-empty. *)
Lemma Dilithium_generate_keys_run (o : DilithiumCrypto.t) (w : world) :
  exists r pk sk w',
    DilithiumCrypto.generate_keys (o, w)
    = (Ok r, (DilithiumCrypto.mk (DilithiumCrypto.key_size o) (Some pk) (Some sk), w'))
    /\ truthy (Some pk) = true /\ truthy (Some sk) = true.
Proof.
  destruct (Dilithium_key_sizes_pos (DilithiumCrypto.key_size o)) as [Hp Hs].
  unfold DilithiumCrypto.generate_keys, reraise. step.
  rewrite get_random_bytes_ok by lia. cbn [fst snd DilithiumCrypto.key_size].
  rewrite get_random_bytes_ok by lia. cbn [fst snd DilithiumCrypto.key_size].
  do 4 eexists. split; [reflexivity|].
  split; apply truthy_draw; lia.
Qed.

Lemma Falcon_generate_keys_run (o : FalconCrypto.t) (w : world) :
  exists r pk sk w',
    FalconCrypto.generate_keys (o, w)
    = (Ok r, (FalconCrypto.mk (FalconCrypto.key_size o) (Some pk) (Some sk), w'))
    /\ truthy (Some pk) = true /\ truthy (Some sk) = true.
Proof.
  destruct (Falcon_key_sizes_pos (FalconCrypto.key_size o)) as [Hp Hs].
  unfold FalconCrypto.generate_keys, reraise. step.
  rewrite get_random_bytes_ok by lia. cbn [fst snd FalconCrypto.key_size].
  rewrite get_random_bytes_ok by lia. cbn [fst snd FalconCrypto.key_size].
  do 4 eexists. split; [reflexivity|].
  split; apply truthy_draw; lia.
Qed.

(** [sign] always returns: the envelope holds fresh random bytes of the
    length of the security level and the digest of the empty input; an
    object without a private key leaves with both keys. *)
Lemma Dilithium_sign_run (o : DilithiumCrypto.t) (w : world) (message : string) :
  exists signature o' w',
    DilithiumCrypto.sign message (o, w)
    = (Ok (json_dumps (envelope "Dilithium" signature)), (o', w'))
    /\ Z.of_nat (List.length signature)
       = DilithiumCrypto.signature_size (DilithiumCrypto.key_size o)
    /\ DilithiumCrypto.key_size o' = DilithiumCrypto.key_size o
    /\ (truthy (DilithiumCrypto.private_key o) = true -> o' = o)
    /\ (truthy (DilithiumCrypto.private_key o) = false ->
        truthy (DilithiumCrypto.public_key o') = true).
Proof.
  pose proof (Dilithium_signature_size_pos (DilithiumCrypto.key_size o)) as Hsz.
  unfold DilithiumCrypto.sign, reraise. step.
  destruct (truthy (DilithiumCrypto.private_key o)) eqn:Et.
  - step. rewrite get_random_bytes_ok by lia. cbn [fst snd].
    do 3 eexists. split; [reflexivity|].
    rewrite length_draw, Z2Nat.id by lia.
    repeat split; try reflexivity; try discriminate.
  - destruct (Dilithium_generate_keys_run o w) as (r & pk & sk & w1 & E & Hpk & Hsk).
    step. rewrite E. cbn [fst snd].
    rewrite get_random_bytes_ok by lia. cbn [fst snd].
    do 3 eexists. split; [reflexivity|].
    rewrite length_draw, Z2Nat.id by lia.
    repeat split; try reflexivity; try discriminate.
    intros _. exact Hpk.
Qed.

Lemma Falcon_sign_run (o : FalconCrypto.t) (w : world) (message : string) :
  exists signature o' w',
    FalconCrypto.sign message (o, w)
    = (Ok (json_dumps (envelope "Falcon" signature)), (o', w'))
    /\ Z.of_nat (List.length signature)
       = FalconCrypto.signature_size (FalconCrypto.key_size o)
    /\ FalconCrypto.key_size o' = FalconCrypto.key_size o
    /\ (truthy (FalconCrypto.private_key o) = true -> o' = o)
    /\ (truthy (FalconCrypto.private_key o) = false ->
        truthy (FalconCrypto.public_key o') = true).
Proof.
  pose proof (Falcon_signature_size_pos (FalconCrypto.key_size o)) as Hsz.
  unfold FalconCrypto.sign, reraise. step.
  destruct (truthy (FalconCrypto.private_key o)) eqn:Et.
  - step. rewrite get_random_bytes_ok by lia. cbn [fst snd].
    do 3 eexists. split; [reflexivity|].
    rewrite length_draw, Z2Nat.id by lia.
    repeat split; try reflexivity; try discriminate.
  - destruct (Falcon_generate_keys_run o w) as (r & pk & sk & w1 & E & Hpk & Hsk).
    step. rewrite E. cbn [fst snd].
    rewrite get_random_bytes_ok by lia. cbn [fst snd].
    do 3 eexists. split; [reflexivity|].
    rewrite length_draw, Z2Nat.id by lia.
    repeat split; try reflexivity; try discriminate.
    intros _. exact Hpk.
Qed.

End Signatures.

(* ===================================================================== *)
(** * The reference libraries obey the laws of the interfaces *)
(* ===================================================================== *)

Section ReferenceJson.
Import Reference.

Lemma append_assoc (a b c : string) : (a ++ b) ++ c = a ++ (b ++ c).
Proof. induction a as [|x a IH]; cbn; [reflexivity | now rewrite IH]. Qed.

Lemma backslash_not_quote : Ascii.eqb backslash quote = false.
Proof. reflexivity. Qed.

(** Reading back an escaped string stops at its closing quote. *)
Lemma parse_string_escape (s rest : string) :
  parse_string (escape s ++ String quote rest) = Some (s, rest).
Proof.
  induction s as [|c s IH]; cbn [escape String.append parse_string].
  - now rewrite Ascii.eqb_refl.
  - destruct (Ascii.eqb c quote) eqn:Eq; cbn [orb String.append parse_string].
    + rewrite backslash_not_quote, Ascii.eqb_refl, Eq. cbn [orb]. now rewrite IH.
    + destruct (Ascii.eqb c backslash) eqn:Eb; cbn [String.append parse_string].
      * rewrite backslash_not_quote, Ascii.eqb_refl, Eq, Eb. cbn [orb].
        now rewrite IH.
      * rewrite Eq, Eb. now rewrite IH.
Qed.

Lemma strip_prefix_append (p s : string) : strip_prefix p (p ++ s) = Some s.
Proof.
  induction p as [|c p IH]; cbn; [reflexivity|]. now rewrite Ascii.eqb_refl.
Qed.

Lemma dict_set_fresh (k : string) (v : pyval) (d : list (string * pyval)) :
  ~ In k (map fst d) -> dict_set k v d = List.app d [(k, v)].
Proof.
  induction d as [|[k' v'] d IH]; cbn; intros Hk; [reflexivity|].
  destruct (k == k') eqn:E.
  - apply String.eqb_eq in E. subst. tauto.
  - rewrite IH; [reflexivity | tauto].
Qed.

Lemma dumps_str_dict (fields : list (string * string)) :
  dumps (str_dict fields) = "{" ++ join ", " (map member fields) ++ "}".
Proof.
  unfold str_dict. cbn [dumps]. rewrite map_map. do 3 f_equal.
Qed.

(** A member followed by [tail] is read as its key, its value and [tail]. *)
Lemma member_read (kv : string * string) (tail : string) :
  exists s2 s3,
    strip_prefix (String quote "") (member kv ++ tail) = Some (escape (fst kv) ++ String quote s2)
    /\ strip_prefix (": " ++ String quote "") s2 = Some (escape (snd kv) ++ String quote s3)
    /\ s3 = tail.
Proof.
  destruct kv as [k v]. unfold member, print_string. cbn [fst snd].
  exists (": " ++ String quote (escape v ++ String quote tail)), tail.
  split; [|split; [|reflexivity]].
  - cbn [String.append strip_prefix]. rewrite Ascii.eqb_refl.
    rewrite !append_assoc. cbn [String.append]. rewrite !append_assoc.
    reflexivity.
  - cbn [String.append strip_prefix]. now rewrite !Ascii.eqb_refl.
Qed.

Lemma parse_members_dumps (fields : list (string * string)) :
  forall (fuel : nat) (acc : list (string * pyval)),
    fields <> [] ->
    (List.length fields <= fuel)%nat ->
    NoDup (List.app (map fst acc) (map fst fields)) ->
    parse_members fuel (join ", " (map member fields) ++ "}") acc
    = Some (List.app acc (map (fun kv => (fst kv, PStr (snd kv))) fields)).
Proof.
  induction fields as [|kv fields IH]; intros fuel acc Hne Hfuel Hnd; [congruence|].
  destruct fuel as [|fuel]; [cbn in Hfuel; lia|].
  assert (Hfresh : ~ In (fst kv) (map fst acc)).
  { intros Hin. apply NoDup_app_remove_l in Hnd as Hnd'.
    clear Hnd'. induction (map fst acc) as [|a l IHl]; [destruct Hin|].
    cbn in Hnd. inversion Hnd as [|? ? Hnotin Hnd2]; subst.
    destruct Hin as [-> | Hin]; [|now apply IHl].
    apply Hnotin. apply in_or_app. right. now left. }
  assert (Hnd' : NoDup (List.app (map fst (List.app acc [(fst kv, PStr (snd kv))]))
                                 (map fst fields))).
  { rewrite map_app, <- app_assoc. exact Hnd. }
  cbn [parse_members].
  destruct fields as [|kv' fields].
  - cbn [map join].
    destruct (member_read kv "}") as (s2 & s3 & E1 & E2 & ->).
    rewrite E1, parse_string_escape, E2, parse_string_escape.
    cbn [String.eqb Ascii.eqb Bool.eqb]. rewrite dict_set_fresh by assumption.
    reflexivity.
  - change (join ", " (map member (kv :: kv' :: fields)))
      with (member kv ++ ", " ++ join ", " (map member (kv' :: fields))).
    rewrite !append_assoc.
    destruct (member_read kv (", " ++ join ", " (map member (kv' :: fields)) ++ "}"))
      as (s2 & s3 & E1 & E2 & ->).
    rewrite E1, parse_string_escape, E2, parse_string_escape.
    cbn [String.append String.eqb Ascii.eqb Bool.eqb strip_prefix].
    rewrite dict_set_fresh by assumption.
    rewrite (IH fuel _ ltac:(discriminate) ltac:(cbn in *; lia) Hnd').
    rewrite <- app_assoc. reflexivity.
Qed.

Lemma length_append (a b : string) :
  String.length (a ++ b) = (String.length a + String.length b)%nat.
Proof. induction a as [|x a IH]; cbn; [reflexivity | now rewrite IH]. Qed.

Lemma member_length (kv : string * string) : (1 <= String.length (member kv))%nat.
Proof. unfold member, print_string. cbn. lia. Qed.

Lemma members_length (fields : list (string * string)) :
  (List.length fields <= String.length (join ", " (map member fields)))%nat.
Proof.
  induction fields as [|kv fields IH]; [cbn; lia|].
  destruct fields as [|kv' fields].
  - cbn [map join List.length]. apply member_length.
  - change (join ", " (map member (kv :: kv' :: fields)))
      with (member kv ++ ", " ++ join ", " (map member (kv' :: fields))).
    rewrite !length_append. pose proof (member_length kv).
    cbn [List.length] in *. lia.
Qed.

Lemma members_start (kv : string * string) (fields : list (string * string)) :
  exists rest, join ", " (map member (kv :: fields)) = String quote rest.
Proof.
  destruct fields as [|kv' fields]; unfold member, print_string; cbn; eauto.
Qed.

(** The codec reads back what it writes for a dict of strings. *)
Lemma ref_json_roundtrip (fields : list (string * string)) :
  NoDup (map fst fields) ->
  loads (dumps (str_dict fields)) = Ok (str_dict fields).
Proof.
  intros Hnd. rewrite dumps_str_dict. destruct fields as [|kv fields].
  - reflexivity.
  - unfold loads.
    destruct (members_start kv fields) as (rest & Hrest).
    assert (Hne : ("{" ++ join ", " (map member (kv :: fields)) ++ "}" == "{}")
                  = false).
    { rewrite Hrest. reflexivity. }
    rewrite Hne. cbn [String.append strip_prefix].
    change (Ascii.eqb "{" "{") with true. cbv iota.
    rewrite parse_members_dumps.
    + reflexivity.
    + discriminate.
    + rewrite length_append. pose proof (members_length (kv :: fields)). lia.
    + exact Hnd.
Qed.

End ReferenceJson.

(* ===================================================================== *)
(** * Signing and verifying with the signature stand-ins *)
(* ===================================================================== *)

Section SignVerify.
Context `{Base64} `{Json} `{Hashes} `{Padding} `{AesCbc} `{Rsa} `{Ec}.

Hypothesis json_roundtrip :
  forall fields : list (string * string),
    NoDup (map fst fields) ->
    json_loads (json_dumps (str_dict fields)) = Ok (str_dict fields).

Lemma envelope_loads (algorithm : string) (signature : bytes) :
  json_loads (json_dumps (envelope algorithm signature))
  = Ok (envelope algorithm signature).
Proof.
  unfold envelope. apply json_roundtrip. cbn.
  repeat constructor; cbn; intuition discriminate.
Qed.

(** [verify] on a text that parses to an object looks at two keys only. *)
Lemma Dilithium_verify_object (o : DilithiumCrypto.t) (w : world)
    (message text : string) (fields : list (string * pyval)) :
  truthy (DilithiumCrypto.public_key o) = true ->
  json_loads text = Ok (PDict fields) ->
  DilithiumCrypto.verify message text (o, w)
  = (Ok (has_key "signature" fields && has_key "algorithm" fields), (o, w)).
Proof.
  intros Hk Hl. unfold DilithiumCrypto.verify, reraise. step.
  rewrite Hk. cbn [negb]. step. rewrite Hl. unfold contains, has_key.
  destruct (dict_get "signature" fields); cbn [andb]; [|reflexivity].
  destruct (dict_get "algorithm" fields); reflexivity.
Qed.

Lemma Falcon_verify_object (o : FalconCrypto.t) (w : world)
    (message text : string) (fields : list (string * pyval)) :
  truthy (FalconCrypto.public_key o) = true ->
  json_loads text = Ok (PDict fields) ->
  FalconCrypto.verify message text (o, w)
  = (Ok (has_key "signature" fields && has_key "algorithm" fields), (o, w)).
Proof.
  intros Hk Hl. unfold FalconCrypto.verify, reraise. step.
  rewrite Hk. cbn [negb]. step. rewrite Hl. unfold contains, has_key.
  destruct (dict_get "signature" fields); cbn [andb]; [|reflexivity].
  destruct (dict_get "algorithm" fields); reflexivity.
Qed.

Lemma impl_verify_object (c : crypto_impl) (w : world) (message text : string)
    (fields : list (string * pyval)) :
  signature_only c = true ->
  keys_present c = true ->
  json_loads text = Ok (PDict fields) ->
  impl_verify message text (c, w)
  = (Ok (has_key "signature" fields && has_key "algorithm" fields), (c, w)).
Proof.
  intros Hs Hk Hl. destruct c as [o|o|o|o|o|o]; try discriminate;
    unfold impl_verify, method; cbn [fst snd keys_present] in *.
  - now rewrite (Dilithium_verify_object o w message text fields Hk Hl).
  - now rewrite (Falcon_verify_object o w message text fields Hk Hl).
Qed.

(** [sign] of a signature instance: the envelope, and an instance that
    still holds its public key. *)
Lemma impl_sign_run (c : crypto_impl) (w : world) (message : string) :
  signature_only c = true ->
  exists signature c' w',
    impl_sign message (c, w)
    = (Ok (json_dumps (envelope (algorithm_label c) signature)), (c', w'))
    /\ Z.of_nat (List.length signature) = signature_length c
    /\ signature_only c' = true
    /\ (keys_present c = true -> keys_present c' = true).
Proof.
  intros Hs. destruct c as [o|o|o|o|o|o]; try discriminate;
    unfold impl_sign, method; cbn [fst snd].
  - destruct (Dilithium_sign_run o w message) as (sg & o' & w' & E & Hl & _ & Hsame & Hnew).
    rewrite E. exists sg, (OfDilithium o'), w'. repeat split; try assumption.
    cbn [keys_present]. intros Hk.
    destruct (truthy (DilithiumCrypto.private_key o)) eqn:Et.
    + now rewrite Hsame.
    + now apply Hnew.
  - destruct (Falcon_sign_run o w message) as (sg & o' & w' & E & Hl & _ & Hsame & Hnew).
    rewrite E. exists sg, (OfFalcon o'), w'. repeat split; try assumption.
    cbn [keys_present]. intros Hk.
    destruct (truthy (FalconCrypto.private_key o)) eqn:Et.
    + now rewrite Hsame.
    + now apply Hnew.
Qed.

Lemma sign_then_verify (c : crypto_impl) (w : world) (m m' : string) :
  signature_only c = true ->
  keys_present c = true ->
  exists text st,
    impl_sign m (c, w) = (Ok text, st)
    /\ impl_verify m' text st = (Ok true, st).
Proof.
  intros Hs Hk.
  destruct (impl_sign_run c w m Hs) as (sg & c' & w' & E & _ & Hs' & Hk').
  do 2 eexists. split; [exact E|].
  rewrite (impl_verify_object c' w' m' _ _ Hs' (Hk' Hk) (envelope_loads _ sg)).
  reflexivity.
Qed.

End SignVerify.

(** C1 (amended).  For a Dilithium or Falcon instance that holds its keys,
    and a json library that reads back what it writes: [verify(m', sign(m))]
    returns true for every message [m] and every message [m'] (so in
    particular for [m' = m]); and on any text that parses to a JSON object,
    [verify] does not raise and returns true exactly when the object has the
    two keys "signature" and "algorithm", whatever the message and the
    values.  A tampered envelope that keeps both keys is therefore accepted;
    false is returned only when one of the two keys is missing. *)
Theorem signature_verify_shape `{Base64} `{Json} `{Hashes} `{Padding} `{AesCbc}
    `{Rsa} `{Ec}
    (c : crypto_impl) (w : world) (m m' text : string) (fields : list (string * pyval)) :
  (forall fields : list (string * string),
      NoDup (map fst fields) ->
      json_loads (json_dumps (str_dict fields)) = Ok (str_dict fields)) ->
  signature_only c = true ->
  keys_present c = true ->
  json_loads text = Ok (PDict fields) ->
  (exists signed st,
      impl_sign m (c, w) = (Ok signed, st)
      /\ impl_verify m' signed st = (Ok true, st))
  /\ impl_verify m' text (c, w)
     = (Ok (has_key "signature" fields && has_key "algorithm" fields), (c, w)).
Proof.
  intros Hjson Hs Hk Hl. split.
  - now apply sign_then_verify.
  - now apply impl_verify_object.
Qed.

(** The statements on examples are read with the reference libraries. *)
Section SignVerifyExamples.
#[local] Existing Instances ref_base64 ref_json ref_hashes ref_padding ref_aes
  ref_rsa ref_ec ref_builtins.

Lemma signature_verify_shape_witness :
(exists signed st,
    impl_sign "hello" (OfDilithium keyed_dilithium, world0) = (Ok signed, st)
    /\ impl_verify "other" signed st = (Ok true, st))
/\ impl_verify "other" (json_dumps (str_dict forged_envelope))
     (OfDilithium keyed_dilithium, world0)
   = (Ok (has_key "signature" (map (fun kv => (fst kv, PStr (snd kv))) forged_envelope)
          && has_key "algorithm" (map (fun kv => (fst kv, PStr (snd kv))) forged_envelope)),
      (OfDilithium keyed_dilithium, world0)).
Proof.
apply (signature_verify_shape (OfDilithium keyed_dilithium) world0 "hello" "other"
         (json_dumps (str_dict forged_envelope))
         (map (fun kv => (fst kv, PStr (snd kv))) forged_envelope)).
- exact ref_json_roundtrip.
- reflexivity.
- reflexivity.
- vm_compute. reflexivity.
Defined.

Lemma tampered_envelope_accepted :
fst (impl_verify "hello" (json_dumps (str_dict forged_envelope))
       (OfDilithium keyed_dilithium, world0)) = Ok true
/\ fst (impl_sign "hello" (OfDilithium keyed_dilithium, world0))
   <> Ok (json_dumps (str_dict forged_envelope)).
Proof.
split; vm_compute; [reflexivity | discriminate].
Qed.

(** C9 (the behaviour of the code).  [sign] of a fresh Dilithium instance of
  level 2 on the message "hello" returns an envelope whose [message_hash]
  is the base64 text of the SHA-256 digest of the empty input, not of the
  message: the base64 text of the digest of "hello" is another one. *)
Theorem sign_digests_empty_input :
exists text st,
  DilithiumCrypto.sign "hello" (DilithiumCrypto.init 2, world0) = (Ok text, st)
  /\ match json_loads text with
     | Ok data => getitem data "message_hash"
     | Raise e => Raise e
     end = Ok (PStr "47DEQpj8HBSa+/TImW+5JCeuQeRkm5NMpJWZG3hSuFU=")
  /\ b64encode (sha256 []) = "47DEQpj8HBSa+/TImW+5JCeuQeRkm5NMpJWZG3hSuFU="
  /\ b64encode (sha256 (encode_utf8 "hello"))
     = "LPJNul+wow4m6DsqxbninhsWHlwfp0JecwQzYpOLmCQ=".
Proof.
do 2 eexists. split; [vm_compute; reflexivity|].
repeat split; vm_compute; reflexivity.
Qed.

End SignVerifyExamples.

Section ReferenceBase64.

Ltac divmod := zify; Z.to_euclidean_division_equations; lia.

Lemma to_N_lt (b : byte) : (Byte.to_N b < 256)%N.
Proof. pose proof (Byte.to_N_bounded b). lia. Qed.

Lemma byte_of_to_N (b : byte) : Reference.byte_of_N (Byte.to_N b) = b.
Proof.
  unfold Reference.byte_of_N. rewrite N.mod_small by apply to_N_lt.
  now rewrite Byte.of_to_N.
Qed.

Lemma to_N_byte_of_N (n : N) : Byte.to_N (Reference.byte_of_N n) = (n mod 256)%N.
Proof.
  unfold Reference.byte_of_N.
  destruct (Byte.of_N (n mod 256)) as [b|] eqn:E.
  - now apply Byte.to_of_N.
  - apply Byte.of_N_None_iff in E.
    pose proof (N.mod_lt n 256 ltac:(discriminate)). lia.
Qed.

Lemma sextet_nat (k : nat) :
  (k < 64)%nat ->
  Reference.sextet_of_char (Reference.char_of_sextet (N.of_nat k)) = Some (N.of_nat k)
  /\ Reference.is_pad (Reference.char_of_sextet (N.of_nat k)) = false.
Proof.
  intros Hk. do 64 (destruct k as [|k]; [split; reflexivity|]). lia.
Qed.

Lemma sextet_char (n : N) :
  (n < 64)%N ->
  Reference.sextet_of_char (Reference.char_of_sextet n) = Some n.
Proof.
  intros Hn. rewrite <- (N2Nat.id n). apply sextet_nat. lia.
Qed.

Lemma sextet_not_pad (n : N) :
  (n < 64)%N -> Reference.is_pad (Reference.char_of_sextet n) = false.
Proof.
  intros Hn. rewrite <- (N2Nat.id n). apply sextet_nat. lia.
Qed.

(** The byte put together from the sextets is the byte that was split. *)
Ltac same_bytes a b c :=
  repeat match goal with
         | |- context [Reference.byte_of_N ?e] =>
             first [ replace e with (Byte.to_N a) by divmod
                   | replace e with (Byte.to_N b) by divmod
                   | replace e with (Byte.to_N c) by divmod ];
             rewrite byte_of_to_N
         end.

(** A full group of three bytes is read back, whatever follows. *)
Lemma decode_group (a b c : byte) (rest : string) :
  Reference.decode (Reference.b64encode (a :: b :: c :: nil) ++ rest)
  = match Reference.decode rest with
    | Some tail => Some (a :: b :: c :: tail)
    | None => None
    end.
Proof.
  pose proof (to_N_lt a). pose proof (to_N_lt b). pose proof (to_N_lt c).
  cbn [Reference.b64encode String.append Reference.decode].
  rewrite !sextet_char by divmod. rewrite !sextet_not_pad by divmod.
  same_bytes a b c. reflexivity.
Qed.

Lemma b64encode_group (a b c : byte) (rest : bytes) :
  Reference.b64encode (a :: b :: c :: rest)
  = Reference.b64encode (a :: b :: c :: nil) ++ Reference.b64encode rest.
Proof. reflexivity. Qed.

Lemma decode_b64encode_bounded (n : nat) :
  forall data : bytes,
    (List.length data <= n)%nat ->
    Reference.decode (Reference.b64encode data) = Some data.
Proof.
  induction n as [|n IH]; intros data Hlen.
  - destruct data; [reflexivity | cbn in Hlen; lia].
  - destruct data as [|a [|b [|c rest]]].
    + reflexivity.
    + pose proof (to_N_lt a).
      cbn [Reference.b64encode Reference.decode].
      rewrite !sextet_char by divmod.
      change (Reference.is_pad "=") with true. cbn [andb String.eqb].
      replace ((Byte.to_N a mod 4 * 16) mod 16 =? 0)%N with true
        by (symmetry; apply N.eqb_eq; divmod).
      same_bytes a a a. reflexivity.
    + pose proof (to_N_lt a). pose proof (to_N_lt b).
      cbn [Reference.b64encode Reference.decode].
      rewrite !sextet_char by divmod. rewrite !sextet_not_pad by divmod.
      change (Reference.is_pad "=") with true. cbn [andb String.eqb].
      replace ((Byte.to_N b mod 16 * 4) mod 4 =? 0)%N with true
        by (symmetry; apply N.eqb_eq; divmod).
      same_bytes a b b. reflexivity.
    + rewrite b64encode_group, decode_group, IH; [reflexivity|].
      cbn [List.length] in Hlen. lia.
Qed.

(** The decoder reads back what the encoder writes. *)
Lemma ref_base64_roundtrip (data : bytes) :
  Reference.b64decode (Reference.b64encode data) = Ok data.
Proof.
  unfold Reference.b64decode.
  now rewrite (decode_b64encode_bounded (List.length data) data (le_n _)).
Qed.

End ReferenceBase64.

Section ReferencePadding.

Lemma last_app_repeat {A} (l : list A) (x d : A) (k : nat) :
  last (List.app l (repeat x (S k))) d = x.
Proof.
  induction l as [|a l IH].
  - induction k as [|k IHk]; [reflexivity|].
    cbn [List.app repeat last] in *. exact IHk.
  - cbn [List.app]. destruct (List.app l (repeat x (S k))) eqn:E.
    + destruct l; discriminate.
    + cbn [last]. exact IH.
Qed.

Lemma firstn_length_app {A} (l l' : list A) :
  firstn (List.length l) (List.app l l') = l.
Proof. induction l as [|a l IH]; cbn; [now destruct l' | now rewrite IH]. Qed.

Lemma skipn_length_app {A} (l l' : list A) :
  skipn (List.length l) (List.app l l') = l'.
Proof. induction l as [|a l IH]; cbn; [reflexivity | exact IH]. Qed.

Lemma forallb_repeat (x : byte) (k : nat) :
  forallb (Byte.eqb x) (repeat x k) = true.
Proof.
  induction k as [|k IH]; cbn; [reflexivity|].
  rewrite IH. now rewrite (@Byte.byte_dec_lb x x eq_refl).
Qed.

(** The length of the padding for a block of sixteen bytes. *)
Lemma pad_amount (n : nat) :
  1 <= 16 - Z.of_nat n mod 16 <= 16.
Proof. pose proof (Z.mod_pos_bound (Z.of_nat n) 16 ltac:(lia)). lia. Qed.

Lemma ref_pad_length (data : bytes) :
  (List.length (Reference.pad data 16) mod 16 = 0)%nat.
Proof.
  unfold Reference.pad. rewrite length_app, repeat_length.
  pose proof (pad_amount (List.length data)).
  apply Nat2Z.inj. rewrite Nat2Z.inj_mod, Nat2Z.inj_add, Z2Nat.id by lia.
  cbn [Z.of_nat Pos.of_succ_nat Pos.succ]. Z.to_euclidean_division_equations. lia.
Qed.

Lemma ref_unpad_pad (data : bytes) :
  Reference.unpad (Reference.pad data 16) 16 = Ok data.
Proof.
  pose proof (pad_amount (List.length data)) as Hn.
  pose proof (ref_pad_length data) as Hmod.
  unfold Reference.unpad.
  unfold Reference.pad in *.
  set (p := 16 - Z.of_nat (List.length data) mod 16) in *.
  destruct (Z.to_nat p) as [|k] eqn:Ek; [lia|].
  set (x := Reference.byte_of_N (Z.to_N p)).
  assert (Hx : Z.of_N (Byte.to_N x) = p).
  { unfold x. rewrite to_N_byte_of_N. rewrite N.mod_small by lia. lia. }
  rewrite last_app_repeat. rewrite Hx.
  rewrite length_app, repeat_length in *.
  replace (Z.of_nat (List.length data + S k) =? 0) with false
    by (symmetry; apply Z.eqb_neq; lia).
  assert (Hmod' : Z.of_nat (List.length data + S k) mod 16 = 0).
  { apply (f_equal Z.of_nat) in Hmod. rewrite Nat2Z.inj_mod in Hmod. exact Hmod. }
  rewrite Hmod'. cbn [Z.eqb].
  cbn [negb].
  replace ((p <? 1) || (p >? Z.min 16 (Z.of_nat (List.length data + S k))))
    with false
    by (symmetry; apply orb_false_iff; split;
        [apply Z.ltb_ge; lia | rewrite Z.gtb_ltb; apply Z.ltb_ge; lia]).
  replace (Z.to_nat p) with (S k) by lia.
  replace (List.length data + S k - S k)%nat with (List.length data) by lia.
  rewrite skipn_length_app, firstn_length_app, forallb_repeat. reflexivity.
Qed.

End ReferencePadding.

Section ReferenceCiphers.

Lemma bsub_badd (d k : byte) : Reference.bsub (Reference.badd d k) k = d.
Proof.
  unfold Reference.bsub, Reference.badd. rewrite to_N_byte_of_N.
  pose proof (to_N_lt d). pose proof (to_N_lt k).
  transitivity (Reference.byte_of_N (Byte.to_N d)); [|apply byte_of_to_N].
  unfold Reference.byte_of_N.
  replace (((Byte.to_N d + Byte.to_N k) mod 256 + 256 - Byte.to_N k) mod 256)%N
    with (Byte.to_N d mod 256)%N; [reflexivity|].
  zify. Z.to_euclidean_division_equations. lia.
Qed.

Lemma badd_comm (a b : byte) : Reference.badd a b = Reference.badd b a.
Proof. unfold Reference.badd. now rewrite N.add_comm. Qed.

Lemma length_add_stream (ks data : bytes) :
  List.length ks = List.length data ->
  List.length (Reference.add_stream ks data) = List.length data.
Proof.
  intros Hl. unfold Reference.add_stream.
  rewrite length_map, length_combine. lia.
Qed.

Lemma sub_add_stream (ks : bytes) :
  forall data : bytes,
    List.length ks = List.length data ->
    Reference.sub_stream ks (Reference.add_stream ks data) = data.
Proof.
  unfold Reference.sub_stream, Reference.add_stream.
  induction ks as [|k ks IH]; intros [|d data] Hl; try discriminate; [reflexivity|].
  cbn [combine map fst snd]. rewrite bsub_badd. f_equal. apply IH.
  cbn in Hl. lia.
Qed.

Lemma add_stream_comm (a : bytes) :
  forall b : bytes, Reference.add_stream a b = Reference.add_stream b a.
Proof.
  unfold Reference.add_stream.
  induction a as [|x a IH]; intros [|y b]; try reflexivity.
  cbn [combine map fst snd]. now rewrite badd_comm, IH.
Qed.

Lemma length_keystream (key : bytes) (n : nat) :
  List.length (Reference.keystream key n) = n.
Proof. unfold Reference.keystream. now rewrite length_map, length_seq. Qed.

(** The stand-in cipher decrypts what it encrypts, under the argument
    checks of AES-CBC. *)
Lemma ref_aes_roundtrip (key iv data : bytes) :
  In (List.length key) [16; 24; 32]%nat ->
  List.length iv = 16%nat ->
  (List.length data mod 16 = 0)%nat ->
  exists c,
    Reference.cbc_encrypt key iv data = Ok c
    /\ Reference.cbc_decrypt key iv c = Ok data.
Proof.
  intros Hk Hiv Hd.
  assert (Hcheck : forall x, List.length x = List.length data ->
                             Reference.cbc_check key iv x = None).
  { intros x Hx. unfold Reference.cbc_check. rewrite Hiv, Hx, Hd.
    destruct Hk as [<-|[<-|[<-|[]]]]; reflexivity. }
  unfold Reference.cbc_encrypt, Reference.cbc_decrypt.
  rewrite (Hcheck data eq_refl). eexists. split; [reflexivity|].
  rewrite Hcheck by (apply length_add_stream, length_keystream).
  rewrite length_add_stream by apply length_keystream.
  rewrite sub_add_stream by apply length_keystream. reflexivity.
Qed.

Lemma ref_rsa_roundtrip (sk m : bytes) (w : world) :
  (List.length m <= Reference.oaep_max sk)%nat ->
  exists c w',
    Reference.oaep_encrypt sk m w = (Ok c, w')
    /\ Reference.oaep_decrypt sk c = Ok m.
Proof.
  intros Hm. unfold Reference.oaep_encrypt, Reference.oaep_decrypt.
  replace (Reference.oaep_max sk <? List.length m)%nat with false
    by (symmetry; apply Nat.ltb_ge; lia).
  do 2 eexists. split; [reflexivity|].
  rewrite length_add_stream by apply length_keystream.
  replace (Reference.oaep_max sk <? List.length m)%nat with false
    by (symmetry; apply Nat.ltb_ge; lia).
  rewrite sub_add_stream by apply length_keystream. reflexivity.
Qed.

Lemma ref_sha256_length (message : bytes) :
  List.length (Reference.sha256 message) = 32%nat.
Proof. reflexivity. Qed.

Lemma ref_ec_generate (c : curve) (w : world) :
  exists k w',
    Reference.ec_generate c w = (Ok k, w') /\ fst k = c.
Proof.
  unfold Reference.ec_generate, bind, ret.
  rewrite get_random_bytes_ok by lia. do 2 eexists. split; reflexivity.
Qed.

Lemma ref_ec_exchange (a b : curve * bytes) :
  fst a = fst b ->
  exists s,
    Reference.exchange a b = Ok s /\ Reference.exchange b a = Ok s.
Proof.
  intros E. unfold Reference.exchange, Reference.curve_eqb. rewrite E.
  rewrite (@Byte.byte_dec_lb _ _ eq_refl).
  eexists. split; [reflexivity|]. now rewrite add_stream_comm.
Qed.

Lemma ref_load_pem (pk : curve * bytes) :
  Reference.load_pem (Reference.ec_bytes pk) = Ok pk.
Proof. destruct pk as [[] k]; reflexivity. Qed.

End ReferenceCiphers.

(* ===================================================================== *)
(** * Round trips of the encrypting classes *)
(* ===================================================================== *)

Lemma decode_encode_utf8 (s : string) : decode_utf8 (encode_utf8 s) = s.
Proof. apply string_of_list_byte_of_string. Qed.

Section RsaRoundTrip.
Context `{Base64} `{Rsa}.

Hypothesis base64_roundtrip : forall b, b64decode (b64encode b) = Ok b.
Hypothesis oaep_roundtrip :
  forall (sk : rsa_private_key) (m : bytes) (w : world),
    (List.length m <= rsa_oaep_max (rsa_public sk))%nat ->
    exists c w',
      rsa_oaep_encrypt (rsa_public sk) m w = (Ok c, w')
      /\ rsa_oaep_decrypt sk c = Ok m.

Lemma RSA_round_trip (o : RSACrypto.t) (w : world) (m : string)
    (sk : rsa_private_key) :
  rsa_paired o ->
  rsa_key_in_use o w = Ok sk ->
  (List.length (encode_utf8 m) <= rsa_oaep_max (rsa_public sk))%nat ->
  exists ct st,
    RSACrypto.encrypt m (o, w) = (Ok ct, st)
    /\ fst (RSACrypto.decrypt ct st) = Ok m.
Proof.
  intros Hp Hkey Hlen. unfold rsa_paired, rsa_key_in_use in *.
  destruct o as [ks [pk|] [sk0|]]; cbn [RSACrypto.public_key RSACrypto.private_key
                                        RSACrypto.key_size] in *; try contradiction.
  - injection Hkey as ->. subst pk.
    unfold RSACrypto.encrypt, reraise. step. cbn [fst snd RSACrypto.public_key RSACrypto.private_key RSACrypto.key_size].
    destruct (oaep_roundtrip sk (encode_utf8 m) w Hlen) as (c & w' & Ee & Ed).
    rewrite Ee. cbn [fst snd]. do 2 eexists. split; [reflexivity|].
    unfold RSACrypto.decrypt, reraise. step. cbn [fst snd RSACrypto.public_key RSACrypto.private_key RSACrypto.key_size].
    rewrite base64_roundtrip, Ed. cbn [fst]. now rewrite decode_encode_utf8.
  - unfold RSACrypto.encrypt, RSACrypto.generate_keys, reraise. step.
    cbn [fst snd RSACrypto.public_key RSACrypto.private_key RSACrypto.key_size].
    destruct (rsa_generate_private_key 65537 ks w) as [r w1].
    cbn [fst] in Hkey. subst r. cbn [fst snd RSACrypto.public_key RSACrypto.key_size
                                     RSACrypto.private_key].
    destruct (oaep_roundtrip sk (encode_utf8 m) w1 Hlen) as (c & w' & Ee & Ed).
    rewrite Ee. cbn [fst snd]. do 2 eexists. split; [reflexivity|].
    unfold RSACrypto.decrypt, reraise. step. cbn [fst snd RSACrypto.public_key RSACrypto.private_key RSACrypto.key_size].
    rewrite base64_roundtrip, Ed. cbn [fst]. now rewrite decode_encode_utf8.
Qed.

End RsaRoundTrip.

Section AesRoundTrip.
Context `{Base64} `{Json} `{Padding} `{AesCbc}.

Hypothesis base64_roundtrip : forall b, b64decode (b64encode b) = Ok b.
Hypothesis json_roundtrip :
  forall fields : list (string * string),
    NoDup (map fst fields) ->
    json_loads (json_dumps (str_dict fields)) = Ok (str_dict fields).
Hypothesis pad_length :
  forall b, (List.length (pad b 16) mod 16 = 0)%nat.
Hypothesis unpad_pad : forall b, unpad (pad b 16) 16 = Ok b.
Hypothesis cbc_roundtrip :
  forall key iv data : bytes,
    In (List.length key) [16; 24; 32]%nat ->
    List.length iv = 16%nat ->
    (List.length data mod 16 = 0)%nat ->
    exists c, aes_cbc_encrypt key iv data = Ok c
              /\ aes_cbc_decrypt key iv c = Ok data.

Ltac aes_simpl :=
  cbn [fst snd AESCrypto.key AESCrypto.key_size].

(** With a key in hand: encrypt, then decrypt. *)
Lemma AES_round_trip_keyed (ks : Z) (k : bytes) (w : world) (m : string) :
  In (List.length k) [16; 24; 32]%nat ->
  exists ct w',
    AESCrypto.encrypt m (AESCrypto.mk ks (Some k), w)
    = (Ok ct, (AESCrypto.mk ks (Some k), w'))
    /\ forall w'', fst (AESCrypto.decrypt ct (AESCrypto.mk ks (Some k), w'')) = Ok m.
Proof.
  intros Hk.
  unfold AESCrypto.encrypt, reraise. step. aes_simpl. step.
  rewrite get_random_bytes_ok by lia. aes_simpl.
  destruct (cbc_roundtrip k (draw (Z.to_nat 16) w)
              (pad (encode_utf8 m) AESCrypto.block_size) Hk
              (length_draw _ _) (pad_length _)) as (c & Ee & Ed).
  rewrite Ee. aes_simpl. do 2 eexists. split; [reflexivity|].
  intros w''. unfold AESCrypto.decrypt, reraise. step. aes_simpl. step.
  rewrite json_roundtrip
    by (cbn; repeat constructor; cbn; intuition discriminate).
  unfold str_dict, getitem, b64decode_value.
  cbn [map fst snd dict_get String.eqb Ascii.eqb Bool.eqb].
  rewrite !base64_roundtrip, Ed. unfold AESCrypto.block_size in *.
  rewrite unpad_pad. cbn [fst]. now rewrite decode_encode_utf8.
Qed.

Lemma AES_round_trip (o : AESCrypto.t) (w : world) (m : string) :
  In (aes_key_length o) [16; 24; 32] ->
  exists ct st,
    AESCrypto.encrypt m (o, w) = (Ok ct, st)
    /\ fst (AESCrypto.decrypt ct st) = Ok m.
Proof.
  intros Hk. destruct o as [ks [k|]]; unfold aes_key_length in Hk;
    cbn [AESCrypto.key AESCrypto.key_size] in Hk.
  - assert (Hk' : In (List.length k) [16; 24; 32]%nat).
    { cbn in *. lia. }
    destruct (AES_round_trip_keyed ks k w m Hk') as (ct & w' & E & Hd).
    exists ct. eexists. split; [exact E | apply Hd].
  - set (n := Z.to_nat (ks / 8)).
    assert (Hn : In n [16; 24; 32]%nat) by (subst n; cbn in *; lia).
    destruct (AES_round_trip_keyed ks (draw n w) (advance n w) m) as (ct & w' & E & Hd).
    { now rewrite length_draw. }
    exists ct. eexists. split; [|apply Hd].
    unfold AESCrypto.encrypt, reraise in *. revert E. step. aes_simpl.
    unfold AESCrypto.generate_keys, reraise. step. aes_simpl.
    rewrite (get_random_bytes_ok (ks / 8)) by (cbn in Hk; lia).
    fold n. aes_simpl. step. aes_simpl. intros E. exact E.
Qed.

End AesRoundTrip.

(** C2.  With libraries that obey their laws (base64 and json read back what
    they write, OAEP decrypts what it encrypts within its length bound, the
    block padding is removed by [unpad], AES-CBC decrypts what it encrypts),
    every RSA instance and every AES instance that has, or can draw, a valid
    key returns the plaintext from [decrypt(encrypt(m))]: for RSA when the
    UTF-8 bytes of [m] fit the OAEP bound of the key, for AES for every
    [m]. *)
Theorem encrypt_decrypt_round_trip `{Base64} `{Json} `{Hashes} `{Padding} `{AesCbc}
    `{Rsa} `{Ec} (c : crypto_impl) (w : world) (m : string) :
  (forall b, b64decode (b64encode b) = Ok b) ->
  (forall fields : list (string * string),
      NoDup (map fst fields) ->
      json_loads (json_dumps (str_dict fields)) = Ok (str_dict fields)) ->
  (forall b, (List.length (pad b 16) mod 16 = 0)%nat) ->
  (forall b, unpad (pad b 16) 16 = Ok b) ->
  (forall key iv data : bytes,
      In (List.length key) [16; 24; 32]%nat ->
      List.length iv = 16%nat ->
      (List.length data mod 16 = 0)%nat ->
      exists c, aes_cbc_encrypt key iv data = Ok c
                /\ aes_cbc_decrypt key iv c = Ok data) ->
  (forall (sk : rsa_private_key) (m : bytes) (w : world),
      (List.length m <= rsa_oaep_max (rsa_public sk))%nat ->
      exists c w',
        rsa_oaep_encrypt (rsa_public sk) m w = (Ok c, w')
        /\ rsa_oaep_decrypt sk c = Ok m) ->
  round_trip_ready c w m ->
  exists ct st,
    impl_encrypt m (c, w) = (Ok ct, st)
    /\ fst (impl_decrypt ct st) = Ok m.
Proof.
  intros Hb64 Hjson Hpl Hup Hcbc Hoaep Hready.
  destruct c as [o|o|o|o|o|o]; cbn [round_trip_ready] in Hready; try contradiction.
  - destruct Hready as (Hp & sk & Hkey & Hlen).
    destruct (RSA_round_trip Hb64 Hoaep o w m sk Hp Hkey Hlen) as (ct & [o' w'] & E & Hd).
    unfold impl_encrypt, impl_decrypt, method. cbn [fst snd]. rewrite E.
    do 2 eexists. split; [reflexivity|]. cbn [fst snd].
    destruct (RSACrypto.decrypt ct (o', w')) as [r [o'' w'']]. exact Hd.
  - destruct (AES_round_trip Hb64 Hjson Hpl Hup Hcbc o w m Hready)
      as (ct & [o' w'] & E & Hd).
    unfold impl_encrypt, impl_decrypt, method. cbn [fst snd]. rewrite E.
    do 2 eexists. split; [reflexivity|]. cbn [fst snd].
    destruct (AESCrypto.decrypt ct (o', w')) as [r [o'' w'']]. exact Hd.
Qed.

Section RoundTripExamples.
#[local] Existing Instances ref_base64 ref_json ref_hashes ref_padding ref_aes
  ref_rsa ref_ec ref_builtins.

Lemma encrypt_decrypt_round_trip_witness :
exists ct st,
  impl_encrypt "Hello, Quantum World!" (OfAES (AESCrypto.init 256), world0)
  = (Ok ct, st)
  /\ fst (impl_decrypt ct st) = Ok "Hello, Quantum World!".
Proof.
apply (encrypt_decrypt_round_trip (OfAES (AESCrypto.init 256)) world0
         "Hello, Quantum World!").
- exact ref_base64_roundtrip.
- exact ref_json_roundtrip.
- exact ref_pad_length.
- exact ref_unpad_pad.
- exact ref_aes_roundtrip.
- exact ref_rsa_roundtrip.
- vm_compute. auto.
Defined.

(** The same on an RSA instance of 2048 bits. *)
Lemma rsa_round_trip_example :
exists ct st,
  impl_encrypt "Hello, Quantum World!" (OfRSA (RSACrypto.init 2048), world0)
  = (Ok ct, st)
  /\ fst (impl_decrypt ct st) = Ok "Hello, Quantum World!".
Proof.
pose proof (fun sk => RSA_round_trip ref_base64_roundtrip ref_rsa_roundtrip
                        (RSACrypto.init 2048) world0 "Hello, Quantum World!" sk I) as R.
edestruct R as (ct & [o' w'] & E & Hd);
  [vm_compute; reflexivity | vm_compute; repeat constructor |].
unfold impl_encrypt, impl_decrypt, method. cbn [fst snd]. rewrite E.
do 2 eexists. split; [reflexivity|]. cbn [fst snd].
destruct (RSACrypto.decrypt ct (o', w')) as [r [o'' w'']]. exact Hd.
Qed.

End RoundTripExamples.

Section SpacePadding.

Lemma rstrip_space_spaces (n : nat) : rstrip_space (repeat x20 n) = [].
Proof. induction n as [|n IH]; cbn [repeat rstrip_space]; [reflexivity | now rewrite IH]. Qed.

(** Stripping forgets the spaces appended by the padding. *)
Lemma rstrip_space_app_spaces (b : bytes) (n : nat) :
  rstrip_space (List.app b (repeat x20 n)) = rstrip_space b.
Proof.
  induction b as [|c b IH]; cbn [List.app rstrip_space].
  - apply rstrip_space_spaces.
  - now rewrite IH.
Qed.

(** Bytes that do not end in a space are left as they are. *)
Lemma rstrip_space_id (b : bytes) : ends_with_space b = false -> rstrip_space b = b.
Proof.
  unfold ends_with_space. induction b as [|c b IH]; [reflexivity|].
  destruct b as [|c' b].
  - cbn [last rstrip_space]. now intros ->.
  - intros Hl. change (last (c :: c' :: b) x00) with (last (c' :: b) x00) in Hl.
    cbn [rstrip_space] in *. rewrite (IH Hl). reflexivity.
Qed.

(** What is stripped is a run of spaces. *)
Lemma rstrip_space_spec (b : bytes) :
  exists n, b = List.app (rstrip_space b) (repeat x20 n)
            /\ ends_with_space (rstrip_space b) = false.
Proof.
  induction b as [|c b (n & E & Hl)].
  - exists 0%nat. split; reflexivity.
  - cbn [rstrip_space]. destruct (rstrip_space b) as [|r rs] eqn:Er.
    + destruct (Byte.eqb c x20) eqn:Ec.
      * apply Byte.byte_dec_bl in Ec. subst c.
        exists (S n). cbn in *. now rewrite E.
      * exists n. cbn [List.app] in *. split; [now rewrite E|].
        unfold ends_with_space. cbn [last]. exact Ec.
    + exists n. split; [cbn [List.app] in *; now rewrite <- E|].
      unfold ends_with_space in *.
      change (last (c :: r :: rs) x00) with (last (r :: rs) x00). exact Hl.
Qed.

Lemma spaces_pad_length (b : bytes) :
  (List.length (List.app b (spaces (16 - Z.of_nat (List.length b) mod 16))) mod 16
   = 0)%nat.
Proof.
  unfold spaces. rewrite length_app, repeat_length.
  pose proof (pad_amount (List.length b)).
  apply Nat2Z.inj. rewrite Nat2Z.inj_mod, Nat2Z.inj_add, Z2Nat.id by lia.
  cbn [Z.of_nat Pos.of_succ_nat Pos.succ]. Z.to_euclidean_division_equations. lia.
Qed.

End SpacePadding.

Section EccRoundTrip.
Context `{Base64} `{Json} `{Hashes} `{AesCbc} `{Ec}.

Hypothesis base64_roundtrip : forall b, b64decode (b64encode b) = Ok b.
Hypothesis json_roundtrip :
  forall fields : list (string * string),
    NoDup (map fst fields) ->
    json_loads (json_dumps (str_dict fields)) = Ok (str_dict fields).
Hypothesis sha256_length : forall b, List.length (sha256 b) = 32%nat.
Hypothesis cbc_roundtrip :
  forall key iv data : bytes,
    In (List.length key) [16; 24; 32]%nat ->
    List.length iv = 16%nat ->
    (List.length data mod 16 = 0)%nat ->
    exists c, aes_cbc_encrypt key iv data = Ok c
              /\ aes_cbc_decrypt key iv c = Ok data.
Hypothesis ec_generate :
  forall (c : curve) (w : world),
    exists k w', ec_generate_private_key c w = (Ok k, w') /\ ec_key_curve k = c.
Hypothesis ecdh_agree :
  forall a b : ec_private_key,
    ec_key_curve a = ec_key_curve b ->
    exists s, ec_exchange a (ec_public b) = Ok s
              /\ ec_exchange b (ec_public a) = Ok s.
Hypothesis pem_roundtrip :
  forall pk : ec_public_key, load_pem_public_key (ec_public_bytes pk) = Ok pk.

Ltac ecc_simpl :=
  cbn [fst snd ECCCrypto.key_size ECCCrypto.curve_ ECCCrypto.public_key
       ECCCrypto.private_key].

Lemma ECC_round_trip_keyed (ks : Z) (cv : curve) (sk : ec_private_key)
    (w : world) (m : string) :
  ec_key_curve sk = cv ->
  let o := ECCCrypto.mk ks cv (Some (ec_public sk)) (Some sk) in
  exists ct w',
    ECCCrypto.encrypt m (o, w) = (Ok ct, (o, w'))
    /\ forall w'', fst (ECCCrypto.decrypt ct (o, w''))
                   = Ok (decode_utf8 (rstrip_space (encode_utf8 m))).
Proof.
  intros Hcv o. subst o.
  unfold ECCCrypto.encrypt, reraise. step. ecc_simpl. step. ecc_simpl.
  destruct (ec_generate cv w) as (ek & w1 & Eg & Hek). rewrite Eg. ecc_simpl.
  destruct (ecdh_agree ek sk ltac:(congruence)) as (s & Ex1 & Ex2).
  rewrite Ex1. ecc_simpl.
  rewrite get_random_bytes_ok by lia. ecc_simpl.
  set (aes_key := firstn 32 (Hash.finalize (Hash.update Hash.new s))).
  assert (Hkey : In (List.length aes_key) [16; 24; 32]%nat).
  { subst aes_key. unfold Hash.finalize. rewrite length_firstn, sha256_length.
    cbn. auto. }
  destruct (cbc_roundtrip aes_key (draw (Z.to_nat 16) w1) _ Hkey
              (length_draw _ _) (spaces_pad_length (encode_utf8 m)))
    as (c & Ee & Ed).
  rewrite Ee. ecc_simpl. do 2 eexists. split; [reflexivity|].
  intros w''. unfold ECCCrypto.decrypt, reraise. step. ecc_simpl. step.
  rewrite json_roundtrip
    by (cbn; repeat constructor; cbn; intuition discriminate).
  unfold str_dict, getitem, b64decode_value.
  cbn [map fst snd dict_get String.eqb Ascii.eqb Bool.eqb].
  rewrite !base64_roundtrip, pem_roundtrip, Ex2. fold aes_key. rewrite Ed.
  cbn [fst]. unfold spaces. now rewrite rstrip_space_app_spaces.
Qed.

Lemma ECC_round_trip (o : ECCCrypto.t) (w : world) (m : string) :
  ecc_paired o ->
  exists ct st,
    ECCCrypto.encrypt m (o, w) = (Ok ct, st)
    /\ fst (ECCCrypto.decrypt ct st)
       = Ok (decode_utf8 (rstrip_space (encode_utf8 m))).
Proof.
  intros Hp. unfold ecc_paired in Hp.
  destruct o as [ks cv [pk|] [sk|]]; ecc_simpl; cbn [ECCCrypto.public_key
    ECCCrypto.private_key ECCCrypto.curve_] in Hp; try contradiction.
  - destruct Hp as [-> Hcv].
    destruct (ECC_round_trip_keyed ks cv sk w m Hcv) as (ct & w' & E & Hd).
    exists ct. eexists. split; [exact E | apply Hd].
  - destruct (ec_generate cv w) as (sk & w1 & Eg & Hcv).
    destruct (ECC_round_trip_keyed ks cv sk w1 m Hcv) as (ct & w' & E & Hd).
    exists ct. eexists. split; [|apply Hd].
    unfold ECCCrypto.encrypt, reraise in *. revert E. step. ecc_simpl.
    unfold ECCCrypto.generate_keys, reraise. step. ecc_simpl.
    rewrite Eg. ecc_simpl. step. ecc_simpl. intros E. exact E.
Qed.

End EccRoundTrip.

(** C3.  With libraries that obey their laws, every ECC instance whose key
    attributes are unset or hold a key pair of its curve returns from
    [decrypt(encrypt(m))] the message [m] without its trailing spaces: the
    result is the UTF-8 text of the bytes of [m] stripped of their final run
    of 0x20 bytes, so a message that does not end in a space comes back
    unchanged. *)
Theorem ecc_round_trip_strips_spaces `{Base64} `{Json} `{Hashes} `{AesCbc} `{Ec}
    (o : ECCCrypto.t) (w : world) (m : string) :
  (forall b, b64decode (b64encode b) = Ok b) ->
  (forall fields : list (string * string),
      NoDup (map fst fields) ->
      json_loads (json_dumps (str_dict fields)) = Ok (str_dict fields)) ->
  (forall b, List.length (sha256 b) = 32%nat) ->
  (forall key iv data : bytes,
      In (List.length key) [16; 24; 32]%nat ->
      List.length iv = 16%nat ->
      (List.length data mod 16 = 0)%nat ->
      exists c, aes_cbc_encrypt key iv data = Ok c
                /\ aes_cbc_decrypt key iv c = Ok data) ->
  (forall (c : curve) (w : world),
      exists k w', ec_generate_private_key c w = (Ok k, w') /\ ec_key_curve k = c) ->
  (forall a b : ec_private_key,
      ec_key_curve a = ec_key_curve b ->
      exists s, ec_exchange a (ec_public b) = Ok s
                /\ ec_exchange b (ec_public a) = Ok s) ->
  (forall pk : ec_public_key, load_pem_public_key (ec_public_bytes pk) = Ok pk) ->
  ecc_paired o ->
  exists ct st,
    ECCCrypto.encrypt m (o, w) = (Ok ct, st)
    /\ fst (ECCCrypto.decrypt ct st) = Ok (decode_utf8 (rstrip_space (encode_utf8 m)))
    /\ (ends_with_space (encode_utf8 m) = false ->
        fst (ECCCrypto.decrypt ct st) = Ok m)
    /\ exists n,
         encode_utf8 m = List.app (rstrip_space (encode_utf8 m)) (repeat x20 n)
         /\ ends_with_space (rstrip_space (encode_utf8 m)) = false.
Proof.
  intros Hb64 Hjson Hsha Hcbc Hgen Hdh Hpem Hp.
  destruct (ECC_round_trip Hb64 Hjson Hsha Hcbc Hgen Hdh Hpem o w m Hp)
    as (ct & st & E & Hd).
  exists ct, st. split; [exact E|]. split; [exact Hd|]. split.
  - intros Hend. rewrite Hd, rstrip_space_id by assumption.
    now rewrite decode_encode_utf8.
  - apply rstrip_space_spec.
Qed.

Section EccExamples.
#[local] Existing Instances ref_base64 ref_json ref_hashes ref_padding ref_aes
  ref_rsa ref_ec ref_builtins.

Lemma ecc_round_trip_strips_spaces_witness :
exists ct st,
  ECCCrypto.encrypt "hello " (ECCCrypto.init 256, world0) = (Ok ct, st)
  /\ fst (ECCCrypto.decrypt ct st)
     = Ok (decode_utf8 (rstrip_space (encode_utf8 "hello ")))
  /\ (ends_with_space (encode_utf8 "hello ") = false ->
      fst (ECCCrypto.decrypt ct st) = Ok "hello ")
  /\ exists n,
       encode_utf8 "hello "
       = List.app (rstrip_space (encode_utf8 "hello ")) (repeat x20 n)
       /\ ends_with_space (rstrip_space (encode_utf8 "hello ")) = false.
Proof.
apply (ecc_round_trip_strips_spaces (ECCCrypto.init 256) world0 "hello ").
- exact ref_base64_roundtrip.
- exact ref_json_roundtrip.
- exact ref_sha256_length.
- exact ref_aes_roundtrip.
- exact ref_ec_generate.
- exact ref_ec_exchange.
- exact ref_load_pem.
- exact I.
Defined.

(** The example of the specification: "hello " comes back as "hello". *)
Lemma ecc_hello_example :
match ECCCrypto.encrypt "hello " (ECCCrypto.init 256, world0) with
| (Ok ct, st) => fst (ECCCrypto.decrypt ct st)
| (Raise e, _) => Raise e
end = Ok "hello".
Proof. vm_compute. reflexivity. Qed.

End EccExamples.

(* ===================================================================== *)
(** * The test harness (routes/algorithms.py) *)
(* ===================================================================== *)

Section Harness.
Context `{Base64} `{Json} `{Hashes} `{Padding} `{AesCbc} `{Rsa} `{Ec}
        `{Builtins}.

Lemma keeps_db_ret {A} (a : A) : keeps_db (ret a).
Proof. intros s. reflexivity. Qed.

Lemma keeps_db_bind {A B} (m : M app A) (k : A -> M app B) :
  keeps_db m -> (forall a, keeps_db (k a)) -> keeps_db (bind m k).
Proof.
  intros Hm Hk s. unfold bind. specialize (Hm s).
  destruct (m s) as [[a|e] s1]; cbn in *; [|assumption].
  rewrite Hk. assumption.
Qed.

Lemma keeps_db_on_impl {A} (c : crypto_impl) (m : M (crypto_impl * world) A) :
  keeps_db (on_impl c m).
Proof.
  intros s. unfold on_impl. destruct (m (c, env s)) as [[a|e] [c' w']]; reflexivity.
Qed.

Lemma keeps_db_clock_io {A} (m : M world A) : keeps_db (clock_io m).
Proof. intros s. unfold clock_io. destruct (m (env s)); reflexivity. Qed.

Lemma keeps_db_perform (c : crypto_impl) (test_type input_data : string) :
  keeps_db (perform c test_type input_data).
Proof.
  unfold perform.
  repeat match goal with
         | |- keeps_db (if ?b then _ else _) => destruct b
         | |- keeps_db (bind _ _) => apply keeps_db_bind; [|intros [? ?]]
         | |- keeps_db (on_impl _ _) => apply keeps_db_on_impl
         | |- keeps_db (ret _) => apply keeps_db_ret
         end.
Qed.


(** On a supported kind the chain returns an output or raises. *)
Lemma perform_supported (c : crypto_impl) (test_type input_data : string) (s : app) :
  supported c test_type = true ->
  fst (perform c test_type input_data s) <> Ok None.
Proof.
  unfold supported, perform, bind, ret. intros Hs.
  repeat match goal with
         | |- context [if ?b then _ else _] =>
             match b with
             | context [test_type] => destruct b eqn:?
             end
         | |- context [on_impl ?c ?m ?s] =>
             destruct (on_impl c m s) as [[[? ?]|?] ?]; cbn [fst]
         end; try discriminate.
Qed.

(** [sign] of a fresh signature-only instance returns its envelope. *)
Lemma perform_signing (c : crypto_impl) (k : Z) (input_data : string) (st : app) :
  c = OfDilithium (DilithiumCrypto.init k) \/ c = OfFalcon (FalconCrypto.init k) ->
  exists out st',
    perform c "signing" input_data st = (Ok (Some (PStr out)), st').
Proof.
  intros [-> | ->]; unfold perform; cbn [String.eqb Ascii.eqb Bool.eqb has_sign andb];
    unfold bind, on_impl, impl_sign, method, ret; cbn [fst snd].
  - destruct (Dilithium_sign_run (DilithiumCrypto.init k) (env st) input_data)
      as (sg & o' & w' & E & _). rewrite E. do 2 eexists. reflexivity.
  - destruct (Falcon_sign_run (FalconCrypto.init k) (env st) input_data)
      as (sg & o' & w' & E & _). rewrite E. do 2 eexists. reflexivity.
Qed.

Lemma is_signature_category_cases (category : string) :
  is_signature_category category = true ->
  category = "Dilithium" \/ category = "Falcon".
Proof.
  unfold is_signature_category. intros Hc. apply orb_true_iff in Hc.
  destruct Hc as [Hc | Hc]; apply String.eqb_eq in Hc; auto.
Qed.









Variables (s : app) (user algorithm_id : Z) (data : test_request)
          (algorithm : Algorithm.t) (implementation_class : Z -> crypto_impl).
Hypothesis Hget : Algorithm_get (database s) algorithm_id = Some algorithm.
Hypothesis Himpl :
  ALGORITHM_IMPLEMENTATIONS (Algorithm.category algorithm) = Some implementation_class.

Let kind := executed_kind algorithm data.
Let impl := implementation_class (Algorithm.key_size algorithm).

Let input := or_default (req_input_data data) "Hello, Quantum World!".
Let s1 := mkapp (database s) (snd (time_time (env s))).
Let start := clock (env s) (reads (env s)).
Let metadata :=
  [("key_size", PInt (Algorithm.key_size algorithm));
   ("algorithm_type", PStr (Algorithm.type algorithm))].

(** The run of the route, by the outcome of the operation. *)
Lemma harness_run :
  test_algorithm user algorithm_id data s
  = match perform impl kind input s1 with
    | (Ok None, s2) =>
        (Ok (mkresp 400 [("error", PStr ("Unsupported test type: " ++ kind))]), s2)
    | (Ok (Some output_data), s2) =>
        let '(now, s3) := (clock (env s2) (reads (env s2)),
                           mkapp (database s2) (snd (time_time (env s2)))) in
        let t := Test.mk (next_id (map Test.id (tests (database s3)))) user
                   algorithm_id kind input (Some (py_str output_data))
                   ((now - start) * 1000)%Q true None metadata in
        (Ok (mkresp 200 [("message", PStr "Test completed successfully");
                         ("test", Test_to_dict t);
                         ("result", output_data)]),
         mkapp (mkdb (algorithms (database s3))
                     (List.app (tests (database s3)) [t])
                     (reports (database s3))) (env s3))
    | (Raise crypto_error, s2) =>
        let '(now, s3) := (clock (env s2) (reads (env s2)),
                           mkapp (database s2) (snd (time_time (env s2)))) in
        let t := Test.mk (next_id (map Test.id (tests (database s3)))) user
                   algorithm_id kind input None
                   ((now - start) * 1000)%Q false (Some crypto_error) metadata in
        (Ok (mkresp 400 [("message", PStr "Test failed");
                         ("test", Test_to_dict t);
                         ("error", PStr crypto_error)]),
         mkapp (mkdb (algorithms (database s3))
                     (List.app (tests (database s3)) [t])
                     (reports (database s3))) (env s3))
    end.
Proof.
  unfold test_algorithm, try_except.
  unfold bind at 1. unfold get at 1. rewrite Hget, Himpl.
  unfold bind, clock_io, time_time, add_test, ret. cbn [fst snd].
  match goal with
  | |- context [perform ?c ?k ?i ?st] =>
      change (perform c k i st) with (perform impl kind input s1)
  end.
  destruct (perform impl kind input s1) as [[[out|]|e] s2]; reflexivity.
Qed.


Lemma harness_records :
  supported impl kind = true -> recorded user algorithm_id data s kind.
Proof.
  intros Hs. unfold recorded. rewrite harness_run.
  pose proof (perform_supported impl kind input s1 Hs) as Hsome.
  pose proof (keeps_db_perform impl kind input s1) as Hdb.
  destruct (perform impl kind input s1) as [[[out|]|e] s2];
    cbn [fst snd] in *; [| congruence |].
  - do 3 eexists. split; [reflexivity|].
    cbn [database tests algorithms status body dict_get String.eqb Ascii.eqb
         Bool.eqb Test.user_id Test.algorithm_id Test.test_type Test.input_data
         Test.success Test.error_message Test.output_data].
    rewrite Hdb. subst s1. cbn [database].
    repeat split; try reflexivity.
    left. repeat split; try reflexivity. discriminate.
  - do 3 eexists. split; [reflexivity|].
    cbn [database tests algorithms status body dict_get String.eqb Ascii.eqb
         Bool.eqb Test.user_id Test.algorithm_id Test.test_type Test.input_data
         Test.success Test.error_message Test.output_data].
    rewrite Hdb. subst s1. cbn [database].
    repeat split; try reflexivity.
    right. repeat split; try reflexivity. eexists. split; reflexivity.
Qed.


Lemma harness_signature_only :
  is_signature_category (Algorithm.category algorithm) = true ->
  or_default (req_test_type data) "encryption" = "encryption" ->
  kind = "signing"
  /\ exists r t s',
       test_algorithm user algorithm_id data s = (Ok r, s')
       /\ status r = 200
       /\ tests (database s') = List.app (tests (database s)) [t]
       /\ Test.test_type t = "signing"
       /\ Test.success t = true
       /\ Test.error_message t = None
       /\ Test.user_id t = user
       /\ Test.algorithm_id t = algorithm_id
       /\ dict_get "test" (body r) = Some (Test_to_dict t).
Proof.
  intros Hcat Hreq.
  assert (Hkind : kind = "signing").
  { unfold kind, executed_kind. rewrite Hcat, Hreq. reflexivity. }
  split; [assumption|].
  assert (Hc : impl = OfDilithium (DilithiumCrypto.init (Algorithm.key_size algorithm))
               \/ impl = OfFalcon (FalconCrypto.init (Algorithm.key_size algorithm))).
  { unfold impl. pose proof Himpl as Hi.
    destruct (is_signature_category_cases _ Hcat) as [E | E];
      rewrite E in Hi; cbn in Hi; injection Hi as <-; auto. }
  rewrite harness_run, Hkind.
  destruct (perform_signing impl _ input s1 Hc) as (out & s2 & E).
  pose proof (keeps_db_perform impl "signing" input s1) as Hdb.
  rewrite E in *. cbn [snd] in Hdb.
  do 3 eexists. split; [reflexivity|].
  cbn [database tests algorithms status body dict_get String.eqb Ascii.eqb
       Bool.eqb Test.user_id Test.algorithm_id Test.test_type Test.input_data
       Test.success Test.error_message Test.output_data].
  rewrite Hdb. subst s1. cbn [database].
  repeat split; reflexivity.
Qed.

End Harness.

(** C5.  For an algorithm of a signature-only family (Dilithium or Falcon), a
    request whose operation kind is encryption (given, or by default) is
    dispatched as signing: the run answers 200 and stores one record whose
    kind is "signing" and which is a success. *)
Theorem harness_remaps_encryption `{Base64} `{Json} `{Hashes} `{Padding}
    `{AesCbc} `{Rsa} `{Ec} `{Builtins}
    (s : app) (user algorithm_id : Z) (data : test_request) (algorithm : Algorithm.t) :
  Algorithm_get (database s) algorithm_id = Some algorithm ->
  is_signature_category (Algorithm.category algorithm) = true ->
  or_default (req_test_type data) "encryption" = "encryption" ->
  executed_kind algorithm data = "signing"
  /\ exists r t s',
       test_algorithm user algorithm_id data s = (Ok r, s')
       /\ status r = 200
       /\ tests (database s') = List.app (tests (database s)) [t]
       /\ Test.test_type t = "signing"
       /\ Test.success t = true
       /\ Test.error_message t = None
       /\ Test.user_id t = user
       /\ Test.algorithm_id t = algorithm_id
       /\ dict_get "test" (body r) = Some (Test_to_dict t).
Proof.
  intros Hget Hcat Hreq.
  destruct (ALGORITHM_IMPLEMENTATIONS (Algorithm.category algorithm)) as [cls|] eqn:Himpl.
  - exact (harness_signature_only s user algorithm_id data algorithm cls Hget Himpl
             Hcat Hreq).
  - exfalso. destruct (is_signature_category_cases _ Hcat) as [E | E];
      rewrite E in Himpl; discriminate.
Qed.


Section HarnessExample.
#[local] Existing Instances ref_base64 ref_json ref_hashes ref_padding ref_aes
  ref_rsa ref_ec ref_builtins.


(** With the reference libraries: a decryption test on Dilithium-2 stores
    the failure of [encrypt]; a body that is a list is answered 500 and
    leaves the state as it was; the body [null] is read as the empty
    object. *)
Example harness_failure_example :
  match Endpoint.test_algorithm 1 10
          (BodyObject (mk_test_request (Some "decryption") (Some "hello")))
          sample_app with
  | (Ok r, s') =>
      status r = 400
      /\ dict_get "message" (body r) = Some (PStr "Test failed")
      /\ dict_get "error" (body r)
         = Some (PStr ("Dilithium is a signature algorithm, not for encryption. "
                       ++ "Use sign() method instead."))
      /\ map (fun t => (Test.id t, Test.success t, Test.output_data t,
                        Test.error_message t))
             (skipn (List.length (tests sample_db)) (tests (database s')))
         = [(4, false, None,
             Some ("Dilithium is a signature algorithm, not for encryption. "
                   ++ "Use sign() method instead."))]
  | (Raise _, _) => False
  end.
Proof. vm_compute. repeat split. Qed.

Example harness_unreadable_example :
  Endpoint.test_algorithm 1 10 (BodyOther (JList [PInt 1])) sample_app
  = (Ok (mkresp 500 [("error", PStr "Failed to test algorithm");
                     ("details", PStr "'list' object has no attribute 'get'")]),
     sample_app)
  /\ Endpoint.test_algorithm 1 10 (BodyOther JNull) sample_app
     = Endpoint.test_algorithm 1 10 (BodyObject (mk_test_request None None))
         sample_app.
Proof. split; vm_compute; reflexivity. Qed.

End HarnessExample.


Lemma harness_remaps_encryption_witness :
  @executed_kind
    (Algorithm.mk 10 "Dilithium-2" "post-quantum" "Dilithium" 2
       "CRYSTALS-Dilithium with security level 2" true "active")
    (mk_test_request None (Some "hello")) = "signing"
  /\ exists r t s',
       @test_algorithm ref_base64 ref_json ref_hashes ref_padding ref_aes ref_rsa
         ref_ec ref_builtins 1 10 (mk_test_request None (Some "hello")) sample_app
       = (Ok r, s')
       /\ status r = 200
       /\ tests (database s') = List.app (tests (database sample_app)) [t]
       /\ Test.test_type t = "signing"
       /\ Test.success t = true
       /\ Test.error_message t = None
       /\ Test.user_id t = 1
       /\ Test.algorithm_id t = 10
       /\ dict_get "test" (body r) = Some (Test_to_dict t).
Proof.
  apply (@harness_remaps_encryption ref_base64 ref_json ref_hashes ref_padding
           ref_aes ref_rsa ref_ec ref_builtins sample_app 1 10
           (mk_test_request None (Some "hello"))); reflexivity.
Defined.

(* ===================================================================== *)
(** * The comparison (routes/algorithms.py) *)
(* ===================================================================== *)

Section Comparison.
Context `{Base64} `{Json} `{Hashes} `{Padding} `{AesCbc} `{Rsa} `{Ec}.

Lemma Algorithm_get_id (d : db) (i : Z) (a : Algorithm.t) :
  Algorithm_get d i = Some a -> Algorithm.id a = i.
Proof.
  unfold Algorithm_get. intros Hf. apply find_some in Hf.
  destruct Hf as [_ Hf]. now apply Z.eqb_eq in Hf.
Qed.

Ltac on_impl_cases :=
  match goal with
  | |- context [on_impl ?c ?m ?st] =>
      let Hk := fresh "Hk" in
      pose proof (keeps_db_on_impl c m st) as Hk;
      destruct (on_impl c m st) as [[[? ?]|?] ?];
      cbn [fst snd database env] in *
  end.

Lemma compare_one_skip (test_data : string) (algo_id : Z) (st : app) :
  comparable (database st) algo_id = false ->
  compare_one test_data algo_id st = (Ok None, st).
Proof.
  unfold comparable, compare_one, bind, get, ret. intros Hc.
  destruct (Algorithm_get (database st) algo_id) as [a|]; [|reflexivity].
  destruct (ALGORITHM_IMPLEMENTATIONS (Algorithm.category a)); [discriminate|].
  reflexivity.
Qed.

(** A signature-only family raises at [encrypt]: its row is the failed row
    with the refusal of the class. *)
Lemma compare_one_signature_only (test_data : string) (algo_id : Z) (st : app)
    (a : Algorithm.t) :
  Algorithm_get (database st) algo_id = Some a ->
  is_signature_category (Algorithm.category a) = true ->
  exists st',
    compare_one test_data algo_id st
    = (Ok (Some (failed_row a (encrypt_refusal (Algorithm.category a)))), st')
    /\ database st' = database st.
Proof.
  intros Hget Hsig. unfold compare_one, bind, get. rewrite Hget.
  destruct (is_signature_category_cases _ Hsig) as [E | E]; rewrite E;
    cbn [ALGORITHM_IMPLEMENTATIONS String.eqb Ascii.eqb Bool.eqb];
    unfold try_except, bind, clock_io, time_time, on_impl, impl_encrypt, method,
      DilithiumCrypto.encrypt, FalconCrypto.encrypt, raise, ret;
    cbn [fst snd env database];
    eexists; split; reflexivity.
Qed.

Lemma compare_one_row (test_data : string) (algo_id : Z) (st : app) :
  comparable (database st) algo_id = true ->
  exists row st',
    compare_one test_data algo_id st = (Ok (Some row), st')
    /\ database st' = database st
    /\ row_of (database st) algo_id row.
Proof.
  unfold comparable. intros Hc.
  destruct (Algorithm_get (database st) algo_id) as [a|] eqn:Hget; [|discriminate].
  destruct (is_signature_category (Algorithm.category a)) eqn:Hsig.
  - destruct (compare_one_signature_only test_data algo_id st a Hget Hsig)
      as (st' & E & Hdb).
    do 2 eexists. split; [exact E|]. split; [exact Hdb|].
    exists a. split; [assumption|]. split; [reflexivity|].
    split; [|reflexivity].
    left. repeat split; try reflexivity. eexists. reflexivity.
  - unfold compare_one, bind at 1, get. rewrite Hget.
    destruct (ALGORITHM_IMPLEMENTATIONS (Algorithm.category a)) as [cls|];
      [|discriminate].
    unfold try_except, bind, clock_io, time_time, ret. cbn [fst snd].
    repeat on_impl_cases;
      (do 2 eexists; split; [reflexivity|]; split; [cbn [database]; congruence|];
       exists a; split; [assumption|]; split; [reflexivity|];
       split; [|intros Hs; congruence]).
    + right. repeat split; try reflexivity; eexists; reflexivity.
    + left. repeat split; try reflexivity. eexists. reflexivity.
    + left. repeat split; try reflexivity. eexists. reflexivity.
    + left. repeat split; try reflexivity. eexists. reflexivity.
Qed.

(** The loop appends one row per comparable id, in the order of the
    request, and skips the others. *)
Lemma compare_loop_rows (test_data : string) (ids : list Z) :
  forall (acc : list pyval) (st : app),
  exists rows st',
    compare_loop test_data ids acc st = (Ok (List.app acc rows), st')
    /\ database st' = database st
    /\ Forall2 (row_of (database st)) (filter (comparable (database st)) ids) rows.
Proof.
  induction ids as [|i ids IH]; intros acc st; cbn [compare_loop filter].
  - exists [], st. rewrite app_nil_r. repeat split. constructor.
  - unfold bind. destruct (comparable (database st) i) eqn:Hc.
    + destruct (compare_one_row test_data i st Hc) as (row & st1 & E & Hdb & Hrow).
      rewrite E.
      destruct (IH (List.app acc [row]) st1) as (rows & st' & E' & Hdb' & HF).
      rewrite E'. exists (row :: rows), st'. rewrite <- app_assoc.
      split; [reflexivity|]. split; [congruence|].
      constructor; [assumption|]. now rewrite Hdb in HF.
    + rewrite compare_one_skip by assumption. apply IH.
Qed.

End Comparison.

(** C6 (amended).  A comparison asked for fewer than 2 algorithm ids fails
    with status 400 ("At least 2 algorithms required for comparison").  With
    2 or more ids it answers 200 with exactly one row per requested id that
    resolves to a catalog algorithm of an implemented family, in the order of
    the request; an id that does not resolve is skipped and has no row.  A
    row is either measured or failed, and the row of a family without
    encryption (Dilithium, Falcon) is the failed row: [performance = None],
    [success = False] and the refusal of the class as error text. *)
Theorem compare_algorithms_rows `{Base64} `{Json} `{Hashes} `{Padding}
    `{AesCbc} `{Rsa} `{Ec} (s : app) (user : Z) (data : compare_request) :
  let ids := req_algorithm_ids data in
  if (List.length ids <? 2)%nat then
    compare_algorithms user data s
    = (Ok (mkresp 400
             [("error", PStr "At least 2 algorithms required for comparison")]), s)
  else
    exists r s',
      compare_algorithms user data s = (Ok r, s')
      /\ status r = 200
      /\ database s' = database s
      /\ Forall2 (row_of (database s)) (filter (comparable (database s)) ids)
                 (comparison_rows r).
Proof.
  intros ids. unfold compare_algorithms, try_except. fold ids.
  destruct (List.length ids <? 2)%nat; [reflexivity|].
  unfold bind.
  destruct (compare_loop_rows
              (or_default (req_test_data data) "Hello, Quantum World!") ids [] s)
    as (rows & s1 & E & Hdb & HF).
  rewrite E. unfold clock_io, time_time, ret. cbn [fst snd List.app].
  do 2 eexists. split; [reflexivity|].
  repeat split; assumption.
Qed.

Lemma compare_skips_unresolvable :
  exists r s',
    @compare_algorithms ref_base64 ref_json ref_hashes ref_padding ref_aes ref_rsa
      ref_ec 1 (mk_compare_request [6; 999] None) sample_app = (Ok r, s')
    /\ List.length (comparison_rows r) = 1%nat
    /\ List.length [6; 999] = 2%nat.
Proof.
  do 2 eexists. split; [vm_compute; reflexivity|]. split; reflexivity.
Qed.

(* ===================================================================== *)
(** * Rows by their id (routes/tests.py, routes/reports.py) *)
(* ===================================================================== *)

Section PrimaryKeys.

Lemma le_fold_max (ids : list Z) (i : Z) : In i ids -> i <= fold_right Z.max 0 ids.
Proof.
  induction ids as [|j ids IH]; cbn [fold_right In]; [tauto|].
  intros [->|Hi]; [lia|]. specialize (IH Hi). lia.
Qed.

(** A new primary key is not in use. *)
Lemma next_id_fresh (ids : list Z) : ~ In (next_id ids) ids.
Proof.
  intros Hin. apply le_fold_max in Hin. unfold next_id in Hin. lia.
Qed.


(** A filter that drops nothing. *)
Lemma filter_all {A} (p : A -> bool) (l : list A) :
  (forall x, In x l -> p x = true) -> filter p l = l.
Proof.
  induction l as [|a l IH]; cbn [filter]; intros Hp; [reflexivity|].
  rewrite (Hp a (or_introl eq_refl)). f_equal. apply IH. intros x Hx.
  apply Hp. now right.
Qed.

(** Dropping the one row with a given key of a table with distinct keys. *)
Lemma length_filter_key {A} (key : A -> Z) (l : list A) (a : A) :
  NoDup (map key l) -> In a l ->
  S (List.length (filter (fun x => negb (key x =? key a)) l)) = List.length l.
Proof.
  induction l as [|x l IH]; cbn [map filter In List.length]; [tauto|].
  intros Hnd Ha. inversion Hnd as [|? ? Hx Hnd']; subst.
  destruct Ha as [->|Ha].
  - rewrite Z.eqb_refl. cbn [negb]. f_equal.
    rewrite filter_all; [reflexivity|].
    intros y Hy. apply negb_true_iff, Z.eqb_neq. intros E. apply Hx.
    rewrite <- E. now apply in_map.
  - destruct (Z.eqb_spec (key x) (key a)) as [E|E]; cbn [negb List.length].
    + exfalso. apply Hx. rewrite E. now apply in_map.
    + f_equal. now apply IH.
Qed.

End PrimaryKeys.

Section OneTest.

Variables (d : db) (user i : Z).

Lemma first_owned_resolves (t : Test.t) :
  tests_bp.first_owned d i user = Some t ->
  In t (tests d) /\ Test.id t = i /\ Test.user_id t = user.
Proof.
  unfold tests_bp.first_owned. intros E. apply find_some in E.
  destruct E as [Hin E]. apply andb_true_iff in E. destruct E as [E1 E2].
  apply Z.eqb_eq in E1, E2. auto.
Qed.

Lemma first_owned_none :
  tests_bp.first_owned d i user = None -> ~ resolves d user i.
Proof.
  unfold tests_bp.first_owned. intros E (t & Hin & Hid & Hu).
  pose proof (find_none _ _ E t Hin) as F. cbn beta in F.
  rewrite Hid, Hu, !Z.eqb_refl in F. discriminate.
Qed.

Lemma get_test_missing :
  ~ resolves d user i -> status (tests_bp.get_test user i d) = 404.
Proof.
  intros Hn. unfold tests_bp.get_test.
  destruct (tests_bp.first_owned d i user) as [t|] eqn:E; [|reflexivity].
  exfalso. apply Hn. exists t. now apply first_owned_resolves.
Qed.

End OneTest.

(** X1.  [get_test] shows a test to its owner only: the answer is 200
    exactly when the store holds a test with the requested id that belongs to
    the caller, and 404 otherwise; the test of a 200 answer carries the
    requested id and the caller's user id, and next to its own columns the
    catalog entry of its algorithm ([None] when that entry is gone). *)
Theorem get_test_only_own (d : db) (user i : Z) :
  (status (tests_bp.get_test user i d) = 200 <-> resolves d user i)
  /\ (status (tests_bp.get_test user i d) = 404 <-> ~ resolves d user i)
  /\ forall t,
       dict_get "test" (body (tests_bp.get_test user i d)) = Some t ->
       path ["id"] t = Some (PInt i)
       /\ path ["user_id"] t = Some (PInt user)
       /\ exists a, path ["algorithm_id"] t = Some (PInt a)
                    /\ path ["algorithm"] t
                       = Some (match Algorithm_get d a with
                               | Some row => Algorithm_to_dict row
                               | None => PNone
                               end).
Proof.
  unfold tests_bp.get_test.
  destruct (tests_bp.first_owned d i user) as [t|] eqn:E.
  - destruct (first_owned_resolves d user i t E) as (Hin & Hid & Hu).
    assert (Hr : resolves d user i) by (exists t; auto).
    cbn [status body]. split; [|split].
    + tauto.
    + split; [discriminate | tauto].
    + intros t0 H0. cbn in H0. injection H0 as <-.
      cbn. rewrite Hid, Hu. repeat split. exists (Test.algorithm_id t).
      split; reflexivity.
  - pose proof (first_owned_none d user i E) as Hn.
    cbn [status body]. split; [|split].
    + split; [discriminate | tauto].
    + tauto.
    + intros t0 H0. cbn in H0. discriminate.
Qed.

(** X2.  [DELETE /<test_id>] on a store with distinct primary keys: when the
    id resolves to a test of the caller the answer is 200, exactly that one
    row is gone, the other tables are untouched, the test can no longer be
    fetched, and the store is the one that [bulk_delete_tests] leaves for the
    one-element list; when it does not resolve (no such test, or a test of
    another user) the answer is 404 and the store is unchanged. *)
Theorem delete_test_removes_owned (d : db) (user i : Z) :
  db_wf d ->
  let r := fst (tests_bp.delete_test user i d) in
  let d' := snd (tests_bp.delete_test user i d) in
  (resolves d user i ->
     status r = 200
     /\ tests d' = filter (fun t => negb (Test.id t =? i)) (tests d)
     /\ S (List.length (tests d')) = List.length (tests d)
     /\ algorithms d' = algorithms d
     /\ reports d' = reports d
     /\ status (tests_bp.get_test user i d') = 404)
  /\ (~ resolves d user i -> status r = 404 /\ d' = d)
  /\ d' = snd (bulk_delete_tests user [i] d).
Proof.
  intros Hwf. cbv zeta.
  pose proof (bulk_delete_nonempty d user [i] Hwf) as Hb.
  assert (Hne : [i] <> []) by discriminate. specialize (Hb Hne).
  destruct Hb as [Hyes Hno]. cbv zeta in Hyes, Hno.
  unfold tests_bp.delete_test.
  destruct (tests_bp.first_owned d i user) as [t|] eqn:E; cbn [fst snd status].
  - destruct (first_owned_resolves d user i t E) as (Hin & Hid & Hu).
    assert (Hr : resolves d user i) by (exists t; auto).
    assert (Hd : delete_test d t
                 = mkdb (algorithms d)
                        (filter (fun t' => negb (Test.id t' =? i)) (tests d))
                        (reports d)).
    { unfold delete_test. now rewrite Hid. }
    split; [|split].
    + intros _. rewrite Hd. cbn [tests algorithms reports].
      repeat split.
      * rewrite <- Hid. apply (length_filter_key Test.id); [apply Hwf | exact Hin].
      * apply get_test_missing. intros (t' & Hin' & Hid' & _).
        cbn [tests] in Hin'. apply filter_In in Hin'. destruct Hin' as [_ F].
        rewrite Hid', Z.eqb_refl in F. discriminate.
    + tauto.
    + destruct Hyes as (_ & _ & Ht & Ha & Hrep).
      { split; [repeat constructor; cbn; tauto|].
        intros j [<-|[]]. exact Hr. }
      rewrite Hd.
      destruct (snd (bulk_delete_tests user [i] d)) as [a' t' r'].
      cbn [tests algorithms reports] in *. subst a' r'. f_equal.
      rewrite Ht. apply filter_ext. intros x. unfold Z_in. cbn [existsb].
      now rewrite orb_false_r.
  - pose proof (first_owned_none d user i E) as Hn.
    split; [|split]; [tauto | auto |].
    symmetry. apply Hno. intros [_ Hall]. apply Hn, Hall. now left.
Qed.

Lemma delete_test_removes_owned_witness :
  db_wf sample_db
  /\ status (fst (tests_bp.delete_test 1 2 sample_db)) = 200
  /\ snd (tests_bp.delete_test 1 2 sample_db) = snd (bulk_delete_tests 1 [2] sample_db)
  /\ map Test.id (tests (snd (tests_bp.delete_test 1 2 sample_db))) = [1; 3]
  /\ status (fst (tests_bp.delete_test 1 3 sample_db)) = 404.
Proof.
  pose proof (delete_test_removes_owned sample_db 1 2 sample_db_wf) as H.
  cbv zeta in H. destruct H as (_ & _ & H).
  split; [exact sample_db_wf|]. split; [reflexivity|]. split; [exact H|].
  split; vm_compute; reflexivity.
Defined.

Section OneReport.

Variables (d : db) (user i : Z).

Lemma first_report_owned (r : Report.t) :
  reports_bp.first_owned d i user = Some r ->
  In r (reports d) /\ Report.id r = i /\ Report.user_id r = user.
Proof.
  unfold reports_bp.first_owned. intros E. apply find_some in E.
  destruct E as [Hin E]. apply andb_true_iff in E. destruct E as [E1 E2].
  apply Z.eqb_eq in E1, E2. auto.
Qed.

Lemma first_report_none (r : Report.t) :
  reports_bp.first_owned d i user = None ->
  In r (reports d) -> Report.id r = i -> Report.user_id r <> user.
Proof.
  unfold reports_bp.first_owned. intros E Hin Hid Hu.
  pose proof (find_none _ _ E r Hin) as F. cbn beta in F.
  rewrite Hid, Hu, !Z.eqb_refl in F. discriminate.
Qed.

End OneReport.

(** The first row with a key that no earlier row has. *)
Lemma find_snoc_fresh {A} (p : A -> bool) (l : list A) (a : A) :
  (forall x, In x l -> p x = false) ->
  find p (List.app l [a]) = if p a then Some a else None.
Proof.
  induction l as [|x l IH]; cbn [List.app find]; intros Hp; [reflexivity|].
  rewrite (Hp x (or_introl eq_refl)). apply IH. intros y Hy. apply Hp. now right.
Qed.

(* ===================================================================== *)
(** * The catalog queries (routes/algorithms.py) *)
(* ===================================================================== *)

Section Catalog.

Lemma find_by_id (l : list Algorithm.t) (a : Algorithm.t) :
  NoDup (map Algorithm.id l) -> In a l ->
  find (fun x => Algorithm.id x =? Algorithm.id a) l = Some a.
Proof.
  induction l as [|x l IH]; cbn [map find In]; [tauto|].
  intros Hnd Ha. inversion Hnd as [|? ? Hx Hnd']; subst.
  destruct (Z.eqb_spec (Algorithm.id x) (Algorithm.id a)) as [E|E].
  - destruct Ha as [->|Ha]; [reflexivity|].
    exfalso. apply Hx. rewrite E. now apply in_map.
  - destruct Ha as [->|Ha]; [congruence|]. now apply IH.
Qed.

End Catalog.

(** X3.  [get_algorithm] on a catalog with distinct primary keys: every row
    of the catalog is returned, with status 200, for its own id, and an id
    that no row has is answered with 404. *)
Theorem get_algorithm_by_id (d : db) :
  db_wf d ->
  (forall a, In a (algorithms d) ->
     get_algorithm (Algorithm.id a) d
     = mkresp 200 [("algorithm", Algorithm_to_dict a)])
  /\ (forall i, ~ In i (map Algorithm.id (algorithms d)) ->
        get_algorithm i d = mkresp 404 [("error", PStr "Algorithm not found")]).
Proof.
  intros Hwf. split.
  - intros a Ha. unfold get_algorithm, Algorithm_get.
    now rewrite (find_by_id (algorithms d) a (wf_algorithms Hwf) Ha).
  - intros i Hi. unfold get_algorithm.
    destruct (Algorithm_get d i) as [a|] eqn:E; [|reflexivity].
    exfalso. apply Hi. unfold Algorithm_get in E. apply find_some in E.
    destruct E as [Hin E]. apply Z.eqb_eq in E. rewrite <- E. now apply in_map.
Qed.

Lemma get_algorithm_by_id_witness :
  status (get_algorithm 7 sample_db) = 200
  /\ path ["algorithm"; "name"] (PDict (body (get_algorithm 7 sample_db)))
     = Some (PStr "Kyber-512")
  /\ status (get_algorithm 14 sample_db) = 404.
Proof.
  destruct (get_algorithm_by_id sample_db sample_db_wf) as [Hfound Hnone].
  split; [|split].
  - assert (Hin : In (Algorithm.mk 7 "Kyber-512" "post-quantum" "Kyber" 512
                        "CRYSTALS-Kyber with security level 1" true "active")
                     (algorithms sample_db)) by (vm_compute; tauto).
    apply Hfound in Hin. cbn [Algorithm.id] in Hin. rewrite Hin. reflexivity.
  - vm_compute. reflexivity.
  - rewrite (Hnone 14); [reflexivity|]. vm_compute. intuition discriminate.
Defined.

Section Groups.

(** The rows that a list of groups counts for the key [c]. *)
Let rows_of (c : string) (groups : list (string * Z)) : Z :=
  fold_right Z.add 0 (map snd (filter (fun g => fst g == c) groups)).

Let total (groups : list (string * Z)) : Z := fold_right Z.add 0 (map snd groups).

Lemma rows_of_bump (c k : string) (groups : list (string * Z)) :
  rows_of c (bump k groups) = rows_of c groups + (if k == c then 1 else 0).
Proof.
  unfold rows_of. induction groups as [|[k' n] groups IH]; cbn [bump].
  - cbn [filter fst map snd fold_right]. destruct (k == c); cbn; lia.
  - destruct (String.eqb_spec k k') as [<-|Hk]; cbn [filter fst].
    + destruct (k == c); cbn [map snd fold_right]; lia.
    + destruct (k' == c); cbn [map snd fold_right]; rewrite IH; lia.
Qed.

Lemma total_bump (k : string) (groups : list (string * Z)) :
  total (bump k groups) = total groups + 1.
Proof.
  unfold total. induction groups as [|[k' n] groups IH]; cbn [bump].
  - reflexivity.
  - destruct (k == k'); cbn [map snd fold_right] in *; lia.
Qed.

Lemma keys_bump (k : string) (groups : list (string * Z)) :
  map fst (bump k groups)
  = if existsb (String.eqb k) (map fst groups) then map fst groups
    else List.app (map fst groups) [k].
Proof.
  induction groups as [|[k' n] groups IH]; cbn [bump map fst existsb List.app].
  - reflexivity.
  - destruct (k == k'); cbn [map fst orb]; [reflexivity|].
    rewrite IH. now destruct (existsb (String.eqb k) (map fst groups)).
Qed.

Lemma existsb_eqb_In (k : string) (keys : list string) :
  existsb (String.eqb k) keys = true <-> In k keys.
Proof.
  rewrite existsb_exists. split.
  - intros (x & Hx & E). apply String.eqb_eq in E. now subst.
  - intros Hk. exists k. split; [assumption | apply String.eqb_refl].
Qed.

Lemma keys_bump_NoDup (k : string) (groups : list (string * Z)) :
  NoDup (map fst groups) -> NoDup (map fst (bump k groups)).
Proof.
  intros Hnd. rewrite keys_bump.
  destruct (existsb (String.eqb k) (map fst groups)) eqn:E; [assumption|].
  assert (Hk : ~ In k (map fst groups)).
  { intros Hin. apply existsb_eqb_In in Hin. congruence. }
  clear E. induction Hnd as [|x l Hx Hnd IH]; cbn [List.app].
  - constructor; [tauto | constructor].
  - constructor.
    + rewrite in_app_iff. cbn [In]. intros [Hin|[->|[]]]; [tauto|].
      apply Hk. now left.
    + apply IH. intros Hin. apply Hk. now right.
Qed.

Lemma keys_bump_In (c k : string) (groups : list (string * Z)) :
  In c (map fst (bump k groups)) <-> c = k \/ In c (map fst groups).
Proof.
  rewrite keys_bump.
  destruct (existsb (String.eqb k) (map fst groups)) eqn:E.
  - apply existsb_eqb_In in E. split; [tauto|]. intros [->|Hc]; assumption.
  - rewrite in_app_iff. cbn [In]. intuition congruence.
Qed.

Lemma groups_fold (c : string) (rows : list Algorithm.t) :
  forall groups : list (string * Z),
    NoDup (map fst groups) ->
    let groups' :=
      fold_left (fun g a => bump (Algorithm.category a) g) rows groups in
    NoDup (map fst groups')
    /\ (In c (map fst groups')
        <-> In c (map Algorithm.category rows) \/ In c (map fst groups))
    /\ rows_of c groups' = rows_of c groups + Z.of_nat (count_category c rows)
    /\ total groups' = total groups + Z.of_nat (List.length rows).
Proof.
  unfold count_category.
  induction rows as [|a rows IH]; intros groups Hnd; cbn [fold_left].
  - cbn. repeat split; try tauto; lia.
  - specialize (IH (bump (Algorithm.category a) groups)
                   (keys_bump_NoDup _ _ Hnd)).
    cbv zeta in IH. destruct IH as (H1 & H2 & H3 & H4).
    cbv zeta. split; [exact H1|]. split; [|split].
    + rewrite H2, keys_bump_In. cbn [map In]. intuition congruence.
    + rewrite H3, rows_of_bump. cbn [filter].
      destruct (Algorithm.category a == c); cbn [List.length]; lia.
    + rewrite H4, total_bump. cbn [List.length]. lia.
Qed.

Lemma rows_of_In (c : string) (n : Z) (groups : list (string * Z)) :
  NoDup (map fst groups) -> In (c, n) groups -> rows_of c groups = n.
Proof.
  unfold rows_of. induction groups as [|[k m] groups IH]; cbn [map fst In]; [tauto|].
  intros Hnd Hin. inversion Hnd as [|? ? Hk Hnd']; subst. cbn [filter fst].
  destruct Hin as [E|Hin].
  - injection E as -> ->. rewrite String.eqb_refl. cbn [map snd fold_right].
    rewrite filter_none; [cbn; lia|].
    intros [k' m'] Hin'. cbn [fst]. apply String.eqb_neq. intros ->.
    apply Hk. change c with (fst (c, m')). now apply in_map.
  - destruct (String.eqb_spec k c) as [->|Hkc].
    + exfalso. apply Hk. change c with (fst (c, n)). now apply in_map.
    + now apply IH.
Qed.

Lemma count_types_le (rows : list Algorithm.t) :
  (List.length (filter (fun a => Algorithm.type a == "classical") rows)
   + List.length (filter (fun a => Algorithm.type a == "post-quantum") rows)
   <= List.length rows)%nat.
Proof.
  induction rows as [|a rows IH]; cbn [filter List.length]; [lia|].
  destruct (String.eqb_spec (Algorithm.type a) "classical") as [E|E].
  - rewrite E. cbn [String.eqb List.length]. cbn. lia.
  - destruct (Algorithm.type a == "post-quantum"); cbn [List.length]; lia.
Qed.

End Groups.

(** X4.  [get_algorithm_categories] partitions the catalog: the response
    lists every category that occurs in the catalog exactly once, each with
    the number of catalog rows of that category, so the counts add up to the
    size of the catalog; the total of the summary (classical plus
    post-quantum rows) never exceeds that size. *)
Theorem category_counts_partition (d : db) :
  let groups := category_counts d in
  dict_get "categories" (body (get_algorithm_categories d))
  = Some (PList (map (fun g => PDict [("name", PStr (fst g));
                                      ("count", PInt (snd g))]) groups))
  /\ NoDup (map fst groups)
  /\ (forall c, In c (map fst groups) <-> In c (map Algorithm.category (algorithms d)))
  /\ (forall c n, In (c, n) groups ->
        n = Z.of_nat (count_category c (algorithms d)) /\ 0 < n)
  /\ fold_right Z.add 0 (map snd groups) = Z.of_nat (List.length (algorithms d))
  /\ path ["summary"; "total"] (PDict (body (get_algorithm_categories d)))
     = Some (PInt (count_type d "classical" + count_type d "post-quantum"))
  /\ count_type d "classical" + count_type d "post-quantum"
     <= Z.of_nat (List.length (algorithms d)).
Proof.
  cbv zeta. unfold category_counts.
  assert (Hnil : NoDup (map fst (@nil (string * Z)))) by constructor.
  split; [reflexivity|]. split; [|split; [|split; [|split; [|split]]]].
  - apply (groups_fold "" (algorithms d) [] Hnil).
  - intros c. destruct (groups_fold c (algorithms d) [] Hnil) as (_ & H & _).
    cbv zeta in H. rewrite H. cbn [map In]. tauto.
  - intros c n Hin.
    destruct (groups_fold c (algorithms d) [] Hnil) as (Hnd & Hk & Hrows & _).
    cbv zeta in Hnd, Hk, Hrows.
    rewrite (rows_of_In c n _ Hnd Hin) in Hrows. cbn in Hrows.
    split; [exact Hrows|].
    assert (Hc : In c (map Algorithm.category (algorithms d))).
    { destruct Hk as [Hk _]. destruct Hk as [Hc|[]]; [|exact Hc].
      change c with (fst (c, n)). now apply in_map. }
    rewrite Hrows. unfold count_category. apply in_map_iff in Hc.
    destruct Hc as (a & <- & Ha).
    assert (Hf : In a (filter (fun a0 => Algorithm.category a0 == Algorithm.category a)
                              (algorithms d))).
    { apply filter_In. split; [assumption | apply String.eqb_refl]. }
    destruct (filter _ (algorithms d)); [destruct Hf | cbn [List.length]; lia].
  - destruct (groups_fold "" (algorithms d) [] Hnil) as (_ & _ & _ & H).
    exact H.
  - reflexivity.
  - unfold count_type. pose proof (count_types_le (algorithms d)). lia.
Qed.

(* ===================================================================== *)
(** * The security report on any store (routes/reports.py) *)
(* ===================================================================== *)

Section Rates.

(** A percentage against a threshold, in whole numbers. *)
Lemma num_ge_percentage (part whole k : Z) :
  0 < whole ->
  num_ge (percentage part whole) k = (k * whole <=? 100 * part).
Proof.
  intros Hpos. destruct whole as [|p|p]; try lia.
  unfold percentage. cbn [Z.gtb Z.compare]. unfold num_ge, num_value.
  unfold Qcompare. cbn [Qnum Qden Qdiv Qmult Qinv inject_Z].
  match goal with
  | |- context [(?x ?= ?y)%Z] => destruct (Z.compare_spec x y)
  end;
    destruct (Z.leb_spec (k * Z.pos p) (100 * part)); try reflexivity; lia.
Qed.

Lemma num_ge_zero (k : Z) : num_ge (PInt 0) k = (k <=? 0).
Proof.
  unfold num_ge, num_value, Qcompare. cbn [Qnum Qden inject_Z].
  match goal with
  | |- context [(?x ?= ?y)%Z] => destruct (Z.compare_spec x y)
  end;
    destruct (Z.leb_spec k 0); try reflexivity; lia.
Qed.

Lemma length_filter_le {A} (p q : A -> bool) (l : list A) :
  (List.length (filter (fun x => p x && q x) l) <= List.length (filter p l))%nat.
Proof.
  induction l as [|a l IH]; cbn [filter List.length]; [lia|].
  destruct (p a), (q a); cbn [andb List.length]; lia.
Qed.

Lemma successful_le_total (d : db) (user algorithm_id : Z) :
  0 <= count_successful_tests d user algorithm_id <= count_tests d user algorithm_id.
Proof.
  unfold count_successful_tests, count_tests.
  pose proof (length_filter_le
                (fun t => (Test.user_id t =? user) && (Test.algorithm_id t =? algorithm_id))
                Test.success (tests d)) as Hle.
  cbn beta in Hle. lia.
Qed.

End Rates.

Section Tiers.

Variables (d : db) (user : Z) (a : Algorithm.t).

Let total := count_tests d user (Algorithm.id a).
Let ok := count_successful_tests d user (Algorithm.id a).
Let safe := Algorithm.quantum_safe a.

Lemma analyse_level_counts :
  level_of (analyse d user a)
  = if (0 <? total) && (95 * total <=? 100 * ok) then
      if safe then "high" else "medium"
    else if (0 <? total) && (80 * total <=? 100 * ok) then
      if safe then "medium-high" else "medium-low"
    else if safe then "medium" else "low".
Proof.
  unfold analyse, security_tier. fold total ok safe.
  destruct (Z.ltb_spec 0 total) as [Hpos|Hzero]; cbn [andb].
  - rewrite !num_ge_percentage by assumption.
    destruct (95 * total <=? 100 * ok), (80 * total <=? 100 * ok), safe;
      reflexivity.
  - assert (E : percentage ok total = PInt 0).
    { unfold percentage. destruct (Z.gtb_spec total 0); [lia | reflexivity]. }
    rewrite E, !num_ge_zero. cbn [Z.leb Z.compare].
    destruct safe; reflexivity.
Qed.

(** Each entry of the analysis has one of the five tiers. *)
Lemma analyse_level_cases :
  In (level_of (analyse d user a))
     ["high"; "medium-high"; "medium"; "medium-low"; "low"].
Proof.
  rewrite analyse_level_counts.
  destruct ((0 <? total) && (95 * total <=? 100 * ok)),
    ((0 <? total) && (80 * total <=? 100 * ok)), safe; cbn; tauto.
Qed.

End Tiers.

(** X5.  The tier that the security report gives an algorithm, in whole
    numbers: with [total] tests of the caller on the algorithm, [ok] of them
    successful, the upper tier ("high" when quantum-safe, "medium" otherwise)
    needs at least one test and [ok / total >= 95%]; the middle tier
    ("medium-high", "medium-low") needs at least one test and
    [ok / total >= 80%]; everything else, an algorithm without tests
    included, is in the lower tier ("medium", "low").  So a classical
    algorithm is never rated above "medium" and a quantum-safe one never below
    it. *)
Theorem security_level_by_counts (d : db) (user : Z) (a : Algorithm.t) :
  let total := count_tests d user (Algorithm.id a) in
  let ok := count_successful_tests d user (Algorithm.id a) in
  let safe := Algorithm.quantum_safe a in
  0 <= ok <= total
  /\ level_of (analyse d user a)
     = if (0 <? total) && (95 * total <=? 100 * ok) then
         if safe then "high" else "medium"
       else if (0 <? total) && (80 * total <=? 100 * ok) then
         if safe then "medium-high" else "medium-low"
       else if safe then "medium" else "low".
Proof.
  cbv zeta. split; [apply successful_le_total | apply analyse_level_counts].
Qed.

Section SecurityReportRun.
Context `{Builtins}.

Variables (d : db) (user : Z) (title : option string) (today : string).

Let analysis := map (analyse d user) (algorithms d).

(** The run of the route, with the stored report spelled out. *)
Lemma security_report_run :
  exists content summary recommendations tail,
    let report :=
      Report.mk (next_id (map Report.id (reports d))) user
        (or_default title ("Security Analysis Report - " ++ today)) "security"
        content (map Algorithm.id (algorithms d)) summary recommendations in
    generate_security_report user title today d
    = (Ok (mkresp 201 [("message", PStr "Security report generated successfully");
                       ("report", Report_to_dict report)]),
       mkdb (algorithms d) (tests d) (List.app (reports d) [report]))
    /\ path ["algorithm_analysis"] content = Some (PList analysis)
    /\ path ["security_overview"; "quantum_readiness_score"] content
       = Some (round2 (pq_adoption_rate d user))
    /\ path ["security_distribution"] content
       = Some (PDict
            [("high", PInt (count_level analysis "high"));
             ("medium-high", PInt (count_level analysis "medium-high"));
             ("medium", PInt (count_level analysis "medium"));
             ("medium-low", PInt (count_level analysis "medium-low"));
             ("low", PInt (count_level analysis "low"));
             ("unknown", PInt (count_level analysis "unknown"))])
    /\ recommendations
       = adoption_recommendation (pq_adoption_rate d user) ++ tail.
Proof.
  unfold generate_security_report, try_except, bind, get, add_report, ret.
  fold analysis.
  destruct (filter (fun alg => (level_of alg == "low") || (level_of alg == "medium-low"))
                   analysis) as [|weak rest] eqn:E.
  - do 3 eexists. exists "". cbv zeta. split; [reflexivity|].
    repeat split. cbn [join].
    generalize (adoption_recommendation (pq_adoption_rate d user)).
    intros s. induction s as [|c s IH]; cbn; [reflexivity | now rewrite <- IH].
  - do 4 eexists. cbv zeta. split; [reflexivity|].
    repeat split.
Qed.

End SecurityReportRun.

Section SecurityReportFacts.
Context `{Builtins}.

Lemma db_eta (d : db) : mkdb (algorithms d) (tests d) (reports d) = d.
Proof. now destruct d. Qed.

(** The tiers of a list of entries add up to its length. *)
Lemma count_levels_total (analysis : list pyval) :
  (forall x, In x analysis ->
     In (level_of x) ["high"; "medium-high"; "medium"; "medium-low"; "low"]) ->
  count_level analysis "high" + count_level analysis "medium-high"
  + count_level analysis "medium" + count_level analysis "medium-low"
  + count_level analysis "low" = Z.of_nat (List.length analysis)
  /\ count_level analysis "unknown" = 0.
Proof.
  unfold count_level.
  induction analysis as [|x l IH]; intros Hall; [split; reflexivity|].
  destruct IH as [IH1 IH2]; [intros y Hy; apply Hall; now right|].
  assert (Hx := Hall x (or_introl eq_refl)).
  cbn [filter].
  destruct Hx as [E|[E|[E|[E|[E|[]]]]]]; rewrite <- E;
    cbn [String.eqb Ascii.eqb Bool.eqb andb List.length];
    cbn [String.eqb Ascii.eqb Bool.eqb andb List.length] in IH1, IH2;
    split; lia.
Qed.

Lemma Qfloor_bounds (q : Q) (lo hi : Z) :
  (inject_Z lo <= q <= inject_Z hi)%Q ->
  lo <= round_half_even q <= hi.
Proof.
  intros [Hlo Hhi]. unfold round_half_even.
  pose proof (Qfloor_resp_le _ _ Hlo) as Flo.
  pose proof (Qfloor_resp_le _ _ Hhi) as Fhi.
  rewrite Qfloor_Z in Flo, Fhi.
  assert (Hstep : (inject_Z (Qfloor q) < q)%Q -> Qfloor q + 1 <= hi).
  { intros Hlt. destruct (Z.eq_dec (Qfloor q) hi) as [E|E]; [|lia].
    rewrite E in Hlt. exfalso. apply (Qlt_not_le _ _ Hlt Hhi). }
  destruct (Qcompare_spec (q - inject_Z (Qfloor q)) (1 # 2)) as [E|E|E].
  - destruct (Z.even (Qfloor q)); [lia|].
    split; [lia|]. apply Hstep.
    apply Qlt_minus_iff. rewrite E. reflexivity.
  - lia.
  - split; [lia|]. apply Hstep.
    apply Qlt_minus_iff. eapply Qlt_trans; [|exact E]. reflexivity.
Qed.

Lemma round2_percentage_bounds (part rest : Z) :
  0 <= part -> 0 <= rest ->
  (0 <= num_value (round2 (percentage part (part + rest))) <= 100)%Q.
Proof.
  intros Hp Hr. unfold percentage.
  destruct (Z.gtb_spec (part + rest) 0) as [Hpos|Hzero].
  - cbn [round2 num_value].
    assert (Hq : (inject_Z 0
                  <= inject_Z part / inject_Z (part + rest) * 100 * 100
                  <= inject_Z 10000)%Q).
    { destruct (part + rest) as [|p|p] eqn:E; try lia.
      unfold Qle. cbn [Qnum Qden Qdiv Qmult Qinv inject_Z]. split; lia. }
    apply Qfloor_bounds in Hq.
    unfold Qle. cbn [Qnum Qden Qdiv Qmult Qinv inject_Z]. lia.
  - cbn [round2 num_value]. unfold Qle. cbn. lia.
Qed.

Lemma num_lt_percentage (part whole k : Z) :
  num_lt (percentage part whole) k
  = if 0 <? whole then 100 * part <? k * whole else 0 <? k.
Proof.
  unfold num_lt. destruct (Z.ltb_spec 0 whole) as [Hpos|Hzero].
  - rewrite num_ge_percentage by assumption.
    destruct (Z.leb_spec (k * whole) (100 * part)), (Z.ltb_spec (100 * part) (k * whole));
      try reflexivity; lia.
  - assert (E : percentage part whole = PInt 0).
    { unfold percentage. destruct (Z.gtb_spec whole 0); [lia | reflexivity]. }
    rewrite E, num_ge_zero.
    destruct (Z.leb_spec k 0), (Z.ltb_spec 0 k); try reflexivity; lia.
Qed.

End SecurityReportFacts.



Example security_report_refused_example :
  @Endpoint.generate_security_report ref_builtins 1 (BodyObject Null)
    "2024-05-01" "NOT NULL constraint failed: reports.title" sample_db
  = (Ok (mkresp 500 [("error", PStr "Failed to generate security report");
                     ("details",
                      PStr "NOT NULL constraint failed: reports.title")]),
     sample_db)
  /\ @Endpoint.generate_security_report ref_builtins 1 (BodyOther JNull)
       "2024-05-01" "NOT NULL constraint failed: reports.title" sample_db
     = (Ok (mkresp 500 [("error", PStr "Failed to generate security report");
                        ("details",
                         PStr "'NoneType' object has no attribute 'get'")]),
        sample_db).
Proof. split; vm_compute; reflexivity. Qed.

(** X7.  A generated security report can be read back and taken away by
    its owner only: right after [generate_security_report], [get_report] of
    the new id returns the stored report to the caller, any other user gets
    404 from both [get_report] and [delete_report] (which then changes
    nothing), and [delete_report] by the caller answers 200 and restores the
    store as it was before the report was generated. *)
Theorem security_report_round_trip `{Builtins} (d : db) (user other : Z)
    (title : option string) (today : string) :
  exists r report d',
    generate_security_report user title today d = (Ok r, d')
    /\ dict_get "report" (body r) = Some (Report_to_dict report)
    /\ reports_bp.get_report user (Report.id report) d'
       = mkresp 200 [("report", Report_to_dict report)]
    /\ (other <> user ->
        reports_bp.get_report other (Report.id report) d'
        = mkresp 404 [("error", PStr "Report not found")]
        /\ reports_bp.delete_report other (Report.id report) d'
           = (mkresp 404 [("error", PStr "Report not found")], d'))
    /\ reports_bp.delete_report user (Report.id report) d'
       = (mkresp 200 [("message", PStr "Report deleted successfully")], d).
Proof.
  destruct (security_report_run d user title today)
    as (content & summary & recs & tail & E & _).
  cbv zeta in E. do 3 eexists. split; [exact E|].
  set (report := Report.mk (next_id (map Report.id (reports d))) user
                   (or_default title ("Security Analysis Report - " ++ today))
                   "security" content (map Algorithm.id (algorithms d)) summary recs).
  assert (Hold : forall (u : Z) (x : Report.t), In x (reports d) ->
                   (Report.id x =? Report.id report) && (Report.user_id x =? u) = false).
  { intros u x Hx. apply andb_false_iff. left. apply Z.eqb_neq. intros Eid.
    apply (next_id_fresh (map Report.id (reports d))).
    change (next_id (map Report.id (reports d))) with (Report.id report).
    rewrite <- Eid. now apply in_map. }
  assert (Hfind : forall u,
            reports_bp.first_owned
              (mkdb (algorithms d) (tests d) (List.app (reports d) [report]))
              (Report.id report) u
            = if user =? u then Some report else None).
  { intros u. unfold reports_bp.first_owned. cbn [reports].
    rewrite find_snoc_fresh by (apply Hold).
    cbn [Report.id Report.user_id report]. now rewrite Z.eqb_refl. }
  split; [reflexivity|]. split; [|split].
  - unfold reports_bp.get_report. now rewrite Hfind, Z.eqb_refl.
  - intros Hne. unfold reports_bp.get_report, reports_bp.delete_report.
    rewrite Hfind. destruct (Z.eqb_spec user other); [congruence|]. split; reflexivity.
  - unfold reports_bp.delete_report. rewrite Hfind, Z.eqb_refl. f_equal.
    unfold reports_bp.session_delete. cbn [algorithms tests reports].
    rewrite filter_app. cbn [filter]. rewrite Z.eqb_refl. cbn [negb].
    rewrite app_nil_r, filter_all; [apply db_eta|].
    intros x Hx. apply negb_true_iff.
    specialize (Hold user x Hx). apply andb_false_iff in Hold.
    destruct Hold as [F|F]; [exact F|].
    apply Z.eqb_neq. intros Eid. apply (next_id_fresh (map Report.id (reports d))).
    change (next_id (map Report.id (reports d))) with (Report.id report).
    rewrite <- Eid. now apply in_map.
Qed.

(** X8.  The security distribution of a generated report counts every
    catalog algorithm exactly once: the numbers of "high", "medium-high",
    "medium", "medium-low" and "low" entries add up to the size of the
    catalog, and the "unknown" count is always 0, since the assessment
    overwrites its initial "unknown" on every path. *)
Theorem security_distribution_total `{Builtins} (d : db) (user : Z)
    (title : option string) (today : string) :
  exists r report d' high medium_high medium medium_low low,
    generate_security_report user title today d = (Ok r, d')
    /\ dict_get "report" (body r) = Some (Report_to_dict report)
    /\ path ["security_distribution"] (Report.content report)
       = Some (PDict [("high", PInt high); ("medium-high", PInt medium_high);
                      ("medium", PInt medium); ("medium-low", PInt medium_low);
                      ("low", PInt low); ("unknown", PInt 0)])
    /\ 0 <= high /\ 0 <= medium_high /\ 0 <= medium /\ 0 <= medium_low /\ 0 <= low
    /\ high + medium_high + medium + medium_low + low
       = Z.of_nat (List.length (algorithms d)).
Proof.
  destruct (security_report_run d user title today)
    as (content & summary & recs & tail & E & _ & _ & Hdist & _).
  cbv zeta in E.
  destruct (count_levels_total (map (analyse d user) (algorithms d))) as [Hsum Hunknown].
  { intros x Hx. apply in_map_iff in Hx. destruct Hx as (a & <- & _).
    apply analyse_level_cases. }
  rewrite Hunknown in Hdist. rewrite length_map in Hsum.
  do 8 eexists. split; [exact E|]. split; [reflexivity|].
  cbn [Report.content]. split; [exact Hdist|].
  unfold count_level in *. repeat split; try lia.
Qed.

(** X9.  The quantum readiness score of a generated report, with [pq] tests
    of the caller on quantum-safe algorithms and [cl] on the others: the
    score lies between 0 and 100 and is the integer 0 when the caller has no
    test; the first recommendation is the "Low" line when there is no test or
    [cl > 3 * pq] (a share below 25%), the "Moderate" line when
    [3 * pq >= cl > pq] (below 50%), and the "Good" line otherwise. *)
Theorem quantum_readiness_by_counts `{Builtins} (d : db) (user : Z)
    (title : option string) (today : string) :
  let pq := count_joined d user true in
  let cl := count_joined d user false in
  exists r report d' score tail,
    generate_security_report user title today d = (Ok r, d')
    /\ dict_get "report" (body r) = Some (Report_to_dict report)
    /\ path ["security_overview"; "quantum_readiness_score"] (Report.content report)
       = Some score
    /\ (0 <= num_value score <= 100)%Q
    /\ (pq + cl = 0 -> score = PInt 0)
    /\ Report.recommendations report
       = (if (pq + cl =? 0) || (3 * pq <? cl) then
            "Low post-quantum cryptography adoption detected. "
            ++ "Start evaluating and migrating to quantum-safe algorithms."
          else if pq <? cl then
            "Moderate post-quantum cryptography adoption. "
            ++ "Accelerate migration to quantum-safe algorithms."
          else
            "Good post-quantum cryptography adoption. "
            ++ "Continue expanding quantum-safe algorithm usage.")
         ++ tail.
Proof.
  cbv zeta.
  destruct (security_report_run d user title today)
    as (content & summary & recs & tail & E & _ & Hscore & _ & Hrecs).
  cbv zeta in E.
  assert (Hpq : 0 <= count_joined d user true) by (unfold count_joined; lia).
  assert (Hcl : 0 <= count_joined d user false) by (unfold count_joined; lia).
  do 5 eexists. split; [exact E|]. split; [reflexivity|].
  cbn [Report.content Report.recommendations]. split; [exact Hscore|].
  unfold pq_adoption_rate in *. split; [|split].
  - now apply round2_percentage_bounds.
  - intros Hz. rewrite Hz. reflexivity.
  - rewrite Hrecs. f_equal. unfold adoption_recommendation.
    rewrite !num_lt_percentage.
    set (pq := count_joined d user true) in *.
    set (cl := count_joined d user false) in *.
    destruct (Z.ltb_spec 0 (pq + cl)), (Z.eqb_spec (pq + cl) 0); try lia;
      cbn [orb].
    + destruct (Z.ltb_spec (100 * pq) (25 * (pq + cl))), (Z.ltb_spec (3 * pq) cl);
        try lia; [reflexivity|].
      destruct (Z.ltb_spec (100 * pq) (50 * (pq + cl))), (Z.ltb_spec pq cl);
        try lia; reflexivity.
    + reflexivity.
Qed.

(* ===================================================================== *)
(** * Distinct primary keys are an invariant of the store *)
(* ===================================================================== *)

Section KeysStayDistinct.

Lemma seeded_ids (ts : list Test.t) (rs : list Report.t) :
  map Algorithm.id (algorithms (fold_left add_algorithm all_algorithms (mkdb [] ts rs)))
  = [1; 2; 3; 4; 5; 6; 7; 8; 9; 10; 11; 12; 13]
  /\ tests (fold_left add_algorithm all_algorithms (mkdb [] ts rs)) = ts
  /\ reports (fold_left add_algorithm all_algorithms (mkdb [] ts rs)) = rs.
Proof. repeat split. Qed.

Lemma seeding_keeps_wf (d : db) :
  db_wf d ->
  db_wf (if Algorithm_count d >? 0 then d
         else fold_left add_algorithm all_algorithms d).
Proof.
  intros Hwf. destruct d as [[|a l] ts rs]; [|exact Hwf].
  change (Algorithm_count (mkdb [] ts rs) >? 0) with false. cbv iota.
  destruct (seeded_ids ts rs) as (Hids & Hts & Hrs).
  constructor.
  - rewrite Hids. apply distinct_NoDup. reflexivity.
  - rewrite Hts. apply Hwf.
  - rewrite Hrs. apply Hwf.
Qed.

End KeysStayDistinct.

(** X10.  Distinct primary keys are kept by every route that writes to the
    store without running a cipher: seeding the catalog (through the route
    and through [init_database]), deleting one test, deleting several tests,
    and deleting a report, whatever the caller, the ids and the answer. *)
Theorem store_keys_stay_unique (d : db) (user i : Z) (test_ids : list Z) :
  db_wf d ->
  db_wf (snd (seed_algorithms d))
  /\ db_wf (snd (init_database d))
  /\ db_wf (snd (tests_bp.delete_test user i d))
  /\ db_wf (snd (bulk_delete_tests user test_ids d))
  /\ db_wf (snd (reports_bp.delete_report user i d)).
Proof.
  intros Hwf.
  assert (Hdel : forall t, db_wf (delete_test d t)).
  { intros t. constructor; cbn [delete_test algorithms tests reports];
      try apply Hwf. apply filter_keeps_keys_distinct, Hwf. }
  split; [|split; [|split; [|split]]].
  - pose proof (seeding_keeps_wf d Hwf) as Hs. unfold seed_algorithms.
    destruct (Algorithm_count d >? 0); exact Hs.
  - pose proof (seeding_keeps_wf d Hwf) as Hs. unfold init_database.
    destruct (Algorithm_count d >? 0); exact Hs.
  - unfold tests_bp.delete_test.
    destruct (tests_bp.first_owned d i user); [apply Hdel | exact Hwf].
  - destruct test_ids as [|j ids]; [exact Hwf|].
    unfold bulk_delete_tests.
    destruct (negb (List.length (tests_in_owned d (j :: ids) user)
                    =? List.length (j :: ids))%nat); [exact Hwf|].
    cbn [snd]. rewrite fold_delete_tests.
    constructor; cbn [algorithms tests reports]; try apply Hwf.
    apply filter_keeps_keys_distinct, Hwf.
  - unfold reports_bp.delete_report.
    destruct (reports_bp.first_owned d i user); [|exact Hwf].
    constructor; cbn [snd reports_bp.session_delete algorithms tests reports];
      try apply Hwf.
    apply filter_keeps_keys_distinct, Hwf.
Qed.

Lemma store_keys_stay_unique_witness :
  db_wf sample_db
  /\ db_wf (snd (seed_algorithms sample_db))
  /\ db_wf (snd (bulk_delete_tests 1 [2; 1] sample_db)).
Proof.
  split; [exact sample_db_wf|].
  destruct (store_keys_stay_unique sample_db 1 2 [2; 1] sample_db_wf)
    as (Hseed & _ & _ & Hbulk & _).
  split; assumption.
Defined.

(* ===================================================================== *)
(** * Key generation of the stand-ins (crypto_implementations.py) *)
(* ===================================================================== *)

Section StandInKeys.
Context `{Base64} `{Json} `{Hashes} `{Padding} `{AesCbc}.

(** Two draws in a row. *)
Lemma two_draws (a b : Z) (w : world) :
  0 <= a -> 0 <= b ->
  get_random_bytes a w = (Ok (draw (Z.to_nat a) w), advance (Z.to_nat a) w)
  /\ get_random_bytes b (advance (Z.to_nat a) w)
     = (Ok (draw (Z.to_nat b) (advance (Z.to_nat a) w)),
        advance (Z.to_nat b) (advance (Z.to_nat a) w)).
Proof. intros Ha Hb. split; now apply get_random_bytes_ok. Qed.

Lemma Kyber_generate_keys_draws (o : KyberCrypto.t) (w : world) (a b : Z) :
  0 <= a -> 0 <= b ->
  table_get [(512, 800); (768, 1184); (1024, 1568)] (KyberCrypto.key_size o) 800
  = a ->
  table_get [(512, 1632); (768, 2400); (1024, 3168)] (KyberCrypto.key_size o) 1632
  = b ->
  KyberCrypto.generate_keys (o, w)
  = (Ok [("public_key", PStr (b64encode (draw (Z.to_nat a) w)));
         ("private_key", PStr (b64encode (draw (Z.to_nat b) (advance (Z.to_nat a) w))));
         ("algorithm", PStr "Kyber");
         ("security_level", PInt (KyberCrypto.key_size o));
         ("public_key_size", PInt a);
         ("private_key_size", PInt b)],
     (KyberCrypto.mk (KyberCrypto.key_size o) (Some (draw (Z.to_nat a) w))
                     (Some (draw (Z.to_nat b) (advance (Z.to_nat a) w))),
      advance (Z.to_nat b) (advance (Z.to_nat a) w))).
Proof.
  intros Ha Hb Ea Eb. unfold KyberCrypto.generate_keys, reraise. step.
  rewrite Ea, Eb.
  destruct (two_draws a b w Ha Hb) as [E1 E2].
  rewrite E1. cbn [fst snd KyberCrypto.key_size].
  rewrite E2. cbn [fst snd KyberCrypto.key_size KyberCrypto.public_key].
  now rewrite !length_draw, !Z2Nat.id by assumption.
Qed.

Lemma Dilithium_generate_keys_draws (o : DilithiumCrypto.t) (w : world) (a b : Z) :
  0 <= a -> 0 <= b ->
  table_get DilithiumCrypto.key_sizes (DilithiumCrypto.key_size o) (1312, 2528)
  = (a, b) ->
  DilithiumCrypto.generate_keys (o, w)
  = (Ok [("public_key", PStr (b64encode (draw (Z.to_nat a) w)));
         ("private_key", PStr (b64encode (draw (Z.to_nat b) (advance (Z.to_nat a) w))));
         ("algorithm", PStr "Dilithium");
         ("security_level", PInt (DilithiumCrypto.key_size o));
         ("public_key_size", PInt a);
         ("private_key_size", PInt b)],
     (DilithiumCrypto.mk (DilithiumCrypto.key_size o) (Some (draw (Z.to_nat a) w))
                         (Some (draw (Z.to_nat b) (advance (Z.to_nat a) w))),
      advance (Z.to_nat b) (advance (Z.to_nat a) w))).
Proof.
  intros Ha Hb E. unfold DilithiumCrypto.generate_keys, reraise. step.
  rewrite E. cbn [fst snd].
  destruct (two_draws a b w Ha Hb) as [E1 E2].
  rewrite E1. cbn [fst snd DilithiumCrypto.key_size].
  rewrite E2. cbn [fst snd DilithiumCrypto.key_size DilithiumCrypto.public_key].
  now rewrite !length_draw, !Z2Nat.id by assumption.
Qed.

Lemma Falcon_generate_keys_draws (o : FalconCrypto.t) (w : world) (a b : Z) :
  0 <= a -> 0 <= b ->
  table_get FalconCrypto.key_sizes (FalconCrypto.key_size o) (897, 1281)
  = (a, b) ->
  FalconCrypto.generate_keys (o, w)
  = (Ok [("public_key", PStr (b64encode (draw (Z.to_nat a) w)));
         ("private_key", PStr (b64encode (draw (Z.to_nat b) (advance (Z.to_nat a) w))));
         ("algorithm", PStr "Falcon");
         ("security_level", PInt (FalconCrypto.key_size o));
         ("public_key_size", PInt a);
         ("private_key_size", PInt b)],
     (FalconCrypto.mk (FalconCrypto.key_size o) (Some (draw (Z.to_nat a) w))
                      (Some (draw (Z.to_nat b) (advance (Z.to_nat a) w))),
      advance (Z.to_nat b) (advance (Z.to_nat a) w))).
Proof.
  intros Ha Hb E. unfold FalconCrypto.generate_keys, reraise. step.
  rewrite E. cbn [fst snd].
  destruct (two_draws a b w Ha Hb) as [E1 E2].
  rewrite E1. cbn [fst snd FalconCrypto.key_size].
  rewrite E2. cbn [fst snd FalconCrypto.key_size FalconCrypto.public_key].
  now rewrite !length_draw, !Z2Nat.id by assumption.
Qed.

End StandInKeys.

(** X11.  [generate_keys] of the three post-quantum stand-ins never fails
    and returns random bytes of the sizes of its tables, whatever the
    security level of the object: Kyber 800/1632 bytes (public/private) at
    level 512, 1184/2400 at 768, 1568/3168 at 1024; Dilithium 1312/2528 at
    level 2, 1952/4000 at 3, 2592/4864 at 5; Falcon 897/1281 at 512 and
    1793/2305 at 1024; any other level silently gets the smallest set.  The
    public key is the next bytes of the random source and the private key
    the bytes after them, so the two are unrelated; the sizes reported in the
    result are the byte lengths of the keys, and both attributes of the
    object are replaced. *)
Theorem stand_in_generate_keys_sizes `{Base64} `{Json} `{Hashes} `{Padding}
    `{AesCbc} (level : Z) (pk0 sk0 : option bytes) (w : world) :
  let keys (sizes : Z * Z) :=
    (draw (Z.to_nat (fst sizes)) w,
     draw (Z.to_nat (snd sizes)) (advance (Z.to_nat (fst sizes)) w)) in
  let after (sizes : Z * Z) :=
    advance (Z.to_nat (snd sizes)) (advance (Z.to_nat (fst sizes)) w) in
  let result (name : string) (sizes : Z * Z) :=
    [("public_key", PStr (b64encode (fst (keys sizes))));
     ("private_key", PStr (b64encode (snd (keys sizes))));
     ("algorithm", PStr name);
     ("security_level", PInt level);
     ("public_key_size", PInt (fst sizes));
     ("private_key_size", PInt (snd sizes))] in
  let kyber := if level =? 768 then (1184, 2400)
               else if level =? 1024 then (1568, 3168)
               else (800, 1632) in
  let dilithium := if level =? 3 then (1952, 4000)
                   else if level =? 5 then (2592, 4864)
                   else (1312, 2528) in
  let falcon := if level =? 1024 then (1793, 2305) else (897, 1281) in
  (KyberCrypto.generate_keys (KyberCrypto.mk level pk0 sk0, w)
   = (Ok (result "Kyber" kyber),
      (KyberCrypto.mk level (Some (fst (keys kyber))) (Some (snd (keys kyber))),
       after kyber)))
  /\ (DilithiumCrypto.generate_keys (DilithiumCrypto.mk level pk0 sk0, w)
      = (Ok (result "Dilithium" dilithium),
         (DilithiumCrypto.mk level (Some (fst (keys dilithium)))
                             (Some (snd (keys dilithium))),
          after dilithium)))
  /\ (FalconCrypto.generate_keys (FalconCrypto.mk level pk0 sk0, w)
      = (Ok (result "Falcon" falcon),
         (FalconCrypto.mk level (Some (fst (keys falcon))) (Some (snd (keys falcon))),
          after falcon)))
  /\ forall sizes : Z * Z,
       0 <= fst sizes -> 0 <= snd sizes ->
       Z.of_nat (List.length (fst (keys sizes))) = fst sizes
       /\ Z.of_nat (List.length (snd (keys sizes))) = snd sizes.
Proof.
  cbv zeta. split; [|split; [|split]].
  - destruct (Z.eqb_spec level 768) as [->|N1];
      [|destruct (Z.eqb_spec level 1024) as [->|N2]]; cbn [fst snd];
      apply Kyber_generate_keys_draws; cbn [KyberCrypto.key_size table_get];
      try lia; try reflexivity;
      repeat match goal with
             | |- context [level =? ?k] => destruct (Z.eqb_spec level k); try lia
             end; reflexivity.
  - destruct (Z.eqb_spec level 3) as [->|N1];
      [|destruct (Z.eqb_spec level 5) as [->|N2]]; cbn [fst snd];
      apply Dilithium_generate_keys_draws;
      cbn [DilithiumCrypto.key_size DilithiumCrypto.key_sizes table_get];
      try lia; try reflexivity;
      repeat match goal with
             | |- context [level =? ?k] => destruct (Z.eqb_spec level k); try lia
             end; reflexivity.
  - destruct (Z.eqb_spec level 1024) as [->|N1]; cbn [fst snd];
      apply Falcon_generate_keys_draws;
      cbn [FalconCrypto.key_size FalconCrypto.key_sizes table_get];
      try lia; try reflexivity;
      repeat match goal with
             | |- context [level =? ?k] => destruct (Z.eqb_spec level k); try lia
             end; reflexivity.
  - intros sizes Ha Hb. cbn [fst snd]. rewrite !length_draw, !Z2Nat.id by assumption.
    split; reflexivity.
Qed.

(* ===================================================================== *)
(** * Decrypting before any key exists (crypto_implementations.py) *)
(* ===================================================================== *)

(** X12.  [decrypt] on a new instance of an encryption class raises at
    once, whatever the ciphertext, and changes neither the object nor the
    world: no key is generated on the decryption side.  The error is
    "<family> decryption failed: Private key not available for decryption"
    for RSA, ECC and Kyber and "AES decryption failed: AES key not available
    for decryption" for AES. *)
Theorem decrypt_before_keys `{Base64} `{Json} `{Hashes} `{Padding} `{AesCbc}
    `{Rsa} `{Ec} (category : string) (implementation_class : Z -> crypto_impl)
    (key_size : Z) (ciphertext : string) (w : world) :
  ALGORITHM_IMPLEMENTATIONS category = Some implementation_class ->
  is_signature_category category = false ->
  impl_decrypt ciphertext (implementation_class key_size, w)
  = (Raise (category ++ " decryption failed: "
            ++ (if category == "AES" then "AES key not available for decryption"
                else "Private key not available for decryption")),
     (implementation_class key_size, w)).
Proof.
  unfold ALGORITHM_IMPLEMENTATIONS, is_signature_category. intros Hcls Hsig.
  repeat match type of Hcls with
         | (if ?c == ?k then _ else _) = _ =>
             destruct (String.eqb_spec c k) as [->|?];
             [injection Hcls as <-; try discriminate; reflexivity|]
         end.
  discriminate.
Qed.

Lemma decrypt_before_keys_witness :
  @impl_decrypt ref_base64 ref_json ref_hashes ref_padding ref_aes ref_rsa ref_ec
    "AAAA" (OfRSA (RSACrypto.init 2048), world0)
  = (Raise "RSA decryption failed: Private key not available for decryption",
     (OfRSA (RSACrypto.init 2048), world0)).
Proof.
  exact (@decrypt_before_keys ref_base64 ref_json ref_hashes ref_padding ref_aes
           ref_rsa ref_ec "RSA" _ 2048 "AAAA" world0 eq_refl eq_refl).
Defined.

(* ===================================================================== *)
(** * ECDSA signatures of the ECC class (crypto_implementations.py) *)
(* ===================================================================== *)

Section EccSignatures.
Context `{Base64} `{Json} `{Hashes} `{AesCbc} `{Ec}.

Hypothesis base64_roundtrip : forall b, b64decode (b64encode b) = Ok b.
Hypothesis ec_generate :
  forall (c : curve) (w : world),
    exists k w', ec_generate_private_key c w = (Ok k, w') /\ ec_key_curve k = c.
Hypothesis ecdsa_accepts :
  forall (sk : ec_private_key) (message : bytes) (w : world),
    exists signature w',
      ecdsa_sign sk message w = (Ok signature, w')
      /\ ecdsa_verify (ec_public sk) signature message = Ok tt.

Ltac ecc_fields :=
  cbn [fst snd ECCCrypto.key_size ECCCrypto.curve_ ECCCrypto.public_key
       ECCCrypto.private_key].

Lemma ECC_sign_verify_keyed (ks : Z) (cv : curve) (sk : ec_private_key)
    (w : world) (m : string) :
  let o := ECCCrypto.mk ks cv (Some (ec_public sk)) (Some sk) in
  exists sg w',
    ECCCrypto.sign m (o, w) = (Ok sg, (o, w'))
    /\ forall w'', ECCCrypto.verify m sg (o, w'') = (Ok true, (o, w'')).
Proof.
  intros o. subst o. unfold ECCCrypto.sign, reraise. step. ecc_fields.
  destruct (ecdsa_accepts sk (encode_utf8 m) w) as (sg & w' & Es & Ev).
  rewrite Es. ecc_fields. do 2 eexists. split; [reflexivity|].
  intros w''. unfold ECCCrypto.verify, reraise. step. ecc_fields.
  rewrite base64_roundtrip. ecc_fields. now rewrite Ev.
Qed.

Lemma ECC_sign_verify (o : ECCCrypto.t) (w : world) (m : string) :
  ecc_paired o ->
  exists sg st pk,
    ECCCrypto.sign m (o, w) = (Ok sg, st)
    /\ ECCCrypto.verify m sg st = (Ok true, st)
    /\ ECCCrypto.public_key (fst st) = Some pk.
Proof.
  intros Hp. unfold ecc_paired in Hp.
  destruct o as [ks cv [pk|] [sk|]]; ecc_fields; cbn [ECCCrypto.public_key
    ECCCrypto.private_key ECCCrypto.curve_] in Hp; try contradiction.
  - destruct Hp as [-> _].
    destruct (ECC_sign_verify_keyed ks cv sk w m) as (sg & w' & E & Hv).
    exists sg. do 2 eexists. split; [exact E|]. split; [apply Hv | reflexivity].
  - destruct (ec_generate cv w) as (sk & w1 & Eg & _).
    destruct (ECC_sign_verify_keyed ks cv sk w1 m) as (sg & w' & E & Hv).
    exists sg. do 2 eexists. split; [|split; [apply Hv | reflexivity]].
    unfold ECCCrypto.sign, reraise in *. revert E. step. ecc_fields.
    unfold ECCCrypto.generate_keys, reraise. step. ecc_fields.
    rewrite Eg. ecc_fields. step. ecc_fields. intros E. exact E.
Qed.

(** A signature text that decodes is accepted or rejected, never an
    error. *)
Lemma ECC_verify_decided (o : ECCCrypto.t) (w : world) (m sg : string)
    (pk : ec_public_key) (raw : bytes) :
  ECCCrypto.public_key o = Some pk ->
  b64decode sg = Ok raw ->
  ECCCrypto.verify m sg (o, w)
  = (Ok (match ecdsa_verify pk raw (encode_utf8 m) with
         | Ok _ => true
         | Raise _ => false
         end), (o, w)).
Proof.
  intros Hpk Hsg. unfold ECCCrypto.verify, reraise. step. rewrite Hpk, Hsg.
  cbn [fst snd]. now destruct (ecdsa_verify pk raw (encode_utf8 m)).
Qed.

End EccSignatures.

Section EccPlaintext.
Context `{Base64} `{Json} `{Hashes} `{AesCbc} `{Ec}.

Lemma encode_decode_utf8 (b : bytes) : encode_utf8 (decode_utf8 b) = b.
Proof. apply list_byte_of_string_of_list_byte. Qed.

(** Whatever [decrypt] returns has lost its trailing spaces. *)
Lemma ECC_decrypt_stripped (o : ECCCrypto.t) (w : world) (ct m : string)
    (st : ECCCrypto.t * world) :
  ECCCrypto.decrypt ct (o, w) = (Ok m, st) ->
  ends_with_space (encode_utf8 m) = false /\ st = (o, w).
Proof.
  unfold ECCCrypto.decrypt, reraise. step.
  destruct (ECCCrypto.private_key o) as [sk|]; [|discriminate].
  repeat match goal with
         | |- context [match ?x with Ok _ => _ | Raise _ => _ end] =>
             lazymatch x with
             | context [match _ with _ => _ end] => fail
             | _ => destruct x eqn:?; cbn [fst snd]
             end
         end; try discriminate.
  intros E. injection E as <- <-. split; [|reflexivity].
  rewrite encode_decode_utf8.
  match goal with
  | |- ends_with_space (rstrip_space ?b) = false =>
      destruct (rstrip_space_spec b) as (n & _ & Hn); exact Hn
  end.
Qed.

End EccPlaintext.

Section ReferenceSignatures.

Lemma bytes_eqb_refl (b : bytes) : Reference.bytes_eqb b b = true.
Proof.
  induction b as [|x b IH]; cbn [Reference.bytes_eqb]; [reflexivity|].
  rewrite IH, andb_true_r. exact (@Byte.byte_dec_lb x x eq_refl).
Qed.

Lemma ref_ecdsa_accepts (sk : curve * bytes) (message : bytes) (w : world) :
  exists signature w',
    Reference.ecdsa_sign sk message w = (Ok signature, w')
    /\ Reference.ecdsa_verify sk signature message = Ok tt.
Proof.
  do 2 eexists. split; [reflexivity|].
  unfold Reference.ecdsa_verify. now rewrite bytes_eqb_refl.
Qed.

End ReferenceSignatures.

(** X13.  ECDSA through the ECC class: with libraries that obey their laws
    (base64 reads back what it writes, key generation succeeds, ECDSA
    accepts a signature under the public key of the signing key), an instance
    whose key attributes are unset or hold a key pair verifies the signature
    it has just made, [verify(m, sign(m)) = True].  After that the instance
    holds a public key, and [verify] of a message and of any signature text
    that is valid base64 returns the verdict of the library under that key:
    [True] when the library accepts the decoded signature for the message,
    [False] when the library rejects it, and never an error. *)
Theorem ecc_sign_then_verify `{Base64} `{Json} `{Hashes} `{AesCbc} `{Ec}
    (o : ECCCrypto.t) (w : world) (m : string) :
  (forall b, b64decode (b64encode b) = Ok b) ->
  (forall (c : curve) (w : world),
      exists k w', ec_generate_private_key c w = (Ok k, w') /\ ec_key_curve k = c) ->
  (forall (sk : ec_private_key) (message : bytes) (w : world),
      exists signature w',
        ecdsa_sign sk message w = (Ok signature, w')
        /\ ecdsa_verify (ec_public sk) signature message = Ok tt) ->
  ecc_paired o ->
  exists sg st pk,
    ECCCrypto.sign m (o, w) = (Ok sg, st)
    /\ ECCCrypto.verify m sg st = (Ok true, st)
    /\ ECCCrypto.public_key (fst st) = Some pk
    /\ forall (m' other : string) (raw : bytes),
         b64decode other = Ok raw ->
         ECCCrypto.verify m' other st
         = (Ok (match ecdsa_verify pk raw (encode_utf8 m') with
                | Ok _ => true
                | Raise _ => false
                end), st).
Proof.
  intros Hb64 Hgen Hsig Hp.
  destruct (ECC_sign_verify Hb64 Hgen Hsig o w m Hp) as (sg & [o' w'] & pk & Es & Ev & Hpk).
  exists sg, (o', w'), pk. split; [exact Es|]. split; [exact Ev|].
  split; [exact Hpk|].
  intros m' other raw Hraw.
  apply (ECC_verify_decided o' w' m' other pk raw Hpk Hraw).
Qed.

Section EccSignatureExample.
#[local] Existing Instances ref_base64 ref_json ref_hashes ref_padding ref_aes
  ref_rsa ref_ec ref_builtins.

Lemma ecc_sign_then_verify_witness :
  exists sg st pk,
    ECCCrypto.sign "hello" (ECCCrypto.init 256, world0) = (Ok sg, st)
    /\ ECCCrypto.verify "hello" sg st = (Ok true, st)
    /\ ECCCrypto.public_key (fst st) = Some pk
    /\ forall (m' other : string) (raw : bytes),
         b64decode other = Ok raw ->
         ECCCrypto.verify m' other st
         = (Ok (match ecdsa_verify pk raw (encode_utf8 m') with
                | Ok _ => true
                | Raise _ => false
                end), st).
Proof.
  apply (ecc_sign_then_verify (ECCCrypto.init 256) world0 "hello").
  - exact ref_base64_roundtrip.
  - exact ref_ec_generate.
  - exact ref_ecdsa_accepts.
  - exact I.
Defined.

(** With the reference libraries: the signature of "hello" is accepted for
    "hello" and refused for "hullo", and a text that decodes to other bytes
    is refused; none of the three calls raises. *)
Example ecc_verdicts_example :
  match ECCCrypto.sign "hello" (ECCCrypto.init 256, world0) with
  | (Ok sg, st) =>
      fst (ECCCrypto.verify "hello" sg st) = Ok true
      /\ fst (ECCCrypto.verify "hullo" sg st) = Ok false
      /\ fst (ECCCrypto.verify "hello" (b64encode [x00; x01]) st) = Ok false
  | (Raise _, _) => False
  end.
Proof. vm_compute. repeat split. Qed.

End EccSignatureExample.

(** X14.  Whatever the ECC class decrypts has lost its trailing spaces:
    for every ciphertext text, a successful [decrypt] returns a plaintext
    whose UTF-8 bytes do not end in 0x20, and it leaves the object and the
    world as they were. *)
Theorem ecc_decrypt_drops_trailing_spaces `{Base64} `{Json} `{Hashes} `{AesCbc}
    `{Ec} (o : ECCCrypto.t) (w : world) (ct m : string)
    (st : ECCCrypto.t * world) :
  ECCCrypto.decrypt ct (o, w) = (Ok m, st) ->
  ends_with_space (encode_utf8 m) = false /\ st = (o, w).
Proof. apply ECC_decrypt_stripped. Qed.

Section EccPlaintextExample.
#[local] Existing Instances ref_base64 ref_json ref_hashes ref_padding ref_aes
  ref_rsa ref_ec ref_builtins.

Lemma ecc_decrypt_drops_trailing_spaces_witness :
  ends_with_space (encode_utf8 "hello") = false
  /\ snd (ECCCrypto.encrypt "hello  " (ECCCrypto.init 256, world0))
     = (fst (snd (ECCCrypto.encrypt "hello  " (ECCCrypto.init 256, world0))),
        snd (snd (ECCCrypto.encrypt "hello  " (ECCCrypto.init 256, world0)))).
Proof.
  apply (ecc_decrypt_drops_trailing_spaces
           (fst (snd (ECCCrypto.encrypt "hello  " (ECCCrypto.init 256, world0))))
           (snd (snd (ECCCrypto.encrypt "hello  " (ECCCrypto.init 256, world0))))
           (match fst (ECCCrypto.encrypt "hello  " (ECCCrypto.init 256, world0)) with
            | Ok ct => ct
            | Raise e => e
            end)
           "hello"
           (snd (ECCCrypto.encrypt "hello  " (ECCCrypto.init 256, world0)))).
  vm_compute. reflexivity.
Defined.

End EccPlaintextExample.

(* ===================================================================== *)
(** * The Kyber stand-in (crypto_implementations.py) *)
(* ===================================================================== *)

Section KyberStandIn.
Context `{Base64} `{Json} `{Padding} `{AesCbc}.

Hypothesis base64_roundtrip : forall b, b64decode (b64encode b) = Ok b.
Hypothesis json_roundtrip :
  forall fields : list (string * string),
    NoDup (map fst fields) ->
    json_loads (json_dumps (str_dict fields)) = Ok (str_dict fields).
Hypothesis pad_length :
  forall b, (List.length (pad b 16) mod 16 = 0)%nat.
Hypothesis unpad_pad : forall b, unpad (pad b 16) 16 = Ok b.
Hypothesis cbc_roundtrip :
  forall key iv data : bytes,
    In (List.length key) [16; 24; 32]%nat ->
    List.length iv = 16%nat ->
    (List.length data mod 16 = 0)%nat ->
    exists c, aes_cbc_encrypt key iv data = Ok c
              /\ aes_cbc_decrypt key iv c = Ok data.

(** The round trip of a keyed instance, by the bytes that decryption
    draws. *)
Lemma Kyber_round_trip_keyed (o : KyberCrypto.t) (w : world) (m : string) :
  truthy (KyberCrypto.public_key o) = true ->
  truthy (KyberCrypto.private_key o) = true ->
  exists ct w',
    KyberCrypto.encrypt m (o, w) = (Ok ct, (o, w'))
    /\ drawn w' = (drawn w + 112)%nat
    /\ entropy w' = entropy w
    /\ forall w'', draw 32 w'' = draw 32 w ->
                   fst (KyberCrypto.decrypt ct (o, w'')) = Ok m.
Proof.
  intros Hpk Hsk. unfold KyberCrypto.encrypt, reraise, call. step.
  rewrite Hpk. cbn [fst snd].
  rewrite (get_random_bytes_ok 32) by lia. cbn [fst snd].
  change (Z.to_nat 32) with 32%nat.
  destruct (AES_round_trip_keyed base64_roundtrip json_roundtrip pad_length
              unpad_pad cbc_roundtrip 256 (draw 32 w) (advance 32 w) m)
    as (inner & w1 & Ee & Hd).
  { rewrite length_draw. cbn. auto. }
  assert (Hw1 : drawn w1 = (drawn w + 48)%nat /\ entropy w1 = entropy w).
  { revert Ee. unfold AESCrypto.encrypt, reraise. step.
    cbn [AESCrypto.key]. rewrite (get_random_bytes_ok 16) by lia. cbn [fst snd AESCrypto.key].
    destruct (aes_cbc_encrypt _ _ _); cbn [fst snd]; intros E; [|discriminate].
    injection E as _ <-. cbn [drawn entropy advance]. split; [lia | reflexivity]. }
  rewrite Ee. cbn [fst snd]. rewrite (get_random_bytes_ok 64) by lia. cbn [fst snd].
  do 2 eexists. split; [reflexivity|].
  destruct Hw1 as [Hd1 He1]. cbn [drawn entropy advance]. rewrite Hd1, He1.
  split; [change (Z.to_nat 64) with 64%nat; lia|]. split; [reflexivity|].
  intros w'' Hsame. unfold KyberCrypto.decrypt, reraise, call. step.
  rewrite Hsk. cbn [negb].
  rewrite json_roundtrip
    by (cbn; repeat constructor; cbn; intuition discriminate).
  unfold str_dict, getitem, b64decode_value.
  cbn [map fst snd dict_get String.eqb Ascii.eqb Bool.eqb].
  rewrite base64_roundtrip. cbn [fst snd].
  rewrite (get_random_bytes_ok 32) by lia. cbn [fst snd].
  change (Z.to_nat 32) with 32%nat. rewrite Hsame.
  specialize (Hd (advance 32 w'')).
  destruct (AESCrypto.decrypt inner _) as [[a|e] [o' w3]]; cbn [fst snd] in *;
    congruence.
Qed.

End KyberStandIn.

(** X15.  [KyberCrypto.decrypt] does not use the key material: two objects
    that each hold some non-empty private key, whatever its bytes and
    whatever their public keys and security levels, give the same result and
    leave the same world for every ciphertext text; the object itself is not
    changed. *)
Theorem kyber_decrypt_ignores_keys `{Base64} `{Json} `{Padding} `{AesCbc}
    (o1 o2 : KyberCrypto.t) (w : world) (ct : string) :
  truthy (KyberCrypto.private_key o1) = true ->
  truthy (KyberCrypto.private_key o2) = true ->
  fst (KyberCrypto.decrypt ct (o1, w)) = fst (KyberCrypto.decrypt ct (o2, w))
  /\ snd (snd (KyberCrypto.decrypt ct (o1, w)))
     = snd (snd (KyberCrypto.decrypt ct (o2, w)))
  /\ fst (snd (KyberCrypto.decrypt ct (o1, w))) = o1.
Proof.
  intros Hk1 Hk2. unfold KyberCrypto.decrypt, reraise, call. step.
  rewrite Hk1, Hk2. cbn [negb].
  repeat match goal with
         | |- context [match ?x with _ => _ end] =>
             lazymatch x with
             | context [match _ with _ => _ end] => fail
             | _ => destruct x eqn:?; cbn [fst snd]
             end
         end; repeat split.
Qed.

Lemma kyber_decrypt_ignores_keys_witness :
  fst (@KyberCrypto.decrypt ref_base64 ref_json ref_padding ref_aes "{}"
         (KyberCrypto.mk 512 (Some [x01]) (Some [x02]), world0))
  = fst (@KyberCrypto.decrypt ref_base64 ref_json ref_padding ref_aes "{}"
           (KyberCrypto.mk 1024 None (Some [x03; x04]), world0))
  /\ snd (snd (@KyberCrypto.decrypt ref_base64 ref_json ref_padding ref_aes "{}"
                 (KyberCrypto.mk 512 (Some [x01]) (Some [x02]), world0)))
     = snd (snd (@KyberCrypto.decrypt ref_base64 ref_json ref_padding ref_aes "{}"
                   (KyberCrypto.mk 1024 None (Some [x03; x04]), world0)))
  /\ fst (snd (@KyberCrypto.decrypt ref_base64 ref_json ref_padding ref_aes "{}"
                 (KyberCrypto.mk 512 (Some [x01]) (Some [x02]), world0)))
     = KyberCrypto.mk 512 (Some [x01]) (Some [x02]).
Proof.
  apply (@kyber_decrypt_ignores_keys ref_base64 ref_json ref_padding ref_aes);
    reflexivity.
Defined.

(** X16.  The Kyber round trip depends on the random source alone: with
    libraries that obey their laws, a keyed instance encrypts every message,
    consuming 112 random bytes (32 for the shared secret, 16 for the AES IV,
    64 for the encapsulation), and [decrypt] of the result returns the
    message whenever the 32 bytes it draws next are the 32 bytes that
    encryption drew for the shared secret: nothing in the envelope or in the
    private key brings the secret back. *)
Theorem kyber_round_trip_by_chance `{Base64} `{Json} `{Padding} `{AesCbc}
    (o : KyberCrypto.t) (w : world) (m : string) :
  (forall b, b64decode (b64encode b) = Ok b) ->
  (forall fields : list (string * string),
      NoDup (map fst fields) ->
      json_loads (json_dumps (str_dict fields)) = Ok (str_dict fields)) ->
  (forall b, (List.length (pad b 16) mod 16 = 0)%nat) ->
  (forall b, unpad (pad b 16) 16 = Ok b) ->
  (forall key iv data : bytes,
      In (List.length key) [16; 24; 32]%nat ->
      List.length iv = 16%nat ->
      (List.length data mod 16 = 0)%nat ->
      exists c, aes_cbc_encrypt key iv data = Ok c
                /\ aes_cbc_decrypt key iv c = Ok data) ->
  truthy (KyberCrypto.public_key o) = true ->
  truthy (KyberCrypto.private_key o) = true ->
  draw 32 (advance 112 w) = draw 32 w ->
  exists ct w',
    KyberCrypto.encrypt m (o, w) = (Ok ct, (o, w'))
    /\ drawn w' = (drawn w + 112)%nat
    /\ fst (KyberCrypto.decrypt ct (o, w')) = Ok m.
Proof.
  intros Hb64 Hjson Hpl Hup Hcbc Hpk Hsk Hsame.
  destruct (Kyber_round_trip_keyed Hb64 Hjson Hpl Hup Hcbc o w m Hpk Hsk)
    as (ct & w' & E & Hd & He & Hdec).
  exists ct, w'. split; [exact E|]. split; [exact Hd|].
  apply Hdec. rewrite <- Hsame. unfold draw, advance. cbn [entropy drawn].
  now rewrite Hd, He.
Qed.

Lemma kyber_round_trip_by_chance_witness :
  exists ct w',
    @KyberCrypto.encrypt ref_base64 ref_json ref_padding ref_aes "hello"
      (KyberCrypto.mk 512 (Some [x01]) (Some [x02]),
       mkworld (fun _ => x2a) 0 (fun _ => 0%Q) 0)
    = (Ok ct, (KyberCrypto.mk 512 (Some [x01]) (Some [x02]), w'))
    /\ drawn w' = (0 + 112)%nat
    /\ fst (@KyberCrypto.decrypt ref_base64 ref_json ref_padding ref_aes ct
              (KyberCrypto.mk 512 (Some [x01]) (Some [x02]), w')) = Ok "hello".
Proof.
  apply (@kyber_round_trip_by_chance ref_base64 ref_json ref_padding ref_aes
           (KyberCrypto.mk 512 (Some [x01]) (Some [x02]))
           (mkworld (fun _ => x2a) 0 (fun _ => 0%Q) 0) "hello").
  - exact ref_base64_roundtrip.
  - exact ref_json_roundtrip.
  - exact ref_pad_length.
  - exact ref_unpad_pad.
  - exact ref_aes_roundtrip.
  - reflexivity.
  - reflexivity.
  - reflexivity.
Defined.

Section StandInSignatures.
Context `{Base64} `{Json} `{Hashes} `{Padding} `{AesCbc} `{Rsa} `{Ec}.

(** The message is encoded and then left aside by [sign] of the two
    signature stand-ins. *)
Lemma impl_sign_any_message (c : crypto_impl) (w : world) (m m' : string) :
  signature_only c = true ->
  impl_sign m' (c, w) = impl_sign m (c, w).
Proof.
  intros Hs. destruct c as [o|o|o|o|o|o]; try discriminate; reflexivity.
Qed.

Lemma signature_length_cases (c : crypto_impl) :
  signature_only c = true ->
  In (signature_length c) [2420; 3293; 4595; 690; 1330].
Proof.
  intros Hs. destruct c as [o|o|o|o|o|o]; try discriminate;
    cbn [signature_length In];
    unfold DilithiumCrypto.signature_size, FalconCrypto.signature_size;
    cbn [table_get];
    repeat match goal with
           | |- context [if ?b then _ else _] => destruct b
           end; auto 6.
Qed.

End StandInSignatures.

(** X24.  A signature of the two signature stand-ins says nothing about the
    message: on a Dilithium or Falcon instance, with or without keys, [sign]
    never fails, and from the same instance and the same state of the random
    source it returns the same envelope and leaves the same state for any two
    messages.  The signature field holds 2420, 3293 or 4595 random bytes
    (Dilithium) or 690 or 1330 (Falcon), by the security level. *)
Theorem stand_in_sign_ignores_message `{Base64} `{Json} `{Hashes} `{Padding}
    `{AesCbc} `{Rsa} `{Ec} (c : crypto_impl) (w : world) (m m' : string) :
  signature_only c = true ->
  exists signature c' w',
    impl_sign m (c, w)
    = (Ok (json_dumps (envelope (algorithm_label c) signature)), (c', w'))
    /\ impl_sign m' (c, w)
       = (Ok (json_dumps (envelope (algorithm_label c) signature)), (c', w'))
    /\ Z.of_nat (List.length signature) = signature_length c
    /\ In (signature_length c) [2420; 3293; 4595; 690; 1330].
Proof.
  intros Hs.
  destruct (impl_sign_run c w m Hs) as (sg & c' & w' & E & Hl & _).
  exists sg, c', w'. split; [exact E|]. split.
  - rewrite (impl_sign_any_message c w m m' Hs). exact E.
  - split; [exact Hl | now apply signature_length_cases].
Qed.

Section StandInSignatureExample.
#[local] Existing Instances ref_base64 ref_json ref_hashes ref_padding ref_aes
  ref_rsa ref_ec ref_builtins.

Lemma stand_in_sign_ignores_message_witness :
  exists signature c' w',
    impl_sign "pay 5" (OfFalcon (FalconCrypto.init 1024), world0)
    = (Ok (json_dumps (envelope (algorithm_label (OfFalcon (FalconCrypto.init 1024)))
                         signature)), (c', w'))
    /\ impl_sign "pay 5000" (OfFalcon (FalconCrypto.init 1024), world0)
       = (Ok (json_dumps (envelope (algorithm_label (OfFalcon (FalconCrypto.init 1024)))
                            signature)), (c', w'))
    /\ Z.of_nat (List.length signature)
       = signature_length (OfFalcon (FalconCrypto.init 1024))
    /\ In (signature_length (OfFalcon (FalconCrypto.init 1024)))
          [2420; 3293; 4595; 690; 1330].
Proof.
  apply (stand_in_sign_ignores_message (OfFalcon (FalconCrypto.init 1024)) world0
           "pay 5" "pay 5000").
  reflexivity.
Defined.

End StandInSignatureExample.

(* ===================================================================== *)
(** * The harness and the store (routes/algorithms.py, routes/tests.py) *)
(* ===================================================================== *)

Section HarnessStore.
Context `{Base64} `{Json} `{Hashes} `{Padding} `{AesCbc} `{Rsa} `{Ec}
        `{Builtins}.

Variables (s : app) (user algorithm_id : Z) (data : test_request).



(** A run on a supported kind appends one row under a new primary key. *)
Lemma harness_appends (algorithm : Algorithm.t) (cls : Z -> crypto_impl) :
  Algorithm_get (database s) algorithm_id = Some algorithm ->
  ALGORITHM_IMPLEMENTATIONS (Algorithm.category algorithm) = Some cls ->
  supported (cls (Algorithm.key_size algorithm)) (executed_kind algorithm data) = true ->
  exists r t w',
    test_algorithm user algorithm_id data s
    = (Ok r, mkapp (mkdb (algorithms (database s))
                         (List.app (tests (database s)) [t])
                         (reports (database s))) w')
    /\ Test.id t = next_id (map Test.id (tests (database s)))
    /\ Test.user_id t = user
    /\ Test.algorithm_id t = algorithm_id
    /\ Test.test_type t = executed_kind algorithm data
    /\ dict_get "test" (body r) = Some (Test_to_dict t)
    /\ (status r = 200 /\ Test.success t = true
        \/ status r = 400 /\ Test.success t = false).
Proof.
  intros Hget Himpl Hs.
  rewrite (harness_run s user algorithm_id data algorithm cls Hget Himpl).
  set (impl := cls (Algorithm.key_size algorithm)) in *.
  set (kind := executed_kind algorithm data) in *.
  set (input := or_default (req_input_data data) "Hello, Quantum World!").
  set (s1 := mkapp (database s) (snd (time_time (env s)))).
  pose proof (perform_supported impl kind input s1 Hs) as Hsome.
  pose proof (keeps_db_perform impl kind input s1) as Hdb.
  destruct (perform impl kind input s1) as [[[out|]|e] s2];
    cbn [fst snd] in *; [| congruence |];
    do 3 eexists; (split; [cbn [database]; rewrite Hdb; subst s1; cbn [database];
                           reflexivity|]);
    cbn [Test.id Test.user_id Test.algorithm_id Test.test_type Test.success
         status body dict_get String.eqb Ascii.eqb Bool.eqb];
    rewrite ?Hdb; subst s1; cbn [database]; repeat split; auto.
Qed.

End HarnessStore.



(** X18.  A test that the harness has recorded belongs to the caller in the
    other routes too: right after a run on a supported kind, [get_test] of
    the new id returns the record with the catalog entry of its algorithm to
    the caller and 404 to any other user, and [delete_test] by the caller
    restores the store as it was before the run. *)
Theorem recorded_test_can_be_fetched `{Base64} `{Json} `{Hashes} `{Padding}
    `{AesCbc} `{Rsa} `{Ec} `{Builtins}
    (s : app) (user other algorithm_id : Z) (data : test_request)
    (algorithm : Algorithm.t) (implementation_class : Z -> crypto_impl) :
  Algorithm_get (database s) algorithm_id = Some algorithm ->
  ALGORITHM_IMPLEMENTATIONS (Algorithm.category algorithm) = Some implementation_class ->
  supported (implementation_class (Algorithm.key_size algorithm))
            (executed_kind algorithm data) = true ->
  exists r t s',
    test_algorithm user algorithm_id data s = (Ok r, s')
    /\ dict_get "test" (body r) = Some (Test_to_dict t)
    /\ tests_bp.get_test user (Test.id t) (database s')
       = mkresp 200 [("test", setitem (Test_to_dict t) "algorithm"
                                (Algorithm_to_dict algorithm))]
    /\ (other <> user ->
        status (tests_bp.get_test other (Test.id t) (database s')) = 404)
    /\ tests_bp.delete_test user (Test.id t) (database s')
       = (mkresp 200 [("message", PStr "Test deleted successfully")], database s).
Proof.
  intros Hget Himpl Hs.
  destruct (harness_appends s user algorithm_id data algorithm implementation_class
              Hget Himpl Hs)
    as (r & t & w' & E & Hid & Hu & Ha & _ & Hbody & _).
  exists r, t. eexists. split; [exact E|]. split; [exact Hbody|].
  cbn [database].
  set (d' := mkdb (algorithms (database s)) (List.app (tests (database s)) [t])
                  (reports (database s))).
  assert (Hfresh : forall x, In x (tests (database s)) -> Test.id x <> Test.id t).
  { intros x Hx Eid. apply (next_id_fresh (map Test.id (tests (database s)))).
    rewrite <- Hid, <- Eid. now apply in_map. }
  assert (Hfind : forall u,
            tests_bp.first_owned d' (Test.id t) u
            = if user =? u then Some t else None).
  { intros u. unfold tests_bp.first_owned, d'. cbn [tests].
    rewrite find_snoc_fresh.
    - now rewrite Z.eqb_refl, Hu.
    - intros x Hx. apply andb_false_iff. left. apply Z.eqb_neq. now apply Hfresh. }
  split; [|split].
  - unfold tests_bp.get_test. rewrite Hfind, Z.eqb_refl, Ha.
    unfold Algorithm_get, d'. cbn [algorithms].
    unfold Algorithm_get in Hget. now rewrite Hget.
  - intros Hne. unfold tests_bp.get_test. rewrite Hfind.
    destruct (Z.eqb_spec user other); [congruence | reflexivity].
  - unfold tests_bp.delete_test. rewrite Hfind, Z.eqb_refl. f_equal.
    unfold delete_test, d'. cbn [algorithms tests reports].
    rewrite filter_app. cbn [filter]. rewrite Z.eqb_refl. cbn [negb].
    rewrite app_nil_r, filter_all; [apply db_eta|].
    intros x Hx. apply negb_true_iff, Z.eqb_neq. now apply Hfresh.
Qed.

Lemma recorded_test_can_be_fetched_witness :
  exists r t s',
    @test_algorithm ref_base64 ref_json ref_hashes ref_padding ref_aes ref_rsa
      ref_ec ref_builtins 1 6 (mk_test_request None None) sample_app = (Ok r, s')
    /\ dict_get "test" (body r) = Some (Test_to_dict t)
    /\ tests_bp.get_test 1 (Test.id t) (database s')
       = mkresp 200
           [("test", setitem (Test_to_dict t) "algorithm"
                       (Algorithm_to_dict
                          (Algorithm.mk 6 "AES-256" "classical" "AES" 256
                             "Advanced Encryption Standard with 256-bit key"
                             false "active")))]
    /\ (2 <> 1 -> status (tests_bp.get_test 2 (Test.id t) (database s')) = 404)
    /\ tests_bp.delete_test 1 (Test.id t) (database s')
       = (mkresp 200 [("message", PStr "Test deleted successfully")],
          database sample_app).
Proof.
  exact (@recorded_test_can_be_fetched ref_base64 ref_json ref_hashes ref_padding
           ref_aes ref_rsa ref_ec ref_builtins sample_app 1 2 6
           (mk_test_request None None) _ _ eq_refl eq_refl eq_refl).
Defined.

(* ===================================================================== *)
(** * The operation kinds on particular families (routes/algorithms.py) *)
(* ===================================================================== *)

Section HarnessKinds.
Context `{Base64} `{Json} `{Hashes} `{Padding} `{AesCbc} `{Rsa} `{Ec}
        `{Builtins}.

Variables (s : app) (user algorithm_id : Z) (input : option string)
          (algorithm : Algorithm.t).
Hypothesis Hget : Algorithm_get (database s) algorithm_id = Some algorithm.

Let s1 := mkapp (database s) (snd (time_time (env s))).
Let text := or_default input "Hello, Quantum World!".
Let k := Algorithm.key_size algorithm.

(** The class behind a signature-only category. *)
Lemma signature_class :
  is_signature_category (Algorithm.category algorithm) = true ->
  Algorithm.category algorithm = "Dilithium"
  /\ ALGORITHM_IMPLEMENTATIONS (Algorithm.category algorithm)
     = Some (fun k => OfDilithium (DilithiumCrypto.init k))
  \/ Algorithm.category algorithm = "Falcon"
     /\ ALGORITHM_IMPLEMENTATIONS (Algorithm.category algorithm)
        = Some (fun k => OfFalcon (FalconCrypto.init k)).
Proof.
  intros Hcat. destruct (is_signature_category_cases _ Hcat) as [E|E]; rewrite E;
    [left | right]; split; reflexivity.
Qed.

Lemma executed_kind_other (kind : string) :
  (kind == "encryption") = false ->
  executed_kind algorithm (mk_test_request (Some kind) input) = kind.
Proof.
  intros E. unfold executed_kind. cbn [req_test_type or_default].
  rewrite E. now rewrite andb_false_r.
Qed.

(** [encrypt] of the two signature classes raises before anything runs. *)
Lemma perform_decryption_refused :
  is_signature_category (Algorithm.category algorithm) = true ->
  exists cls,
    ALGORITHM_IMPLEMENTATIONS (Algorithm.category algorithm) = Some cls
    /\ perform (cls k) "decryption" text s1
       = (Raise (encrypt_refusal (Algorithm.category algorithm)), s1).
Proof.
  intros Hcat.
  destruct (signature_class Hcat) as [[E Hi]|[E Hi]]; eexists; (split; [exact Hi|]);
    rewrite E; reflexivity.
Qed.

Hypothesis json_roundtrip :
  forall fields : list (string * string),
    NoDup (map fst fields) ->
    json_loads (json_dumps (str_dict fields)) = Ok (str_dict fields).

(** A new instance of a signature class verifies what it has just signed. *)
Lemma perform_verification_accepts :
  is_signature_category (Algorithm.category algorithm) = true ->
  exists cls s2,
    ALGORITHM_IMPLEMENTATIONS (Algorithm.category algorithm) = Some cls
    /\ perform (cls k) "verification" text s1
       = (Ok (Some (PDict [("verified", PBool true)])), s2).
Proof.
  intros Hcat.
  destruct (signature_class Hcat) as [[E Hi]|[E Hi]].
  - destruct (Dilithium_sign_run (DilithiumCrypto.init k) (env s1) text)
      as (sg & o' & w' & Es & _ & _ & _ & Hkey).
    do 2 eexists. split; [exact Hi|]. unfold perform.
    cbn [String.eqb Ascii.eqb Bool.eqb has_sign has_verify andb].
    unfold bind, on_impl, impl_sign, impl_verify, method, ret. cbn [fst snd].
    rewrite Es. cbn [fst snd env].
    rewrite (Dilithium_verify_object o' w' text _ _ (Hkey eq_refl)
               (envelope_loads json_roundtrip "Dilithium" sg)).
    reflexivity.
  - destruct (Falcon_sign_run (FalconCrypto.init k) (env s1) text)
      as (sg & o' & w' & Es & _ & _ & _ & Hkey).
    do 2 eexists. split; [exact Hi|]. unfold perform.
    cbn [String.eqb Ascii.eqb Bool.eqb has_sign has_verify andb].
    unfold bind, on_impl, impl_sign, impl_verify, method, ret. cbn [fst snd].
    rewrite Es. cbn [fst snd env].
    rewrite (Falcon_verify_object o' w' text _ _ (Hkey eq_refl)
               (envelope_loads json_roundtrip "Falcon" sg)).
    reflexivity.
Qed.

End HarnessKinds.

(** X19.  A "decryption" test on an algorithm of a signature-only family
    (Dilithium, Falcon) always fails, and with the refusal of [encrypt], not
    of [decrypt]: the harness encrypts first, so the run answers 400 and
    stores one failed record of kind "decryption" whose error is "... is a
    signature algorithm, not for encryption. Use sign() method instead.". *)
Theorem decryption_test_on_signature_algorithm `{Base64} `{Json} `{Hashes}
    `{Padding} `{AesCbc} `{Rsa} `{Ec} `{Builtins}
    (s : app) (user algorithm_id : Z) (input : option string)
    (algorithm : Algorithm.t) :
  Algorithm_get (database s) algorithm_id = Some algorithm ->
  is_signature_category (Algorithm.category algorithm) = true ->
  exists t s',
    test_algorithm user algorithm_id (mk_test_request (Some "decryption") input) s
    = (Ok (mkresp 400
             [("message", PStr "Test failed");
              ("test", Test_to_dict t);
              ("error", PStr (encrypt_refusal (Algorithm.category algorithm)))]), s')
    /\ tests (database s') = List.app (tests (database s)) [t]
    /\ Test.test_type t = "decryption"
    /\ Test.success t = false
    /\ Test.output_data t = None
    /\ Test.error_message t = Some (encrypt_refusal (Algorithm.category algorithm)).
Proof.
  intros Hget Hcat.
  destruct (perform_decryption_refused s input algorithm Hcat) as (cls & Himpl & Ep).
  rewrite (harness_run s user algorithm_id _ algorithm cls Hget Himpl).
  rewrite (executed_kind_other input algorithm "decryption" eq_refl).
  cbn [req_input_data]. rewrite Ep.
  do 2 eexists. split; [reflexivity|]. repeat split.
Qed.

Lemma decryption_test_on_signature_algorithm_witness :
  exists t s',
    @test_algorithm ref_base64 ref_json ref_hashes ref_padding ref_aes ref_rsa
      ref_ec ref_builtins 1 12 (mk_test_request (Some "decryption") None) sample_app
    = (Ok (mkresp 400
             [("message", PStr "Test failed");
              ("test", Test_to_dict t);
              ("error", PStr (encrypt_refusal "Falcon"))]), s')
    /\ tests (database s') = List.app (tests (database sample_app)) [t]
    /\ Test.test_type t = "decryption"
    /\ Test.success t = false
    /\ Test.output_data t = None
    /\ Test.error_message t = Some (encrypt_refusal "Falcon").
Proof.
  apply (@decryption_test_on_signature_algorithm ref_base64 ref_json ref_hashes
           ref_padding ref_aes ref_rsa ref_ec ref_builtins sample_app 1 12 None
           (Algorithm.mk 12 "Falcon-512" "post-quantum" "Falcon" 512
              "Falcon signature scheme with 512-bit security" true "active")).
  - vm_compute. reflexivity.
  - reflexivity.
Defined.

(** X20.  A "verification" test on an algorithm of a signature-only family
    cannot fail: with a JSON library that reads back what it writes, the run
    signs the input with a new instance, verifies the signature, answers 200
    with the result [{"verified": True}] and stores a successful record whose
    output is the text of that dict. *)
Theorem verification_test_on_signature_algorithm `{Base64} `{Json} `{Hashes}
    `{Padding} `{AesCbc} `{Rsa} `{Ec} `{Builtins}
    (s : app) (user algorithm_id : Z) (input : option string)
    (algorithm : Algorithm.t) :
  (forall fields : list (string * string),
      NoDup (map fst fields) ->
      json_loads (json_dumps (str_dict fields)) = Ok (str_dict fields)) ->
  Algorithm_get (database s) algorithm_id = Some algorithm ->
  is_signature_category (Algorithm.category algorithm) = true ->
  exists t s',
    test_algorithm user algorithm_id (mk_test_request (Some "verification") input) s
    = (Ok (mkresp 200
             [("message", PStr "Test completed successfully");
              ("test", Test_to_dict t);
              ("result", PDict [("verified", PBool true)])]), s')
    /\ tests (database s') = List.app (tests (database s)) [t]
    /\ Test.test_type t = "verification"
    /\ Test.success t = true
    /\ Test.output_data t = Some "{'verified': True}"
    /\ Test.error_message t = None.
Proof.
  intros Hjson Hget Hcat.
  destruct (perform_verification_accepts s input algorithm Hjson Hcat)
    as (cls & s2 & Himpl & Ep).
  pose proof (keeps_db_perform (cls (Algorithm.key_size algorithm)) "verification"
                (or_default input "Hello, Quantum World!")
                (mkapp (database s) (snd (time_time (env s))))) as Hdb.
  rewrite (harness_run s user algorithm_id _ algorithm cls Hget Himpl).
  rewrite (executed_kind_other input algorithm "verification" eq_refl).
  cbn [req_input_data]. rewrite Ep in *. cbn [snd database] in Hdb.
  do 2 eexists. split; [reflexivity|]. cbn [database tests]. rewrite Hdb.
  repeat split.
Qed.

Lemma verification_test_on_signature_algorithm_witness :
  exists t s',
    @test_algorithm ref_base64 ref_json ref_hashes ref_padding ref_aes ref_rsa
      ref_ec ref_builtins 1 10 (mk_test_request (Some "verification") (Some "hello"))
      sample_app
    = (Ok (mkresp 200
             [("message", PStr "Test completed successfully");
              ("test", Test_to_dict t);
              ("result", PDict [("verified", PBool true)])]), s')
    /\ tests (database s') = List.app (tests (database sample_app)) [t]
    /\ Test.test_type t = "verification"
    /\ Test.success t = true
    /\ Test.output_data t = Some "{'verified': True}"
    /\ Test.error_message t = None.
Proof.
  apply (@verification_test_on_signature_algorithm ref_base64 ref_json ref_hashes
           ref_padding ref_aes ref_rsa ref_ec ref_builtins sample_app 1 10
           (Some "hello")
           (Algorithm.mk 10 "Dilithium-2" "post-quantum" "Dilithium" 2
              "CRYSTALS-Dilithium with security level 2" true "active")).
  - exact ref_json_roundtrip.
  - vm_compute. reflexivity.
  - reflexivity.
Defined.

Section KeyGenerationKind.
Context `{Base64} `{Json} `{Hashes} `{Padding} `{AesCbc} `{Rsa} `{Ec}
        `{Builtins}.

(** [generate_keys] of the AES class returns a dict with the two keys
    ["key"] and ["key_size"], so the harness finds no key pair in it. *)
Lemma perform_key_generation_aes (k : Z) (text : string) (s1 : app) :
  0 <= k ->
  exists s2,
    perform (OfAES (AESCrypto.init k)) "key_generation" text s1
    = (Ok (Some (PDict [("public_key_size", PInt 0);
                        ("private_key_size", PInt 0);
                        ("generated", PBool true)])), s2).
Proof.
  intros Hk. unfold perform. cbn [String.eqb Ascii.eqb Bool.eqb].
  unfold bind, on_impl, impl_generate_keys, method, ret. cbn [fst snd].
  unfold AESCrypto.generate_keys, reraise. step.
  cbn [AESCrypto.key_size AESCrypto.init].
  rewrite (get_random_bytes_ok (k / 8)) by (apply Z.div_pos; lia).
  cbn [fst snd]. eexists. reflexivity.
Qed.

End KeyGenerationKind.

(** X21.  A "key_generation" test on an AES algorithm reports no key
    material: the AES class returns its key under ["key"], while the harness
    measures ["public_key"] and ["private_key"], so for every key size that
    is not negative the run answers 200 with both sizes equal to 0 and stores
    a successful record with that output. *)
Theorem key_generation_test_on_aes `{Base64} `{Json} `{Hashes}
    `{Padding} `{AesCbc} `{Rsa} `{Ec} `{Builtins}
    (s : app) (user algorithm_id : Z) (input : option string)
    (algorithm : Algorithm.t) :
  Algorithm_get (database s) algorithm_id = Some algorithm ->
  Algorithm.category algorithm = "AES" ->
  0 <= Algorithm.key_size algorithm ->
  exists t s',
    test_algorithm user algorithm_id (mk_test_request (Some "key_generation") input) s
    = (Ok (mkresp 200
             [("message", PStr "Test completed successfully");
              ("test", Test_to_dict t);
              ("result", PDict [("public_key_size", PInt 0);
                                ("private_key_size", PInt 0);
                                ("generated", PBool true)])]), s')
    /\ tests (database s') = List.app (tests (database s)) [t]
    /\ Test.test_type t = "key_generation"
    /\ Test.success t = true
    /\ Test.output_data t
       = Some "{'public_key_size': 0, 'private_key_size': 0, 'generated': True}".
Proof.
  intros Hget Hcat Hk.
  assert (Himpl : ALGORITHM_IMPLEMENTATIONS (Algorithm.category algorithm)
                  = Some (fun k => OfAES (AESCrypto.init k)))
    by (rewrite Hcat; reflexivity).
  assert (Hsig : is_signature_category (Algorithm.category algorithm) = false)
    by (rewrite Hcat; reflexivity).
  destruct (perform_key_generation_aes (Algorithm.key_size algorithm)
              (or_default input "Hello, Quantum World!")
              (mkapp (database s) (snd (time_time (env s)))) Hk) as (s2 & Ep).
  pose proof (keeps_db_perform (OfAES (AESCrypto.init (Algorithm.key_size algorithm)))
                "key_generation" (or_default input "Hello, Quantum World!")
                (mkapp (database s) (snd (time_time (env s))))) as Hdb.
  rewrite (harness_run s user algorithm_id _ algorithm _ Hget Himpl).
  rewrite (executed_kind_other input algorithm "key_generation" eq_refl).
  cbn [req_input_data]. rewrite Ep in *. cbn [snd database] in Hdb.
  do 2 eexists. split; [reflexivity|]. cbn [database tests]. rewrite Hdb.
  repeat split.
Qed.

Lemma key_generation_test_on_aes_witness :
  exists t s',
    @test_algorithm ref_base64 ref_json ref_hashes ref_padding ref_aes ref_rsa
      ref_ec ref_builtins 1 5 (mk_test_request (Some "key_generation") None)
      sample_app
    = (Ok (mkresp 200
             [("message", PStr "Test completed successfully");
              ("test", Test_to_dict t);
              ("result", PDict [("public_key_size", PInt 0);
                                ("private_key_size", PInt 0);
                                ("generated", PBool true)])]), s')
    /\ tests (database s') = List.app (tests (database sample_app)) [t]
    /\ Test.test_type t = "key_generation"
    /\ Test.success t = true
    /\ Test.output_data t
       = Some "{'public_key_size': 0, 'private_key_size': 0, 'generated': True}".
Proof.
  apply (@key_generation_test_on_aes ref_base64 ref_json ref_hashes
           ref_padding ref_aes ref_rsa ref_ec ref_builtins sample_app 1 5 None
           (Algorithm.mk 5 "AES-128" "classical" "AES" 128
              "Advanced Encryption Standard with 128-bit key" false "active")).
  - vm_compute. reflexivity.
  - reflexivity.
  - cbn. lia.
Defined.

(* ===================================================================== *)
(** * What a comparison reports for AES and ECC (routes/algorithms.py) *)
(* ===================================================================== *)

Section ComparisonSuccess.
Context `{Base64} `{Json} `{Hashes} `{Padding} `{AesCbc} `{Rsa} `{Ec}.

(** A row is measured when the three operations of the loop body
    succeed; its flag compares the decrypted text with the test data. *)
Lemma compare_one_measured (test_data : string) (i : Z) (st : app)
    (a : Algorithm.t) (cls : Z -> crypto_impl) (expected : string) :
  Algorithm_get (database st) i = Some a ->
  ALGORITHM_IMPLEMENTATIONS (Algorithm.category a) = Some cls ->
  (forall w, exists ct c1 w1,
      impl_encrypt test_data (cls (Algorithm.key_size a), w) = (Ok ct, (c1, w1))
      /\ forall w', exists c2 w2,
           impl_decrypt ct (c1, w') = (Ok expected, (c2, w2))
           /\ forall w'', exists r c3 w3,
                impl_generate_keys (c2, w'') = (Ok r, (c3, w3))) ->
  exists row st',
    compare_one test_data i st = (Ok (Some row), st')
    /\ database st' = database st
    /\ path ["algorithm"] row = Some (Algorithm_to_dict a)
    /\ (exists fields, path ["performance"] row = Some (PDict fields))
    /\ path ["error"] row = None
    /\ path ["success"] row = Some (PBool (expected == test_data)).
Proof.
  intros Hget Himpl Hrun. unfold compare_one, bind at 1, get. rewrite Hget, Himpl.
  unfold try_except, bind, clock_io, on_impl, ret.
  destruct (time_time (env st)) as [t0 w0] eqn:E0. cbn [fst snd env database].
  destruct t0 as [t0|e]; [|unfold time_time in E0; discriminate].
  destruct (Hrun w0) as (ct & c1 & w1 & Ee & Hdec). rewrite Ee.
  cbn [fst snd env database].
  destruct (time_time w1) as [t1 w1'] eqn:E1. cbn [fst snd env database].
  destruct t1 as [t1|e]; [|unfold time_time in E1; discriminate].
  destruct (time_time w1') as [t2 w1''] eqn:E2. cbn [fst snd env database].
  destruct t2 as [t2|e]; [|unfold time_time in E2; discriminate].
  destruct (Hdec w1'') as (c2 & w2 & Ed & Hgen). rewrite Ed.
  cbn [fst snd env database].
  destruct (time_time w2) as [t3 w2'] eqn:E3. cbn [fst snd env database].
  destruct t3 as [t3|e]; [|unfold time_time in E3; discriminate].
  destruct (time_time w2') as [t4 w2''] eqn:E4. cbn [fst snd env database].
  destruct t4 as [t4|e]; [|unfold time_time in E4; discriminate].
  destruct (Hgen w2'') as (r & c3 & w3 & Eg). rewrite Eg.
  cbn [fst snd env database].
  destruct (time_time w3) as [t5 w3'] eqn:E5. cbn [fst snd env database].
  destruct t5 as [t5|e]; [|unfold time_time in E5; discriminate].
  do 2 eexists. split; [reflexivity|]. cbn [database].
  repeat split. eexists. reflexivity.
Qed.

Hypothesis base64_roundtrip : forall b, b64decode (b64encode b) = Ok b.
Hypothesis json_roundtrip :
  forall fields : list (string * string),
    NoDup (map fst fields) ->
    json_loads (json_dumps (str_dict fields)) = Ok (str_dict fields).
Hypothesis pad_length :
  forall b, (List.length (pad b 16) mod 16 = 0)%nat.
Hypothesis unpad_pad : forall b, unpad (pad b 16) 16 = Ok b.
Hypothesis cbc_roundtrip :
  forall key iv data : bytes,
    In (List.length key) [16; 24; 32]%nat ->
    List.length iv = 16%nat ->
    (List.length data mod 16 = 0)%nat ->
    exists c, aes_cbc_encrypt key iv data = Ok c
              /\ aes_cbc_decrypt key iv c = Ok data.
Hypothesis sha256_length : forall b, List.length (sha256 b) = 32%nat.
Hypothesis ec_generate :
  forall (c : curve) (w : world),
    exists k w', ec_generate_private_key c w = (Ok k, w') /\ ec_key_curve k = c.
Hypothesis ecdh_agree :
  forall a b : ec_private_key,
    ec_key_curve a = ec_key_curve b ->
    exists s, ec_exchange a (ec_public b) = Ok s
              /\ ec_exchange b (ec_public a) = Ok s.
Hypothesis pem_roundtrip :
  forall pk : ec_public_key, load_pem_public_key (ec_public_bytes pk) = Ok pk.

Lemma AES_decrypt_state (o : AESCrypto.t) (w : world) (ct : string) :
  snd (AESCrypto.decrypt ct (o, w)) = (o, w).
Proof.
  unfold AESCrypto.decrypt, reraise. step.
  destruct (AESCrypto.key o); [|reflexivity].
  repeat match goal with
         | |- context [match ?x with Ok _ => _ | Raise _ => _ end] =>
             lazymatch x with
             | context [match _ with _ => _ end] => fail
             | _ => destruct x; cbn [fst snd]
             end
         end; reflexivity.
Qed.

Lemma AES_run (k : Z) (m : string) :
  In k [128; 192; 256] ->
  forall w, exists ct c1 w1,
    impl_encrypt m (OfAES (AESCrypto.init k), w) = (Ok ct, (c1, w1))
    /\ forall w', exists c2 w2,
         impl_decrypt ct (c1, w') = (Ok m, (c2, w2))
         /\ forall w'', exists r c3 w3,
              impl_generate_keys (c2, w'') = (Ok r, (c3, w3)).
Proof.
  intros Hk w. set (n := Z.to_nat (k / 8)).
  assert (Hn : In n [16; 24; 32]%nat).
  { subst n. cbn [In] in Hk. destruct Hk as [<-|[<-|[<-|[]]]]; cbn; auto. }
  assert (Hpos : 0 <= k / 8) by (cbn [In] in Hk; apply Z.div_pos; lia).
  destruct (AES_round_trip_keyed base64_roundtrip json_roundtrip pad_length
              unpad_pad cbc_roundtrip k (draw n w) (advance n w) m)
    as (ct & w1 & E & Hd).
  { now rewrite length_draw. }
  exists ct, (OfAES (AESCrypto.mk k (Some (draw n w)))), w1. split.
  - unfold impl_encrypt, method. cbn [fst snd].
    assert (E' : AESCrypto.encrypt m (AESCrypto.init k, w)
                 = (Ok ct, (AESCrypto.mk k (Some (draw n w)), w1))).
    { unfold AESCrypto.encrypt, reraise in *. revert E. step.
      cbn [fst snd AESCrypto.key AESCrypto.key_size AESCrypto.init].
      unfold AESCrypto.generate_keys, reraise. step.
      cbn [fst snd AESCrypto.key AESCrypto.key_size].
      rewrite (get_random_bytes_ok (k / 8)) by assumption.
      fold n. cbn [fst snd AESCrypto.key AESCrypto.key_size]. step.
      cbn [fst snd AESCrypto.key AESCrypto.key_size]. intros E. exact E. }
    now rewrite E'.
  - intros w'. exists (OfAES (AESCrypto.mk k (Some (draw n w)))), w'. split.
    + unfold impl_decrypt, method. cbn [fst snd].
      specialize (Hd w').
      pose proof (AES_decrypt_state (AESCrypto.mk k (Some (draw n w))) w' ct) as Hs.
      destruct (AESCrypto.decrypt ct _) as [r [o2 w2]]. cbn [fst snd] in *.
      now injection Hs as -> ->; subst r.
    + intros w''. unfold impl_generate_keys, method. cbn [fst snd].
      unfold AESCrypto.generate_keys, reraise. step.
      cbn [fst snd AESCrypto.key AESCrypto.key_size].
      rewrite (get_random_bytes_ok (k / 8)) by assumption. cbn [fst snd].
      do 3 eexists. reflexivity.
Qed.

Lemma ECC_run (k : Z) (m : string) :
  forall w, exists ct c1 w1,
    impl_encrypt m (OfECC (ECCCrypto.init k), w) = (Ok ct, (c1, w1))
    /\ forall w', exists c2 w2,
         impl_decrypt ct (c1, w')
         = (Ok (decode_utf8 (rstrip_space (encode_utf8 m))), (c2, w2))
         /\ forall w'', exists r c3 w3,
              impl_generate_keys (c2, w'') = (Ok r, (c3, w3)).
Proof.
  intros w. set (cv := ECCCrypto.curve_map_get k).
  destruct (ec_generate cv w) as (sk & w0 & Eg & Hcv).
  destruct (ECC_round_trip_keyed base64_roundtrip json_roundtrip sha256_length
              cbc_roundtrip ec_generate ecdh_agree pem_roundtrip k cv sk w0 m Hcv)
    as (ct & w1 & E & Hd).
  cbv zeta in E, Hd.
  set (o := ECCCrypto.mk k cv (Some (ec_public sk)) (Some sk)) in *.
  exists ct, (OfECC o), w1. split.
  - unfold impl_encrypt, method. cbn [fst snd].
    assert (E' : ECCCrypto.encrypt m (ECCCrypto.init k, w) = (Ok ct, (o, w1))).
    { unfold ECCCrypto.init. fold cv.
      unfold ECCCrypto.encrypt, reraise in *. revert E. subst o. step.
      cbn [fst snd ECCCrypto.key_size ECCCrypto.curve_ ECCCrypto.public_key
           ECCCrypto.private_key].
      unfold ECCCrypto.generate_keys, reraise. step.
      cbn [fst snd ECCCrypto.key_size ECCCrypto.curve_ ECCCrypto.public_key
           ECCCrypto.private_key].
      rewrite Eg.
      cbn [fst snd ECCCrypto.key_size ECCCrypto.curve_ ECCCrypto.public_key
           ECCCrypto.private_key]. step.
      cbn [fst snd ECCCrypto.key_size ECCCrypto.curve_ ECCCrypto.public_key
           ECCCrypto.private_key]. intros E. exact E. }
    now rewrite E'.
  - intros w'. exists (OfECC o), w'. split.
    + unfold impl_decrypt, method. cbn [fst snd].
      specialize (Hd w').
      destruct (ECCCrypto.decrypt ct (o, w')) as [r st] eqn:Er.
      cbn [fst] in Hd. subst r.
      destruct (ECC_decrypt_stripped o w' ct _ st Er) as [_ ->]. reflexivity.
    + intros w''. unfold impl_generate_keys, method. cbn [fst snd].
      unfold ECCCrypto.generate_keys, reraise. step. subst o.
      cbn [fst snd ECCCrypto.key_size ECCCrypto.curve_ ECCCrypto.public_key
           ECCCrypto.private_key].
      destruct (ec_generate cv w'') as (sk2 & w2 & Eg2 & _). rewrite Eg2.
      cbn [fst snd]. do 3 eexists. reflexivity.
Qed.

(** The text comes back from the ECC class exactly when it does not end in
    a space. *)
Lemma stripped_same (m : string) :
  (decode_utf8 (rstrip_space (encode_utf8 m)) == m)
  = negb (ends_with_space (encode_utf8 m)).
Proof.
  destruct (ends_with_space (encode_utf8 m)) eqn:Hend; cbn [negb].
  - apply String.eqb_neq. intros Heq.
    destruct (rstrip_space_spec (encode_utf8 m)) as (n & _ & Hn).
    apply (f_equal encode_utf8) in Heq. rewrite encode_decode_utf8 in Heq.
    rewrite Heq in Hn. congruence.
  - rewrite rstrip_space_id by assumption. rewrite decode_encode_utf8.
    apply String.eqb_refl.
Qed.

Variables (d : db) (test_data : string).

(** What the row of an id says when the id names an AES algorithm of a
    standard key size or an ECC algorithm. *)
Let reported (i : Z) (row : pyval) : Prop :=
  exists a,
    Algorithm_get d i = Some a
    /\ path ["algorithm"] row = Some (Algorithm_to_dict a)
    /\ (exists fields, path ["performance"] row = Some (PDict fields))
    /\ path ["error"] row = None
    /\ path ["success"] row
       = Some (PBool (if Algorithm.category a == "ECC"
                      then negb (ends_with_space (encode_utf8 test_data))
                      else true)).

Let encrypting (i : Z) : Prop :=
  exists a,
    Algorithm_get d i = Some a
    /\ (Algorithm.category a = "AES" /\ In (Algorithm.key_size a) [128; 192; 256]
        \/ Algorithm.category a = "ECC").

Lemma compare_one_encrypting (i : Z) (st : app) :
  database st = d -> encrypting i ->
  exists row st',
    compare_one test_data i st = (Ok (Some row), st')
    /\ database st' = d /\ reported i row.
Proof.
  intros Hd (a & Hget & Hcat). rewrite <- Hd in Hget.
  destruct Hcat as [[Hcat Hk]|Hcat].
  - destruct (compare_one_measured test_data i st a
                (fun k => OfAES (AESCrypto.init k)) test_data Hget)
      as (row & st' & E & Hdb & Ha & Hp & He & Hs).
    { now rewrite Hcat. }
    { now apply AES_run. }
    exists row, st'. split; [exact E|]. split; [congruence|].
    exists a. rewrite <- Hd, Hcat. rewrite String.eqb_refl in Hs.
    repeat split; assumption.
  - destruct (compare_one_measured test_data i st a
                (fun k => OfECC (ECCCrypto.init k))
                (decode_utf8 (rstrip_space (encode_utf8 test_data))) Hget)
      as (row & st' & E & Hdb & Ha & Hp & He & Hs).
    { now rewrite Hcat. }
    { apply ECC_run. }
    exists row, st'. split; [exact E|]. split; [congruence|].
    exists a. rewrite <- Hd, Hcat. rewrite stripped_same in Hs.
    repeat split; assumption.
Qed.

Lemma compare_loop_encrypting (ids : list Z) :
  (forall i, In i ids -> encrypting i) ->
  forall (acc : list pyval) (st : app),
    database st = d ->
    exists rows st',
      compare_loop test_data ids acc st = (Ok (List.app acc rows), st')
      /\ Forall2 reported ids rows.
Proof.
  induction ids as [|i ids IH]; intros Hall acc st Hd; cbn [compare_loop].
  - exists [], st. rewrite app_nil_r. split; [reflexivity | constructor].
  - unfold bind.
    destruct (compare_one_encrypting i st Hd (Hall i (or_introl eq_refl)))
      as (row & st1 & E & Hd1 & Hrow).
    rewrite E.
    destruct (IH (fun j Hj => Hall j (or_intror Hj)) (List.app acc [row]) st1 Hd1)
      as (rows & st' & E' & HF).
    rewrite E'. exists (row :: rows), st'. rewrite <- app_assoc.
    split; [reflexivity|]. now constructor.
Qed.

End ComparisonSuccess.

Section DecryptionKind.
Context `{Base64} `{Json} `{Hashes} `{Padding} `{AesCbc} `{Rsa} `{Ec} `{Builtins}.

(** The "decryption" kind of the harness returns what [decrypt] gives for
    the text that [encrypt] has just produced. *)
Lemma perform_decryption_returns (c : crypto_impl) (m expected : string) (st : app) :
  (forall w, exists ct c1 w1,
      impl_encrypt m (c, w) = (Ok ct, (c1, w1))
      /\ forall w', exists c2 w2,
           impl_decrypt ct (c1, w') = (Ok expected, (c2, w2))
           /\ forall w'', exists r c3 w3,
                impl_generate_keys (c2, w'') = (Ok r, (c3, w3))) ->
  exists st', perform c "decryption" m st = (Ok (Some (PStr expected)), st').
Proof.
  intros Hrun. unfold perform. cbn [String.eqb Ascii.eqb Bool.eqb].
  unfold bind, on_impl, ret.
  destruct (Hrun (env st)) as (ct & c1 & w1 & Ee & Hdec). rewrite Ee.
  cbn [fst snd env database].
  destruct (Hdec w1) as (c2 & w2 & Ed & _). rewrite Ed. cbn [fst snd].
  eexists. reflexivity.
Qed.

End DecryptionKind.

(** X22.  What [compare_algorithms] reports for the families that encrypt
    with a key of their own: with libraries that obey their laws, a
    comparison of two or more ids that all name AES algorithms (of 128, 192 or
    256 bits) or ECC algorithms answers 200 with one measured row per id, in
    the order of the request, none with an error; the row of an AES algorithm
    has [success = True], and the row of an ECC algorithm has
    [success = True] exactly when the test data does not end in a space, as
    the ECC class returns the data without its trailing spaces. *)
Theorem comparison_success_flags `{Base64} `{Json} `{Hashes} `{Padding}
    `{AesCbc} `{Rsa} `{Ec} (s : app) (user : Z) (ids : list Z)
    (test_data : option string) :
  (forall b, b64decode (b64encode b) = Ok b) ->
  (forall fields : list (string * string),
      NoDup (map fst fields) ->
      json_loads (json_dumps (str_dict fields)) = Ok (str_dict fields)) ->
  (forall b, (List.length (pad b 16) mod 16 = 0)%nat) ->
  (forall b, unpad (pad b 16) 16 = Ok b) ->
  (forall key iv data : bytes,
      In (List.length key) [16; 24; 32]%nat ->
      List.length iv = 16%nat ->
      (List.length data mod 16 = 0)%nat ->
      exists c, aes_cbc_encrypt key iv data = Ok c
                /\ aes_cbc_decrypt key iv c = Ok data) ->
  (forall b, List.length (sha256 b) = 32%nat) ->
  (forall (c : curve) (w : world),
      exists k w', ec_generate_private_key c w = (Ok k, w') /\ ec_key_curve k = c) ->
  (forall a b : ec_private_key,
      ec_key_curve a = ec_key_curve b ->
      exists s, ec_exchange a (ec_public b) = Ok s
                /\ ec_exchange b (ec_public a) = Ok s) ->
  (forall pk : ec_public_key, load_pem_public_key (ec_public_bytes pk) = Ok pk) ->
  (2 <= List.length ids)%nat ->
  (forall i, In i ids ->
     exists a,
       Algorithm_get (database s) i = Some a
       /\ (Algorithm.category a = "AES" /\ In (Algorithm.key_size a) [128; 192; 256]
           \/ Algorithm.category a = "ECC")) ->
  exists r s',
    compare_algorithms user (mk_compare_request ids test_data) s = (Ok r, s')
    /\ status r = 200
    /\ Forall2
         (fun i row =>
            exists a,
              Algorithm_get (database s) i = Some a
              /\ path ["algorithm"] row = Some (Algorithm_to_dict a)
              /\ (exists fields, path ["performance"] row = Some (PDict fields))
              /\ path ["error"] row = None
              /\ path ["success"] row
                 = Some (PBool
                      (if Algorithm.category a == "ECC"
                       then negb (ends_with_space
                                    (encode_utf8
                                       (or_default test_data "Hello, Quantum World!")))
                       else true)))
         ids (comparison_rows r).
Proof.
  intros Hb64 Hjson Hpl Hup Hcbc Hsha Hgen Hdh Hpem Hlen Hall.
  unfold compare_algorithms, try_except. cbn [req_algorithm_ids req_test_data].
  destruct (Nat.ltb_spec (List.length ids) 2) as [Hlt|_]; [lia|].
  unfold bind.
  destruct (compare_loop_encrypting Hb64 Hjson Hpl Hup Hcbc Hsha Hgen Hdh Hpem
              (database s) (or_default test_data "Hello, Quantum World!") ids Hall
              [] s eq_refl)
    as (rows & s1 & E & HF).
  rewrite E. unfold clock_io, time_time, ret. cbn [fst snd List.app].
  do 2 eexists. split; [reflexivity|]. split; [reflexivity|]. exact HF.
Qed.

Lemma comparison_success_flags_witness :
  exists r s',
    @compare_algorithms ref_base64 ref_json ref_hashes ref_padding ref_aes ref_rsa
      ref_ec 1 (mk_compare_request [6; 3] (Some "hello ")) sample_app = (Ok r, s')
    /\ status r = 200
    /\ Forall2
         (fun i row =>
            exists a,
              Algorithm_get (database sample_app) i = Some a
              /\ path ["algorithm"] row = Some (Algorithm_to_dict a)
              /\ (exists fields, path ["performance"] row = Some (PDict fields))
              /\ path ["error"] row = None
              /\ path ["success"] row
                 = Some (PBool
                      (if Algorithm.category a == "ECC"
                       then negb (ends_with_space
                                    (encode_utf8
                                       (or_default (Some "hello ")
                                          "Hello, Quantum World!")))
                       else true)))
         [6; 3] (comparison_rows r).
Proof.
  apply (@comparison_success_flags ref_base64 ref_json ref_hashes ref_padding
           ref_aes ref_rsa ref_ec sample_app 1 [6; 3] (Some "hello ")).
  - exact ref_base64_roundtrip.
  - exact ref_json_roundtrip.
  - exact ref_pad_length.
  - exact ref_unpad_pad.
  - exact ref_aes_roundtrip.
  - exact ref_sha256_length.
  - exact ref_ec_generate.
  - exact ref_ec_exchange.
  - exact ref_load_pem.
  - cbn. lia.
  - intros i [<-|[<-|[]]].
    + exists (Algorithm.mk 6 "AES-256" "classical" "AES" 256
                "Advanced Encryption Standard with 256-bit key" false "active").
      split; [vm_compute; reflexivity|]. left. split; [reflexivity|]. cbn. tauto.
    + exists (Algorithm.mk 3 "ECC-P256" "classical" "ECC" 256
                "Elliptic Curve Cryptography with P-256 curve" false "active").
      split; [vm_compute; reflexivity|]. right. reflexivity.
Defined.

(** X23.  A "decryption" test on an AES or ECC algorithm returns the
    plaintext that the class recovers: with libraries that obey their laws,
    for an AES algorithm of 128, 192 or 256 bits the run answers 200 with the
    input itself as result, and for an ECC algorithm it answers 200 with the
    input without its trailing spaces; in both cases one successful record is
    stored with that text as output, so an ECC run on an input that ends in a
    space is recorded as a success although the text has changed. *)
Theorem decryption_test_returns_plaintext `{Base64} `{Json} `{Hashes} `{Padding}
    `{AesCbc} `{Rsa} `{Ec} `{Builtins}
    (s : app) (user algorithm_id : Z) (input : option string)
    (algorithm : Algorithm.t) :
  (forall b, b64decode (b64encode b) = Ok b) ->
  (forall fields : list (string * string),
      NoDup (map fst fields) ->
      json_loads (json_dumps (str_dict fields)) = Ok (str_dict fields)) ->
  (forall b, (List.length (pad b 16) mod 16 = 0)%nat) ->
  (forall b, unpad (pad b 16) 16 = Ok b) ->
  (forall key iv data : bytes,
      In (List.length key) [16; 24; 32]%nat ->
      List.length iv = 16%nat ->
      (List.length data mod 16 = 0)%nat ->
      exists c, aes_cbc_encrypt key iv data = Ok c
                /\ aes_cbc_decrypt key iv c = Ok data) ->
  (forall b, List.length (sha256 b) = 32%nat) ->
  (forall (c : curve) (w : world),
      exists k w', ec_generate_private_key c w = (Ok k, w') /\ ec_key_curve k = c) ->
  (forall a b : ec_private_key,
      ec_key_curve a = ec_key_curve b ->
      exists s, ec_exchange a (ec_public b) = Ok s
                /\ ec_exchange b (ec_public a) = Ok s) ->
  (forall pk : ec_public_key, load_pem_public_key (ec_public_bytes pk) = Ok pk) ->
  Algorithm_get (database s) algorithm_id = Some algorithm ->
  (Algorithm.category algorithm = "AES"
   /\ In (Algorithm.key_size algorithm) [128; 192; 256]
   \/ Algorithm.category algorithm = "ECC") ->
  let text := or_default input "Hello, Quantum World!" in
  let plain := if Algorithm.category algorithm == "ECC"
               then decode_utf8 (rstrip_space (encode_utf8 text))
               else text in
  exists t s',
    test_algorithm user algorithm_id (mk_test_request (Some "decryption") input) s
    = (Ok (mkresp 200
             [("message", PStr "Test completed successfully");
              ("test", Test_to_dict t);
              ("result", PStr plain)]), s')
    /\ tests (database s') = List.app (tests (database s)) [t]
    /\ Test.test_type t = "decryption"
    /\ Test.input_data t = text
    /\ Test.success t = true
    /\ Test.output_data t = Some plain.
Proof.
  intros Hb64 Hjson Hpl Hup Hcbc Hsha Hgen Hdh Hpem Hget Hcat text plain.
  set (s1 := mkapp (database s) (snd (time_time (env s)))).
  assert (Hrun : exists cls s2,
            ALGORITHM_IMPLEMENTATIONS (Algorithm.category algorithm) = Some cls
            /\ perform (cls (Algorithm.key_size algorithm)) "decryption" text s1
               = (Ok (Some (PStr plain)), s2)).
  { destruct Hcat as [[Hcat Hk]|Hcat]; subst plain; rewrite Hcat;
      cbn [String.eqb Ascii.eqb Bool.eqb].
    - destruct (perform_decryption_returns
                  (OfAES (AESCrypto.init (Algorithm.key_size algorithm))) text text s1
                  (AES_run Hb64 Hjson Hpl Hup Hcbc _ text Hk)) as (s2 & E).
      do 2 eexists. split; [reflexivity | exact E].
    - destruct (perform_decryption_returns
                  (OfECC (ECCCrypto.init (Algorithm.key_size algorithm))) text _ s1
                  (ECC_run Hb64 Hjson Hcbc Hsha Hgen Hdh Hpem _ text)) as (s2 & E).
      do 2 eexists. split; [reflexivity | exact E]. }
  destruct Hrun as (cls & s2 & Himpl & Ep).
  pose proof (keeps_db_perform (cls (Algorithm.key_size algorithm)) "decryption"
                text s1) as Hdb.
  rewrite (harness_run s user algorithm_id _ algorithm cls Hget Himpl).
  rewrite (executed_kind_other input algorithm "decryption" eq_refl).
  cbn [req_input_data]. fold text s1. rewrite Ep in *. cbn [snd database] in Hdb.
  do 2 eexists. split; [reflexivity|]. cbn [database tests]. rewrite Hdb.
  repeat split.
Qed.

Lemma decryption_test_returns_plaintext_witness :
  exists t s',
    @test_algorithm ref_base64 ref_json ref_hashes ref_padding ref_aes ref_rsa
      ref_ec ref_builtins 1 3 (mk_test_request (Some "decryption") (Some "hello "))
      sample_app
    = (Ok (mkresp 200
             [("message", PStr "Test completed successfully");
              ("test", Test_to_dict t);
              ("result", PStr "hello")]), s')
    /\ tests (database s') = List.app (tests (database sample_app)) [t]
    /\ Test.test_type t = "decryption"
    /\ Test.input_data t = "hello "
    /\ Test.success t = true
    /\ Test.output_data t = Some "hello".
Proof.
  apply (@decryption_test_returns_plaintext ref_base64 ref_json ref_hashes
           ref_padding ref_aes ref_rsa ref_ec ref_builtins sample_app 1 3
           (Some "hello ")
           (Algorithm.mk 3 "ECC-P256" "classical" "ECC" 256
              "Elliptic Curve Cryptography with P-256 curve" false "active")).
  - exact ref_base64_roundtrip.
  - exact ref_json_roundtrip.
  - exact ref_pad_length.
  - exact ref_unpad_pad.
  - exact ref_aes_roundtrip.
  - exact ref_sha256_length.
  - exact ref_ec_generate.
  - exact ref_ec_exchange.
  - exact ref_load_pem.
  - vm_compute. reflexivity.
  - right. reflexivity.
Defined.
